(** * Insurance-policy RAG pipeline: chunking, classification, features, retrieval

    A shallow embedding of the chunk builder, the section classifier, the
    feature extractor, the document batch loop and the retrieval formatter of
    [insurance_rag_simple.py] and [insurance_rag_system.py], followed by the
    properties the specification states about them.

    Conventions of the embedding:
    - a Python [str] is a [string]; every character is a code point below 256,
      and the character predicates below are Python's restricted to that range;
    - a Python [int] is a [Z] (lengths are [nat] where they index a list);
    - a Python [float] is a binary64 [float] with the primitive operations;
    - a raised exception is the [inl] side of a sum;
    - the sentence tokenizer, the clock, the PDF reader, the embedding model
      and the vector store are external and enter as section variables. *)

From Stdlib Require Import List String Ascii ZArith Bool Lia Floats Uint63.
From stdpp Require Import base gmap strings pretty.
Import ListNotations.

Set Warnings "-inexact-float".
Local Open Scope string_scope.
Local Open Scope list_scope.
Local Open Scope nat_scope.

(** ** Python string operations used by the sources *)

Module Py.

Definition code (c : ascii) : nat := nat_of_ascii c.

(** [str.isspace] on code points below 256, as used by [str.split()]. *)
Definition is_space (c : ascii) : bool :=
  let n := code c in
  ((9 <=? n) && (n <=? 13)) || ((28 <=? n) && (n <=? 32))
  || (n =? 133) || (n =? 160).

(** [\d] of the [re] module on a [str] pattern: the decimal digits. *)
Definition is_digit (c : ascii) : bool :=
  let n := code c in (48 <=? n) && (n <=? 57).

(** [A-Z] inside a character class. *)
Definition is_upper_AZ (c : ascii) : bool :=
  let n := code c in (65 <=? n) && (n <=? 90).

(** [str.lower] on one code point below 256. *)
Definition lower_char (c : ascii) : ascii :=
  let n := code c in
  if ((65 <=? n) && (n <=? 90))
     || ((192 <=? n) && (n <=? 222) && negb (n =? 215))
  then ascii_of_nat (n + 32) else c.

Fixpoint lower (s : string) : string :=
  match s with
  | EmptyString => EmptyString
  | String c s' => String (lower_char c) (lower s')
  end.

Definition flush (cur : string) : list string :=
  match cur with EmptyString => [] | _ => [cur] end.

(** [s.split()]: maximal runs of non-whitespace characters. [cur] is the
    word being read. *)
Fixpoint split_go (cur s : string) : list string :=
  match s with
  | EmptyString => flush cur
  | String c s' =>
      if is_space c then flush cur ++ split_go EmptyString s'
      else split_go (cur +:+ String c EmptyString) s'
  end.

Definition split (s : string) : list string := split_go EmptyString s.

(** [s.split(sep)] for a one-character separator. *)
Fixpoint split_sep_go (sep : ascii) (cur s : string) : list string :=
  match s with
  | EmptyString => [cur]
  | String c s' =>
      if Ascii.eqb c sep then cur :: split_sep_go sep EmptyString s'
      else split_sep_go sep (cur +:+ String c EmptyString) s'
  end.

Definition split_sep (sep : ascii) (s : string) : list string :=
  split_sep_go sep EmptyString s.

(** [sep.join(l)]. *)
Fixpoint join (sep : string) (l : list string) : string :=
  match l with
  | [] => EmptyString
  | [x] => x
  | x :: rest => x +:+ sep +:+ join sep rest
  end.

(** [needle in hay]. *)
Fixpoint contains (needle hay : string) : bool :=
  String.prefix needle hay
  || match hay with
     | EmptyString => false
     | String _ hay' => contains needle hay'
     end.

(** [hay.count(needle)] for a non-empty [needle]: occurrences counted from
    the left without overlap. [skip] is the number of characters of the last
    occurrence still to be passed over. *)
Fixpoint count_go (needle : string) (skip : nat) (hay : string) : Z :=
  match hay with
  | EmptyString => 0
  | String _ hay' =>
      match skip with
      | S k => count_go needle k hay'
      | O =>
          if String.prefix needle hay
          then 1 + count_go needle (String.length needle - 1)%nat hay'
          else count_go needle 0 hay'
      end
  end%Z.

Definition count (hay needle : string) : Z := count_go needle 0 hay.

(** [any(word in text for word in words)]. *)
Definition any_in (words : list string) (text : string) : bool :=
  existsb (fun word => contains word text) words.

(** [len(text.split())]. *)
Definition word_count (text : string) : Z :=
  Z.of_nat (List.length (split text)).

End Py.

(** ** Section classifier *)

Inductive category : Set :=
  | coverage | exclusion | definition | condition
  | premium | claim | schedule | general.

Definition section_name (s : category) : string :=
  match s with
  | coverage => "coverage" | exclusion => "exclusion"
  | definition => "definition" | condition => "condition"
  | premium => "premium" | claim => "claim"
  | schedule => "schedule" | general => "general"
  end.

Definition category_eqb (a b : category) : bool :=
  match a, b with
  | coverage, coverage | exclusion, exclusion | definition, definition
  | condition, condition | premium, premium | claim, claim
  | schedule, schedule | general, general => true
  | _, _ => false
  end.

(** [_classify_section], the same text in [SimpleInsuranceChunker] and in
    [InsurancePolicyChunker]. *)
Definition _classify_section (text : string) : category :=
  let text_lower := Py.lower text in
  if Py.any_in ["coverage"; "cover"; "insured"] text_lower then coverage
  else if Py.any_in ["exclusion"; "excluded"; "not covered"] text_lower then exclusion
  else if Py.any_in ["definition"; "defined"; "means"] text_lower then definition
  else if Py.any_in ["condition"; "term"; "provision"] text_lower then condition
  else if Py.any_in ["premium"; "payment"; "cost"] text_lower then premium
  else if Py.any_in ["claim"; "claimant"; "notification"] text_lower then claim
  else if Py.any_in ["schedule"; "table"; "summary"] text_lower then schedule
  else general.

(** The classifier as the specification words it: an ordered list of rules,
    each a category with its substrings, searched for the first rule one of
    whose substrings occurs in the lower-cased line. *)
Definition priority_cascade : list (category * list string) :=
  [ (coverage,   ["coverage"; "cover"; "insured"]);
    (exclusion,  ["exclusion"; "excluded"; "not covered"]);
    (definition, ["definition"; "defined"; "means"]);
    (condition,  ["condition"; "term"; "provision"]);
    (premium,    ["premium"; "payment"; "cost"]);
    (claim,      ["claim"; "claimant"; "notification"]);
    (schedule,   ["schedule"; "table"; "summary"]) ].

Definition rule_matches (rule : category * list string) (line : string) : bool :=
  Py.any_in (snd rule) (Py.lower line).

Definition classify_first_match (line : string) : category :=
  match find (fun rule => rule_matches rule line) priority_cascade with
  | Some rule => fst rule
  | None => general
  end.


(** ** Chunk builder *)

(** A raised Python exception, with its message. *)
Definition exn : Type := string.

(** One entry of [extracted_data['text_content']]. *)
Record item : Type := {
  page : Z;
  line : Z;
  text : string;
  is_header : bool;
  section_type : category
}.

(** One entry of [extracted_data['tables']] as the simple chunker's extraction
    builds it. *)
Record simple_table : Type := {
  simple_table_page : Z;
  simple_table_index : Z;
  simple_table_text : string
}.

(** One entry of [extracted_data['tables']] as the full chunker's three
    extraction methods build it: ['method'], ['table_index'] and ['text']
    always, ['page'] and ['accuracy'] for some methods only (the ['data']
    entry is never read by the chunk builder and is left out). *)
Record full_table : Type := {
  method : string;
  table_index : Z;
  table_page : option Z;
  accuracy : option float;
  table_text : string
}.

Record extracted_data (T : Type) : Type := {
  text_content : list item;
  tables : list T;
  total_pages : Z
}.
Arguments text_content {T} _.
Arguments tables {T} _.
Arguments total_pages {T} _.

Inductive chunk_type : Set := text_type | table_type.

Inductive chunk_metadata : Type :=
  | TextMetadata (section : category) (word_count char_count : Z) (timestamp : string)
  | SimpleTableMetadata (page table_index : Z)
  | FullTableMetadata (source : string) (table_index page : Z) (accuracy : float).

Record chunk : Type := {
  content : string;
  type : chunk_type;
  metadata : chunk_metadata
}.

(** The attributes both chunker classes set in [__init__]. *)
Record chunker : Type := {
  chunk_size : Z;
  chunk_overlap : Z;
  section_keywords : list string
}.

Definition insurance_section_keywords : list string :=
  ["policy"; "coverage"; "exclusions"; "terms"; "conditions";
   "premium"; "deductible"; "claim"; "benefits"; "limitations";
   "definitions"; "general conditions"; "special conditions";
   "schedule"; "endorsement"; "rider"; "clause"; "provision"].

(** [SimpleInsuranceChunker.__init__]: two assignments and the keyword list;
    nothing in it can raise. *)
Definition SimpleInsuranceChunker_init (chunk_size chunk_overlap : Z) : exn + chunker :=
  inr {| chunk_size := chunk_size;
         chunk_overlap := chunk_overlap;
         section_keywords := insurance_section_keywords |}.

Section FullChunkerInit.

(** The text splitters of the external splitting library; their
    constructors may raise. *)
Variable splitter : Type.
Variable RecursiveCharacterTextSplitter : Z -> Z -> list string -> exn + splitter.
Variable TokenTextSplitter : Z -> Z -> exn + splitter.

(** [InsurancePolicyChunker.__init__]: the same assignments, then the two
    splitters are built from the same [chunk_size] and [chunk_overlap]. *)
Definition InsurancePolicyChunker_init (chunk_size chunk_overlap : Z)
  : exn + (chunker * splitter * splitter) :=
  let self := {| chunk_size := chunk_size;
                 chunk_overlap := chunk_overlap;
                 section_keywords := insurance_section_keywords |} in
  match RecursiveCharacterTextSplitter chunk_size chunk_overlap
          [String "010" (String "010" ""); String "010" ""; ". "; " "; ""] with
  | inl e => inl e
  | inr recursive_splitter =>
      match TokenTextSplitter chunk_size chunk_overlap with
      | inl e => inl e
      | inr token_splitter => inr (self, recursive_splitter, token_splitter)
      end
  end.

End FullChunkerInit.

(** Truth value of a Python list. *)
Definition truthy {A : Type} (l : list A) : bool :=
  match l with [] => false | _ :: _ => true end.

Section ChunkBuilder.

(** [_split_into_sentences]: the sentence segmentation of the external NLP
    model, every sentence stripped. *)
Variable _split_into_sentences : string -> list string.

(** [datetime.now().isoformat()] at the k-th chunk created. *)
Variable now_isoformat : nat -> string.

Variable self : chunker.

(** [_create_chunk_metadata]. *)
Definition _create_chunk_metadata (text_list : list string)
    (section_type : category) (timestamp : string) : chunk :=
  let content := Py.join " " text_list in
  {| content := content;
     type := text_type;
     metadata := TextMetadata section_type
                   (Py.word_count content)
                   (Z.of_nat (String.length content))
                   timestamp |}.

Definition append_chunk (chunks : list chunk) (text_list : list string)
    (section_type : category) : list chunk :=
  chunks ++ [_create_chunk_metadata text_list section_type
               (now_isoformat (List.length chunks))].

(** Body of [for sentence in sentences]; the state is [chunks] and
    [temp_chunk]. *)
Definition sentence_step (current_section : category)
    (st : list chunk * list string) (sentence : string)
  : list chunk * list string :=
  let '(chunks, temp_chunk) := st in
  let temp_chunk := temp_chunk ++ [sentence] in
  let temp_text := Py.join " " temp_chunk in
  if (Py.word_count temp_text >? chunk_size self)%Z then
    let chunks :=
      if truthy temp_chunk
      then append_chunk chunks (removelast temp_chunk) current_section
      else chunks in
    (chunks, [sentence])
  else (chunks, temp_chunk).

(** Body of [for item in text_content]; the state is [chunks],
    [current_chunk] and [current_section]. *)
Definition item_step (st : list chunk * list string * category) (it : item)
  : list chunk * list string * category :=
  let '(chunks, current_chunk, current_section) := st in
  let '(chunks, current_chunk, current_section) :=
    if is_header it && negb (category_eqb (section_type it) current_section)
    then
      let chunks :=
        if truthy current_chunk
        then append_chunk chunks current_chunk current_section
        else chunks in
      (chunks, [text it], section_type it)
    else (chunks, current_chunk ++ [text it], current_section) in
  let chunk_text := Py.join " " current_chunk in
  if (Py.word_count chunk_text >? chunk_size self)%Z then
    let sentences := _split_into_sentences chunk_text in
    let '(chunks, temp_chunk) :=
      fold_left (sentence_step current_section) sentences (chunks, []) in
    (chunks, temp_chunk, current_section)
  else (chunks, current_chunk, current_section).

(** The text part shared by [create_chunks] and [create_semantic_chunks]:
    the loop over the lines and the remaining chunk. *)
Definition text_chunks (text_content : list item) : list chunk :=
  let '(chunks, current_chunk, current_section) :=
    fold_left item_step text_content ([], [], general) in
  if truthy current_chunk
  then append_chunk chunks current_chunk current_section
  else chunks.

(** [SimpleInsuranceChunker.create_chunks]. *)
Definition create_chunks (data : extracted_data simple_table) : list chunk :=
  text_chunks (text_content data)
  ++ map (fun table =>
            {| content := simple_table_text table;
               type := table_type;
               metadata := SimpleTableMetadata (simple_table_page table)
                                               (simple_table_index table) |})
         (tables data).

(** [InsurancePolicyChunker.create_semantic_chunks]. *)
Definition create_semantic_chunks (data : extracted_data full_table) : list chunk :=
  text_chunks (text_content data)
  ++ map (fun table =>
            {| content := table_text table;
               type := table_type;
               metadata := FullTableMetadata (method table)
                             (table_index table)
                             (default 0%Z (table_page table))
                             (default 0%float (accuracy table)) |})
         (tables data).

End ChunkBuilder.

(** ** Regular expressions of the [re] module, as far as the sources use them *)

(** The patterns of the sources are built from literal characters, character
    classes, greedy bounded repetition of a class, greedy optional groups and
    sequencing. *)
Inductive regex : Type :=
  | Chr (c : ascii)
  | Cls (p : ascii -> bool)
  | Rep (p : ascii -> bool) (lo : nat) (hi : option nat)
  | Opt (r : regex)
  | Seq (r1 r2 : regex).

(** Greedy repetition of a class, at least [lo] and at most [hi] characters:
    one more character is tried first, and the repetition stops here only if
    that fails. [k] matches the rest of the pattern and returns the input left
    after the whole match. *)
Fixpoint rep_match (p : ascii -> bool) (lo : nat) (hi : option nat)
    (s : string) (k : string -> option string) : option string :=
  let stop := match lo with O => k s | S _ => None end in
  match s with
  | String c s' =>
      if p c && match hi with Some O => false | _ => true end
      then match rep_match p (Nat.pred lo) (option_map Nat.pred hi) s' k with
           | Some rest => Some rest
           | None => stop
           end
      else stop
  | EmptyString => stop
  end.

(** Backtracking match of [r] at the start of [s]. *)
Fixpoint match_here (r : regex) (s : string) (k : string -> option string)
    : option string :=
  match r with
  | Chr c =>
      match s with
      | String c' s' => if Ascii.eqb c' c then k s' else None
      | EmptyString => None
      end
  | Cls p =>
      match s with
      | String c' s' => if p c' then k s' else None
      | EmptyString => None
      end
  | Rep p lo hi => rep_match p lo hi s k
  | Opt r' =>
      match match_here r' s k with
      | Some rest => Some rest
      | None => k s
      end
  | Seq r1 r2 => match_here r1 s (fun s' => match_here r2 s' k)
  end.

(** [re.findall(r, s)] for a pattern without groups: the matches from left to
    right, each search starting where the previous match ended. [fuel] bounds
    the number of searches. (No pattern of the sources matches the empty
    string; an empty match is recorded and the search moves on by one
    character.) *)
Fixpoint findall_go (fuel : nat) (r : regex) (s : string) : list string :=
  match fuel with
  | O => []
  | S fuel' =>
      let advance :=
        match s with
        | EmptyString => []
        | String _ s' => findall_go fuel' r s'
        end in
      match match_here r s Some with
      | Some rest =>
          match String.length s - String.length rest with
          | O => EmptyString :: advance
          | S _ as n => String.substring 0 n s :: findall_go fuel' r rest
          end
      | None => advance
      end
  end.

Definition findall (r : regex) (s : string) : list string :=
  findall_go (S (String.length s)) r s.

Fixpoint seq_of (rs : list regex) (last : regex) : regex :=
  match rs with
  | [] => last
  | r :: rs' => Seq r (seq_of rs' last)
  end.

Definition digit_or_comma (c : ascii) : bool := Py.is_digit c || Ascii.eqb c ",".
Definition slash_or_dash (c : ascii) : bool := Ascii.eqb c "/" || Ascii.eqb c "-".

(** [\$[\d,]+(?:\.\d{2})?] *)
Definition amount_pattern : regex :=
  seq_of [Chr "$"; Rep digit_or_comma 1 None]
         (Opt (Seq (Chr ".") (Rep Py.is_digit 2 (Some 2)))).

(** [\d+(?:\.\d+)?%] *)
Definition percentage_pattern : regex :=
  seq_of [Rep Py.is_digit 1 None; Opt (Seq (Chr ".") (Rep Py.is_digit 1 None))]
         (Chr "%").

(** [\d{1,2}[/-]\d{1,2}[/-]\d{2,4}] *)
Definition date_pattern : regex :=
  seq_of [Rep Py.is_digit 1 (Some 2); Cls slash_or_dash;
          Rep Py.is_digit 1 (Some 2); Cls slash_or_dash]
         (Rep Py.is_digit 2 (Some 4)).

(** [[A-Z]{2,}\d{6,}] *)
Definition policy_ref_pattern : regex :=
  Seq (Rep Py.is_upper_AZ 2 None) (Rep Py.is_digit 6 None).

(** [\d+] *)
Definition digits_pattern : regex := Rep Py.is_digit 1 None.

(** ** Feature extractor *)

(** Conversion of a Python [int] to [float], for [0 <= z < 2^63] (every length
    and count of the sources is below that bound). *)
Definition float_of_int (z : Z) : float := PrimFloat.of_uint63 (Uint63.of_Z z).

(** [a / b] on two [int]s; exact operands up to [2^53]. *)
Definition int_truediv (a b : Z) : exn + float :=
  if (b =? 0)%Z then inl "ZeroDivisionError: division by zero"
  else inr (float_of_int a / float_of_int b)%float.

(** The built-in [min(a, b)]: [b] replaces [a] only if [b < a]. *)
Definition py_min (a b : float) : float := if (b <? a)%float then b else a.

(** [str.isdigit] on code points below 256: the decimal digits and the three
    superscript digits. *)
Definition str_isdigit (c : ascii) : bool :=
  let n := Py.code c in
  Py.is_digit c || (n =? 178) || (n =? 179) || (n =? 185).

Fixpoint any_char (p : ascii -> bool) (s : string) : bool :=
  match s with
  | EmptyString => false
  | String c s' => p c || any_char p s'
  end.

(** [SimpleInsuranceEmbedder.insurance_terms]. *)
Definition simple_insurance_terms : list string :=
  ["premium"; "deductible"; "coverage"; "exclusion"; "claim";
   "policyholder"; "beneficiary"; "endorsement"; "rider";
   "underwriting"; "actuary"; "indemnity"; "subrogation"].

(** [InsuranceEmbedder.insurance_terms]. *)
Definition full_insurance_terms : list string :=
  simple_insurance_terms ++ ["grace period"; "contestability"; "incontestability"].

Record features : Type := {
  insurance_terms : gmap string Z;
  amounts : list string;
  percentages : list string;
  dates : list string;
  policy_references : option (list string);
  word_count : Z;
  sentence_count : Z;
  avg_sentence_length : float;
  has_table_data : bool;
  has_legal_terms : bool
}.

Section Embedder.

(** [self.insurance_terms], and whether the class is [InsuranceEmbedder],
    whose [_extract_features] also collects policy references. *)
Variable self_insurance_terms : list string.
Variable full : bool.

(** [len(words) / len(sentences) if sentences else 0]. *)
Definition average_sentence_length (words sentences : list string) : exn + float :=
  if truthy sentences
  then int_truediv (Z.of_nat (List.length words)) (Z.of_nat (List.length sentences))
  else inr 0%float.

(** [_extract_features]. *)
Definition _extract_features (text : string) : exn + features :=
  let text_lower := Py.lower text in
  let term_counts : gmap string Z :=
    list_to_map (map (fun term => (term, Py.count text_lower term))
                     self_insurance_terms) in
  let amounts := findall amount_pattern text in
  let percentages := findall percentage_pattern text in
  let dates := findall date_pattern text in
  let policy_refs :=
    if full then Some (findall policy_ref_pattern text) else None in
  let words := Py.split text in
  let sentences := Py.split_sep "." text in
  match average_sentence_length words sentences with
  | inl e => inl e
  | inr avg =>
      inr {| insurance_terms := term_counts;
             amounts := amounts;
             percentages := percentages;
             dates := dates;
             policy_references := policy_refs;
             word_count := Z.of_nat (List.length words);
             sentence_count := Z.of_nat (List.length sentences);
             avg_sentence_length := avg;
             has_table_data := any_char str_isdigit text;
             has_legal_terms :=
               Py.any_in ["shall"; "must"; "required"; "obligation"] text_lower |}
  end.

Definition legal_words : list string :=
  ["shall"; "must"; "required"; "obligation"; "liability"].

(** [sum(1 for x in xs if x in text)]. *)
Definition count_present (xs : list string) (text : string) : Z :=
  Z.of_nat (List.length (List.filter (fun x => Py.contains x text) xs)).

(** [_calculate_semantic_score]. *)
Definition _calculate_semantic_score (text : string) : float :=
  let text_lower := Py.lower text in
  let term_score := count_present self_insurance_terms text_lower in
  let legal_boost := count_present legal_words text_lower in
  let numerical_boost :=
    (float_of_int (Z.of_nat (List.length (findall digits_pattern text))) * 0.1)%float in
  let total_score :=
    ((float_of_int (term_score + legal_boost) + numerical_boost)
     / float_of_int (Z.max (Py.word_count text) 1))%float in
  py_min total_score 1.0%float.

(** The score as the specification words it: the legal boost is the number
    of occurrences of the five legal words in the text. *)
Definition legal_word_occurrences (text : string) : Z :=
  fold_right Z.add 0%Z (map (fun word => Py.count (Py.lower text) word) legal_words).

Definition semantic_score_as_specified (text : string) : float :=
  let term_score := count_present self_insurance_terms (Py.lower text) in
  let legal_boost := legal_word_occurrences text in
  let numerical_boost :=
    (0.1 * float_of_int (Z.of_nat (List.length (findall digits_pattern text))))%float in
  py_min ((float_of_int (term_score + legal_boost) + numerical_boost)
          / float_of_int (Z.max (Py.word_count text) 1))%float
         1.0%float.

End Embedder.

(** ** Retrieval facade *)

(** A small error monad for code that may raise. *)
Definition bind {A B : Type} (x : exn + A) (f : A -> exn + B) : exn + B :=
  match x with inl e => inl e | inr a => f a end.

Notation "'let!' x ':=' c1 'in' c2" := (bind c1 (fun x => c2))
  (at level 10, x name, c1 at level 100, c2 at level 200).

(** [l[i]] on a Python list, for [i >= 0]. *)
Definition index {A : Type} (l : list A) (i : nat) : exn + A :=
  match nth_error l i with
  | Some a => inr a
  | None => inl "IndexError: list index out of range"
  end.

Section Retrieval.

(** The stored metadata mapping, the embedding vector and the collection of
    the external vector store. *)
Variable stored_metadata : Type.
Variable embedding : Type.
Variable collection : Type.

(** [self.embedder.model.encode(question, ...)], converted to a list. *)
Variable encode : string -> exn + embedding.

(** What [collection.query] returns when [documents], [metadatas] and
    [distances] are included: one list per query embedding. *)
Record query_result : Type := {
  documents : list (list string);
  metadatas : list (list stored_metadata);
  distances : list (list float)
}.

(** [self.collection.query(query_embeddings, n_results, where, include)]. *)
Variable collection_query :
  collection -> list embedding -> Z -> option (gmap string string) -> exn + query_result.

Record retrieval_result : Type := {
  result_content : string;
  result_metadata : stored_metadata;
  similarity_score : float;
  rank : Z
}.

(** Body of [for i in range(len(results['documents'][0]))]. *)
Definition format_result (results : query_result) (i : nat) : exn + retrieval_result :=
  let! docs := index (documents results) 0 in
  let! content := index docs i in
  let! metas := index (metadatas results) 0 in
  let! metadata := index metas i in
  let! dists := index (distances results) 0 in
  let! distance := index dists i in
  inr {| result_content := content;
         result_metadata := metadata;
         similarity_score := (float_of_int 1 - distance)%float;
         rank := Z.of_nat i + 1 |}.

Fixpoint format_results (results : query_result) (formatted_results : list retrieval_result)
    (range : list nat) : exn + list retrieval_result :=
  match range with
  | [] => inr formatted_results
  | i :: range' =>
      let! r := format_result results i in
      format_results results (formatted_results ++ [r]) range'
  end.

(** [where_clause]: the filter, unless it is [None] or empty. *)
Definition where_clause_of (filter_metadata : option (gmap string string))
  : option (gmap string string) :=
  match filter_metadata with
  | Some f => if decide (f = ∅) then None else Some f
  | None => None
  end.

(** [query]. *)
Definition query (self_collection : collection) (question : string) (top_k : Z)
    (filter_metadata : option (gmap string string))
  : exn + list retrieval_result :=
  let! query_embedding := encode question in
  let where_clause := where_clause_of filter_metadata in
  let! results := collection_query self_collection [query_embedding] top_k where_clause in
  let! docs := index (documents results) 0 in
  format_results results [] (seq 0 (List.length docs)).

End Retrieval.

Arguments Build_query_result {stored_metadata} _ _ _.
Arguments documents {stored_metadata} _.
Arguments metadatas {stored_metadata} _.
Arguments distances {stored_metadata} _.
Arguments result_content {stored_metadata} _.
Arguments result_metadata {stored_metadata} _.
Arguments similarity_score {stored_metadata} _.
Arguments rank {stored_metadata} _.

(** ** Document pipeline *)

Inductive log_level : Set := INFO | WARNING | ERROR.

(** One call of [logger.info], [logger.warning] or [logger.error]. *)
Definition log_record : Type := log_level * string.

(** [s.strip()]. *)
Fixpoint lstrip (s : string) : string :=
  match s with
  | String c s' => if Py.is_space c then lstrip s' else s
  | EmptyString => EmptyString
  end.

Fixpoint rstrip (s : string) : string :=
  match s with
  | String c s' =>
      match rstrip s' with
      | EmptyString => if Py.is_space c then EmptyString else String c EmptyString
      | r => String c r
      end
  | EmptyString => EmptyString
  end.

Definition strip (s : string) : string := rstrip (lstrip s).

(** [str.islower] and [str.isupper] of one code point below 256. *)
Definition char_islower (c : ascii) : bool :=
  let n := Py.code c in
  ((97 <=? n) && (n <=? 122)) || (n =? 170) || (n =? 181) || (n =? 186)
  || ((223 <=? n) && (n <=? 255) && negb (n =? 247)).

Definition char_isupper (c : ascii) : bool :=
  let n := Py.code c in
  ((65 <=? n) && (n <=? 90)) || ((192 <=? n) && (n <=? 222) && negb (n =? 215)).

(** [text.isupper()]: no lowercase character and at least one uppercase. *)
Definition isupper (text : string) : bool :=
  negb (any_char char_islower text) && any_char char_isupper text.

(** [^\d+\.?\d*\s+[A-Z]] *)
Definition numbered_section_pattern : regex :=
  seq_of [Rep Py.is_digit 1 None; Opt (Chr "."); Rep Py.is_digit 0 None;
          Rep Py.is_space 1 None]
         (Cls Py.is_upper_AZ).

(** [re.match(r, s)] as a truth value. *)
Definition re_match (r : regex) (s : string) : bool :=
  match match_here r s Some with Some _ => true | None => false end.

(** [_is_section_header], the same text in both chunker classes. *)
Definition _is_section_header (self : chunker) (text : string) : bool :=
  if re_match numbered_section_pattern text then true
  else if isupper text && (3 <? String.length text) && (String.length text <? 100)
  then true
  else Py.any_in (section_keywords self) (Py.lower text).

(** A page of an opened PDF: what [extract_text()] and [extract_tables()]
    return or raise. A table is a list of rows of cells, a cell a [str] or
    [None]. *)
Record pdf_page : Type := {
  extract_text : exn + option string;
  extract_tables : exn + list (list (list (option string)))
}.

(** An entry of [pdf_directory.glob("*.pdf")]: [name], [str(pdf_file)] and
    what [stat().st_size] returns or raises. *)
Record pdf_file : Type := {
  name : string;
  file_path_str : string;
  st_size : exn + Z
}.

Definition tab : string := String "009" EmptyString.
Definition newline : string := String "010" EmptyString.

(** Truth value of a [str], and of a cell that is a [str] or [None]. *)
Definition str_truthy (s : string) : bool :=
  match s with EmptyString => false | String _ _ => true end.

Definition cell_truthy (cell : option string) : bool :=
  match cell with Some s => str_truthy s | None => false end.

(** ['\t'.join(row)]: a [None] cell raises [TypeError]. *)
Fixpoint str_cells (row : list (option string)) : exn + list string :=
  match row with
  | [] => inr []
  | Some cell :: row' => let! cells := str_cells row' in inr (cell :: cells)
  | None :: _ => inl "sequence item: expected str instance, NoneType found"
  end.

(** ['\n'.join(['\t'.join(row) for row in table if any(cell for cell in row)])] *)
Fixpoint table_rows (rows : list (list (option string))) : exn + list string :=
  match rows with
  | [] => inr []
  | row :: rows' =>
      if existsb cell_truthy row
      then let! cells := str_cells row in
           let! rest := table_rows rows' in
           inr (Py.join tab cells :: rest)
      else table_rows rows'
  end.

Section Extraction.

Variable self : chunker.

(** [pdfplumber.open(pdf_path)]: the pages, or the exception raised. *)
Variable pdfplumber_open : string -> exn + list pdf_page.

(** The items of one page: the stripped non-empty lines of its text. *)
Definition page_items (page_num : nat) (text : string) : list item :=
  omap (fun '(line_num, line) =>
          let line := strip line in
          if str_truthy line
          then Some {| page := Z.of_nat page_num + 1;
                       line := Z.of_nat line_num + 1;
                       text := line;
                       is_header := _is_section_header self line;
                       section_type := _classify_section line |}
          else None)
       (combine (seq 0 (List.length (Py.split_sep "010" text)))
                (Py.split_sep "010" text)).

Definition text_items (page_num : nat) (text : option string) : list item :=
  match text with
  | Some t => if str_truthy t then page_items page_num t else []
  | None => []
  end.

(** The loop over [page.extract_tables()] of the simple chunker. *)
Fixpoint add_page_tables (page_num table_num : nat)
    (page_tables : list (list (list (option string))))
    (tables : list simple_table) : list simple_table * option exn :=
  match page_tables with
  | [] => (tables, None)
  | table :: rest =>
      if truthy table && (1 <? List.length table)
      then match table_rows table with
           | inl e => (tables, Some e)
           | inr rows =>
               add_page_tables page_num (S table_num) rest
                 (tables ++ [{| simple_table_page := Z.of_nat page_num + 1;
                                simple_table_index := Z.of_nat table_num;
                                simple_table_text := Py.join newline rows |}])
           end
      else add_page_tables page_num (S table_num) rest tables
  end.

(** The loop over [pdf.pages] of [extract_text_from_pdf]; an exception ends
    it and leaves what was collected. *)
Fixpoint simple_pages (page_num : nat) (pages : list pdf_page)
    (text_content : list item) (tables : list simple_table)
  : list item * list simple_table * option exn :=
  match pages with
  | [] => (text_content, tables, None)
  | page :: pages' =>
      match extract_text page with
      | inl e => (text_content, tables, Some e)
      | inr text =>
          let text_content := text_content ++ text_items page_num text in
          match extract_tables page with
          | inl e => (text_content, tables, Some e)
          | inr pts =>
              match add_page_tables page_num 0 pts tables with
              | (tables, Some e) => (text_content, tables, Some e)
              | (tables, None) => simple_pages (S page_num) pages' text_content tables
              end
          end
      end
  end.

Definition extraction_error (pdf_path : string) (e : exn) : log_record :=
  (ERROR, "Error extracting text from " +:+ pdf_path +:+ ": " +:+ e).

(** [SimpleInsuranceChunker.extract_text_from_pdf]: the extracted data and
    what was logged. *)
Definition extract_text_from_pdf (pdf_path : string)
  : extracted_data simple_table * list log_record :=
  match pdfplumber_open pdf_path with
  | inl e =>
      ({| text_content := []; tables := []; total_pages := 0 |},
       [extraction_error pdf_path e])
  | inr pages =>
      let '(text_content, tables, raised) := simple_pages 0 pages [] [] in
      ({| text_content := text_content; tables := tables;
          total_pages := Z.of_nat (List.length pages) |},
       match raised with Some e => [extraction_error pdf_path e] | None => [] end)
  end.

(** [InsurancePolicyChunker.extract_tables_from_pdf]: each of its three
    methods runs inside its own [try], so it never raises. *)
Variable extract_tables_from_pdf : string -> list full_table * list log_record.

(** The loop over [pdf.pages] of [extract_text_with_structure]. *)
Fixpoint full_pages (page_num : nat) (pages : list pdf_page)
    (text_content : list item) : list item * option exn :=
  match pages with
  | [] => (text_content, None)
  | page :: pages' =>
      match extract_text page with
      | inl e => (text_content, Some e)
      | inr text => full_pages (S page_num) pages' (text_content ++ text_items page_num text)
      end
  end.

(** [InsurancePolicyChunker.extract_text_with_structure]. *)
Definition extract_text_with_structure (pdf_path : string)
  : extracted_data full_table * list log_record :=
  let '(tables, warnings) := extract_tables_from_pdf pdf_path in
  match pdfplumber_open pdf_path with
  | inl e =>
      ({| text_content := []; tables := tables; total_pages := 0 |},
       warnings ++ [extraction_error pdf_path e])
  | inr pages =>
      let '(text_content, raised) := full_pages 0 pages [] in
      ({| text_content := text_content; tables := tables;
          total_pages := Z.of_nat (List.length pages) |},
       warnings ++
       match raised with Some e => [extraction_error pdf_path e] | None => [] end)
  end.

End Extraction.

(** A chunk with its embedding, features and score, as [create_embeddings]
    and [create_enhanced_embeddings] build it. *)
Record enhanced_chunk : Type := {
  base_chunk : chunk;
  chunk_embedding : list float;
  chunk_features : features;
  semantic_score : float
}.

(** The metadata mapping [_store_chunks] prepares for one chunk: the four
    entries it names and, merged in after them by [**chunk.get('features', {})],
    the entries of the features. The mapping literal also names ['word_count'],
    from the metadata of the chunk, but the features have an entry of the same
    name and theirs, coming later, replaces it: the mapping holds ['word_count']
    once, with the value of the features. *)
Record stored_metadata : Type := {
  source_file : string;
  chunk_index : Z;
  stored_chunk_type : chunk_type;
  stored_section_type : category;
  stored_features : features
}.

(** [metadata['word_count']] of the stored mapping. *)
Definition stored_word_count (m : stored_metadata) : Z :=
  word_count (stored_features m).

(** The arguments of one [collection.add] call. *)
Record add_request : Type := {
  add_embedding : list float;
  add_document : string;
  add_metadata : stored_metadata;
  add_id : string
}.

(** A value of [self.processed_docs]. *)
Record processed_doc : Type := {
  doc_chunks : list enhanced_chunk;
  doc_file_path : string;
  doc_file_size : Z;
  doc_total_pages : Z;
  doc_total_chunks : Z;
  doc_processed_at : string
}.

(** [chunk['metadata'].get('section_type', 'general')] and
    [chunk['metadata'].get('word_count', 0)]; the second is what the mapping
    literal of [_store_chunks] evaluates for ['word_count'] before the entry
    of the features replaces it. *)
Definition metadata_section_type (m : chunk_metadata) : category :=
  match m with TextMetadata s _ _ _ => s | _ => general end.

Definition metadata_word_count (m : chunk_metadata) : Z :=
  match m with TextMetadata _ w _ _ => w | _ => 0%Z end.

(** The chunker a RAG system builds for itself: the default arguments. *)
Definition default_chunker : chunker :=
  {| chunk_size := 512; chunk_overlap := 50;
     section_keywords := insurance_section_keywords |}.

Section Pipeline.

(** The two systems differ in the extraction method, the chunk builder and
    the embedder's vocabulary. *)
Variable T : Type.
Variable extract : string -> extracted_data T * list log_record.
Variable build_chunks : extracted_data T -> list chunk.
Variable self_insurance_terms : list string.
Variable full : bool.

(** [self.model.encode(content, convert_to_tensor=True)], as an array. *)
Variable encode : string -> exn + list float.

(** [self.collection.add(...)]: the collection afterwards, and the exception
    raised if any. *)
Variable collection : Type.
Variable collection_add : collection -> add_request -> collection * option exn.

(** [datetime.now().isoformat()] when the named document is registered. *)
Variable processed_at_now : string -> string.

(** The mutable parts of the RAG system object, and the log. *)
Record rag_system : Type := {
  self_collection : collection;
  processed_docs : gmap string processed_doc;
  log : list log_record
}.

(** [create_embeddings] / [create_enhanced_embeddings]. *)
Fixpoint create_embeddings (chunks : list chunk) (enhanced_chunks : list enhanced_chunk)
  : exn + list enhanced_chunk :=
  match chunks with
  | [] => inr enhanced_chunks
  | chunk :: chunks' =>
      let content := content chunk in
      let! features := _extract_features self_insurance_terms full content in
      let! embedding := encode content in
      create_embeddings chunks'
        (enhanced_chunks ++
         [{| base_chunk := chunk;
             chunk_embedding := embedding;
             chunk_features := features;
             semantic_score := _calculate_semantic_score self_insurance_terms content |}])
  end.

(** [_store_chunks], from index [i] on. The ['word_count'] the mapping literal
    takes from the metadata of the chunk is replaced by the entry of the
    features (see [stored_metadata]). *)
Fixpoint _store_chunks (coll : collection) (i : nat) (chunks : list enhanced_chunk)
    (source_file : string) : collection * option exn :=
  match chunks with
  | [] => (coll, None)
  | chunk :: chunks' =>
      let metadata :=
        {| source_file := source_file;
           chunk_index := Z.of_nat i;
           stored_chunk_type := type (base_chunk chunk);
           stored_section_type := metadata_section_type (metadata (base_chunk chunk));
           stored_features := chunk_features chunk |} in
      match collection_add coll
              {| add_embedding := chunk_embedding chunk;
                 add_document := content (base_chunk chunk);
                 add_metadata := metadata;
                 add_id := source_file +:+ "_" +:+ pretty i |} with
      | (coll', Some e) => (coll', Some e)
      | (coll', None) => _store_chunks coll' (S i) chunks' source_file
      end
  end.

Definition processing_error (pdf_file : pdf_file) (e : exn) : log_record :=
  (ERROR, "Error processing " +:+ name pdf_file +:+ ": " +:+ e).

(** Body of [for pdf_file in pdf_files] of [process_pdfs]: the [try] block
    and its [except Exception] handler. *)
Definition process_pdf (st : rag_system) (pdf_file : pdf_file) : rag_system :=
  let log0 := log st ++ [(INFO, "Processing " +:+ name pdf_file)] in
  let '(extracted_data, extraction_log) := extract (file_path_str pdf_file) in
  let log1 := log0 ++ extraction_log in
  let chunks := build_chunks extracted_data in
  match create_embeddings chunks [] with
  | inl e =>
      {| self_collection := self_collection st;
         processed_docs := processed_docs st;
         log := log1 ++ [processing_error pdf_file e] |}
  | inr enhanced_chunks =>
      match _store_chunks (self_collection st) 0 enhanced_chunks (name pdf_file) with
      | (coll, Some e) =>
          {| self_collection := coll;
             processed_docs := processed_docs st;
             log := log1 ++ [processing_error pdf_file e] |}
      | (coll, None) =>
          match st_size pdf_file with
          | inl e =>
              {| self_collection := coll;
                 processed_docs := processed_docs st;
                 log := log1 ++ [processing_error pdf_file e] |}
          | inr file_size =>
              {| self_collection := coll;
                 processed_docs :=
                   <[ name pdf_file :=
                        {| doc_chunks := enhanced_chunks;
                           doc_file_path := file_path_str pdf_file;
                           doc_file_size := file_size;
                           doc_total_pages := total_pages extracted_data;
                           doc_total_chunks := Z.of_nat (List.length enhanced_chunks);
                           doc_processed_at := processed_at_now (name pdf_file) |} ]>
                   (processed_docs st);
                 log := log1 ++
                   [(INFO, "Successfully processed " +:+ name pdf_file +:+ " - "
                           +:+ pretty (List.length enhanced_chunks) +:+ " chunks")] |}
          end
      end
  end.

(** [process_pdfs] over the listed files. *)
Definition process_pdfs (st : rag_system) (pdf_files : list pdf_file) : rag_system :=
  fold_left process_pdf pdf_files st.

End Pipeline.

Arguments self_collection {collection} _.
Arguments processed_docs {collection} _.
Arguments log {collection} _.

Section Systems.

Variable _split_into_sentences : string -> list string.
Variable now_isoformat : nat -> string.
Variable pdfplumber_open : string -> exn + list pdf_page.
Variable extract_tables_from_pdf : string -> list full_table * list log_record.
Variable encode : string -> exn + list float.
Variable collection : Type.
Variable collection_add : collection -> add_request -> collection * option exn.
Variable processed_at_now : string -> string.

(** [SimpleInsuranceRAGSystem.process_pdfs]. *)
Definition simple_process_pdfs :
    rag_system collection -> list pdf_file -> rag_system collection :=
  process_pdfs simple_table
    (extract_text_from_pdf default_chunker pdfplumber_open)
    (create_chunks _split_into_sentences now_isoformat default_chunker)
    simple_insurance_terms false encode collection collection_add processed_at_now.

(** [InsuranceRAGSystem.process_pdfs]. *)
Definition full_process_pdfs :
    rag_system collection -> list pdf_file -> rag_system collection :=
  process_pdfs full_table
    (extract_text_with_structure default_chunker pdfplumber_open extract_tables_from_pdf)
    (create_semantic_chunks _split_into_sentences now_isoformat default_chunker)
    full_insurance_terms true encode collection collection_add processed_at_now.

End Systems.

(** ** The words of the specification *)

(** *** The case-insensitive rules of the classifier *)

(** Comparison of characters without regard to case, written on the code
    points and without [str.lower]: two characters are the same letter when
    they are equal or one is the capital of the other. Below code point 256
    the capitals are A to Z and the accented capitals 192 to 222 without the
    multiplication sign 215; the small letter lies 32 code points after its
    capital. *)
Definition is_capital (c : ascii) : bool :=
  let n := Py.code c in
  ((65 <=? n) && (n <=? 90)) || ((192 <=? n) && (n <=? 222) && negb (n =? 215)).

Definition capital_of (small capital : ascii) : bool :=
  is_capital capital && (Py.code capital + 32 =? Py.code small).

Definition same_letter (a b : ascii) : bool :=
  Ascii.eqb a b || capital_of a b || capital_of b a.

(** Two lines that differ in case only. *)
Fixpoint same_letters (s t : string) : bool :=
  match s, t with
  | EmptyString, EmptyString => true
  | String a s', String b t' => same_letter a b && same_letters s' t'
  | _, _ => false
  end.

(** [word] stands at the start of [line], and somewhere in [line], without
    regard to case. *)
Fixpoint starts_ignoring_case (word line : string) : bool :=
  match word, line with
  | EmptyString, _ => true
  | String k word', String c line' => same_letter k c && starts_ignoring_case word' line'
  | String _ _, EmptyString => false
  end.

Fixpoint occurs_ignoring_case (word line : string) : bool :=
  starts_ignoring_case word line
  || match line with
     | EmptyString => false
     | String _ line' => occurs_ignoring_case word line'
     end.

(** The cascade as the specification words it, on the line as it is written:
    a rule applies when one of its substrings occurs in the line without
    regard to case, and the first rule that applies gives the category. *)
Definition rule_applies (rule : category * list string) (line : string) : bool :=
  existsb (fun word => occurs_ignoring_case word line) (snd rule).

Definition classify_as_specified (line : string) : category :=
  match find (fun rule => rule_applies rule line) priority_cascade with
  | Some rule => fst rule
  | None => general
  end.

(** The 256 characters. *)
Definition all_chars : list ascii := map ascii_of_nat (seq 0 256).

(** *** The size bound of the chunk builder *)

Section SizeBound.

Variable _split_into_sentences : string -> list string.
Variable self : chunker.

(** A sentence is a piece the sentence tokenizer returns for some buffer. *)
Definition is_sentence (s : string) : Prop :=
  exists buffer, In s (_split_into_sentences buffer).

(** The size bound of a chunk: a text chunk records the word count of its
    content, and that count is within [chunk_size] unless the content is one
    sentence that alone exceeds it. *)
Definition size_bounded (c : chunk) : Prop :=
  type c = text_type ->
  (exists section timestamp,
      metadata c = TextMetadata section (Py.word_count (content c))
                     (Z.of_nat (String.length (content c))) timestamp)
  /\ ((Py.word_count (content c) <= chunk_size self)%Z
      \/ (is_sentence (content c)
          /\ (chunk_size self < Py.word_count (content c))%Z)).

(** The same bound on the buffer a loop carries. *)
Definition buffer_bounded (buffer : list string) : Prop :=
  (Py.word_count (Py.join " " buffer) <= chunk_size self)%Z
  \/ (exists s, buffer = [s] /\ is_sentence s
                /\ (chunk_size self < Py.word_count s)%Z).

(** The loop invariant of [for item in text_content]. *)
Definition state_bounded (st : list chunk * list string * category) : Prop :=
  Forall size_bounded (fst (fst st)) /\ buffer_bounded (snd (fst st)).

End SizeBound.

(** *** Retrieval results *)

(** What the store returned at position [i] for the one query embedding. *)
Definition returned_document {M : Type} (results : query_result M) (i : nat)
  : option string :=
  match documents results with docs :: _ => docs !! i | [] => None end.

Definition returned_metadata {M : Type} (results : query_result M) (i : nat)
  : option M :=
  match metadatas results with metas :: _ => metas !! i | [] => None end.

Definition returned_distance {M : Type} (results : query_result M) (i : nat)
  : option float :=
  match distances results with dists :: _ => dists !! i | [] => None end.

(** *** The batch loop *)

(** A document is skipped when processing it leaves its entry of the
    registry as it was. *)
Definition skipped {collection : Type} (before after : rag_system collection)
    (pdf_file : pdf_file) : Prop :=
  processed_docs after !! name pdf_file = processed_docs before !! name pdf_file.

(** The log line that announces a document. *)
Definition announcement (pdf_file : pdf_file) : log_record :=
  (INFO, "Processing " +:+ name pdf_file).

(** What the batch loop guarantees whatever happens to one document: the
    loop goes on with the documents after it, every listed document is
    announced in the log, and processing a document leaves the registry
    entries of all other documents as they were. *)
Definition batch_continues {collection : Type}
    (run : rag_system collection -> list pdf_file -> rag_system collection) : Prop :=
  (forall st before f after,
      run st (before ++ f :: after) = run (run (run st before) [f]) after)
  /\ (forall st files f, In f files -> In (announcement f) (log (run st files)))
  /\ (forall st f other,
        other <> name f ->
        processed_docs (run st [f]) !! other = processed_docs st !! other).

(** What happens to a document one of whose chunks the embedding model
    rejects: nothing of it is stored or registered, and the error is logged. *)
Definition embedding_failure_skips {collection : Type}
    (st st' : rag_system collection) (f : pdf_file) : Prop :=
  skipped st st' f
  /\ processed_docs st' = processed_docs st
  /\ self_collection st' = self_collection st
  /\ exists e, In (processing_error f e) (log st').

(** A failure raised while extracting: opening the PDF raises, or a page of
    the opened PDF does. *)
Definition simple_extraction_raises (pdfplumber_open : string -> exn + list pdf_page)
    (pdf_path : string) (e : exn) : Prop :=
  pdfplumber_open pdf_path = inl e
  \/ exists pages, pdfplumber_open pdf_path = inr pages
                   /\ snd (simple_pages default_chunker 0 pages [] []) = Some e.

Definition full_extraction_raises (pdfplumber_open : string -> exn + list pdf_page)
    (pdf_path : string) (e : exn) : Prop :=
  pdfplumber_open pdf_path = inl e
  \/ exists pages, pdfplumber_open pdf_path = inr pages
                   /\ snd (full_pages default_chunker 0 pages []) = Some e.

(** The registry entry of a document processed to the end. *)
Definition registered_doc (f : pdf_file) (enhanced_chunks : list enhanced_chunk)
    (pages size : Z) (processed_at : string) : processed_doc :=
  {| doc_chunks := enhanced_chunks; doc_file_path := file_path_str f;
     doc_file_size := size; doc_total_pages := pages;
     doc_total_chunks := Z.of_nat (List.length enhanced_chunks);
     doc_processed_at := processed_at |}.

(** The registry entry of a document from which nothing was extracted. *)
Definition empty_doc (f : pdf_file) (size : Z) (processed_at : string) : processed_doc :=
  {| doc_chunks := []; doc_file_path := file_path_str f; doc_file_size := size;
     doc_total_pages := 0; doc_total_chunks := 0; doc_processed_at := processed_at |}.

(** *** The semantic score *)

(** [s] without its leading decimal digits. *)
Fixpoint drop_digits (s : string) : string :=
  match s with
  | String c s' => if Py.is_digit c then drop_digits s' else s
  | EmptyString => EmptyString
  end.

(** The number of maximal runs of decimal digits in [s]; [in_run] tells
    whether the character before [s] was a digit. *)
Fixpoint digit_runs_from (in_run : bool) (s : string) : nat :=
  match s with
  | EmptyString => 0
  | String c s' =>
      if Py.is_digit c
      then (if in_run then 0 else 1) + digit_runs_from true s'
      else digit_runs_from false s'
  end.

Definition digit_runs (s : string) : nat := digit_runs_from false s.

(** Classes of binary64 values, on their specification: zero or positive
    (an infinity included) and not a NaN; finite, positive and not zero; of
    the given sign and not a NaN; not a NaN. *)
Section FloatClasses.
Local Open Scope Z_scope.

Definition nonneg_sf (x : spec_float) : Prop :=
  match x with
  | S754_nan => False
  | S754_zero _ => True
  | S754_infinity s | S754_finite s _ _ => s = false
  end.

Definition positive_finite_sf (x : spec_float) : Prop :=
  match x with S754_finite false _ _ => True | _ => False end.

Definition signed_non_nan (s : bool) (x : spec_float) : Prop :=
  match x with
  | S754_nan => False
  | S754_zero s' | S754_infinity s' | S754_finite s' _ _ => s' = s
  end.

Definition non_nan_sf (x : spec_float) : Prop :=
  match x with S754_nan => False | _ => True end.

End FloatClasses.

(** ** Fixtures *)

(** A stand-in for the sentence tokenizer: the stripped, non-empty pieces
    between full stops. *)
Definition period_sentences (text : string) : list string :=
  List.filter str_truthy (map strip (Py.split_sep "." text)).

(** A stand-in for the clock. *)
Definition fixed_clock (k : nat) : string := "2024-01-15T00:00:00".

Definition chunker_of_size (n : Z) : chunker :=
  {| chunk_size := n; chunk_overlap := 50;
     section_keywords := insurance_section_keywords |}.

(** A line that is not a header. *)
Definition plain_line (t : string) : item :=
  {| page := 1; line := 1; text := t; is_header := false; section_type := general |}.

Definition simple_document (lines : list string) : extracted_data simple_table :=
  {| text_content := map plain_line lines; tables := []; total_pages := 1 |}.

Definition full_document (lines : list string) : extracted_data full_table :=
  {| text_content := map plain_line lines; tables := []; total_pages := 1 |}.

Definition premium_fixture : string :=
  "The premium is $1,200.50 due by 01/15/2024 (10% surcharge).".

(** What a store holding two chunks answers, and an embedding model and a
    store that always answer. *)
Definition sample_answer : query_result string :=
  {| documents := [["Deductible is $500 per claim."; "Premium is due monthly."]];
     metadatas := [["policy.pdf_0"; "policy.pdf_1"]];
     distances := [[0.2%float; 0.5%float]] |}.

Definition sample_encode (question : string) : exn + list float :=
  inr [0.5%float].

Definition sample_collection_query (coll : unit) (embeddings : list (list float))
    (n_results : Z) (where_clause : option (gmap string string))
  : exn + query_result string :=
  inr sample_answer.

(** A directory with one PDF that cannot be opened, a store that accepts
    every chunk, and a system that has processed nothing yet. *)
Definition broken_pdf : pdf_file :=
  {| name := "broken.pdf"; file_path_str := "Training_pdfs/broken.pdf";
     st_size := inr 2048%Z |}.

Definition unreadable (pdf_path : string) : exn + list pdf_page :=
  inl "No /Root object! - Is this really a PDF?".

Definition accepting_store (coll : unit) (request : add_request) : unit * option exn :=
  (coll, None).

Definition fresh_system : rag_system unit :=
  {| self_collection := tt; processed_docs := ∅; log := [] |}.

Definition fixed_time (document : string) : string := "2024-01-15T00:00:00".

(** A directory with one readable one-page PDF, and an embedding model that
    raises on every text. *)
Definition policy_pdf : pdf_file :=
  {| name := "policy.pdf"; file_path_str := "Training_pdfs/policy.pdf";
     st_size := inr 4096%Z |}.

Definition one_page (pdf_path : string) : exn + list pdf_page :=
  inr [{| extract_text := inr (Some "Coverage applies to the insured.");
          extract_tables := inr [] |}].

Definition failing_encode (content : string) : exn + list float :=
  inl "CUDA out of memory".

(** A directory with one PDF whose second page cannot be read. *)
Definition partial_pdf : pdf_file :=
  {| name := "partial.pdf"; file_path_str := "Training_pdfs/partial.pdf";
     st_size := inr 8192%Z |}.

Definition second_page_fails (pdf_path : string) : exn + list pdf_page :=
  inr [{| extract_text := inr (Some "Coverage applies to the insured.");
          extract_tables := inr [] |};
       {| extract_text := inl "Unexpected EOF";
          extract_tables := inr [] |}].

Definition no_tables (pdf_path : string) : list full_table * list log_record :=
  ([], []).
(** ** Further words about the chunk builder *)

Definition is_text (c : chunk) : bool :=
  match type c with text_type => true | table_type => false end.

Definition is_table (c : chunk) : bool := negb (is_text c).

(** The words of the text chunks, and of the lines, left to right. *)
Definition words_of_chunks (chunks : list chunk) : list string :=
  concat (map (fun c => Py.split (content c)) (List.filter is_text chunks)).

Definition words_of_items (items : list item) : list string :=
  concat (map (fun it => Py.split (text it)) items).

(** The section a text chunk is tagged with. *)
Definition chunk_section (c : chunk) : option category :=
  match metadata c with
  | TextMetadata section _ _ _ => Some section
  | _ => None
  end.

(** A section the builder may tag a chunk with: [general], or the section of
    a header line of the stream. *)
Definition section_of_stream (items : list item) (section : category) : Prop :=
  section = general
  \/ exists it, In it items /\ is_header it = true /\ section_type it = section.

(** A tokenizer that keeps the words of every buffer, in order. *)
Definition keeps_words (tokenize : string -> list string) : Prop :=
  forall buffer, concat (map Py.split (tokenize buffer)) = Py.split buffer.

(** A stand-in tokenizer: the whole buffer is one sentence. *)
Definition whole_buffer (buffer : string) : list string := [buffer].

(** A header line. *)
Definition header_line (section : category) (t : string) : item :=
  {| page := 1; line := 1; text := t; is_header := true; section_type := section |}.

(** ** Further words about the extraction *)

(** What an extracted line records: where it stands, its stripped and
    non-empty text, and what the header test and the classifier say of that
    text. *)
Definition well_formed_item (self : chunker) (pages : Z) (it : item) : Prop :=
  (1 <= page it <= pages)%Z
  /\ (1 <= line it)%Z
  /\ text it <> EmptyString
  /\ strip (text it) = text it
  /\ is_header it = _is_section_header self (text it)
  /\ section_type it = _classify_section (text it).

(** The lines of one page whose text can be read, and of consecutive pages
    from page number [page_num] on. *)
Definition page_lines (self : chunker) (page_num : nat) (p : pdf_page) : list item :=
  match extract_text p with
  | inr text => text_items self page_num text
  | inl _ => []
  end.

Fixpoint pages_lines (self : chunker) (page_num : nat) (pages : list pdf_page)
    : list item :=
  match pages with
  | [] => []
  | p :: pages' => page_lines self page_num p ++ pages_lines self (S page_num) pages'
  end.

Definition readable (p : pdf_page) : Prop := exists text, extract_text p = inr text.

(** A table row with a cell that holds text and a cell that is [None]. *)
Definition is_none (cell : option string) : bool :=
  match cell with None => true | Some _ => false end.

Definition ragged_row (row : list (option string)) : bool :=
  existsb cell_truthy row && existsb is_none row.

(** A PDF of three pages, the second with a table that has such a row. *)
Definition ragged_table : list (list (option string)) :=
  [[Some "Benefit"; Some "Limit"]; [Some "Dental"; None]].

Definition ragged_pdf_pages : list pdf_page :=
  [{| extract_text := inr (Some "Schedule of benefits"); extract_tables := inr [] |};
   {| extract_text := inr (Some "Limits"); extract_tables := inr [ragged_table] |};
   {| extract_text := inr (Some "Exclusions apply."); extract_tables := inr [] |}].

Definition ragged_pdf (pdf_path : string) : exn + list pdf_page := inr ragged_pdf_pages.

(** A string that does not start with white space. *)
Definition starts_clean (s : string) : Prop :=
  match s with
  | String c _ => Py.is_space c = false
  | EmptyString => True
  end.

(** ** Further words about the features *)

(** Whether the features count a term at least once. *)
Definition counted (f : features) (term : string) : bool :=
  match insurance_terms f !! term with
  | Some n => (0 <? n)%Z
  | None => false
  end.

(** No decimal digit in the text. *)
Definition digit_free (s : string) : Prop := any_char Py.is_digit s = false.

(** ** Further words about the pipeline *)

Section Sending.

Variable collection : Type.
Variable collection_add : collection -> add_request -> collection * option exn.

(** Requests sent to the store one after another, until one raises. *)
Fixpoint send_all (coll : collection) (requests : list add_request)
    : collection * option exn :=
  match requests with
  | [] => (coll, None)
  | request :: rest =>
      match collection_add coll request with
      | (coll', Some e) => (coll', Some e)
      | (coll', None) => send_all coll' rest
      end
  end.

End Sending.

(** The request [_store_chunks] prepares for the chunk at index [i]. *)
Definition request_of (file_name : string) (i : nat) (chunk : enhanced_chunk)
    : add_request :=
  {| add_embedding := chunk_embedding chunk;
     add_document := content (base_chunk chunk);
     add_metadata :=
       {| source_file := file_name;
          chunk_index := Z.of_nat i;
          stored_chunk_type := type (base_chunk chunk);
          stored_section_type := metadata_section_type (metadata (base_chunk chunk));
          stored_features := chunk_features chunk |};
     add_id := file_name +:+ "_" +:+ pretty i |}.

(** A store that accepts every request and keeps them in order, and what
    [_store_chunks] sends to it for the chunks of one file. *)
Definition recording_add (coll : list add_request) (request : add_request)
    : list add_request * option exn :=
  (coll ++ [request], None).

Definition requests_sent (chunks : list enhanced_chunk) (file_name : string)
    : list add_request :=
  fst (_store_chunks (list add_request) recording_add [] 0 chunks file_name).

(** What [create_embeddings] attaches to a chunk. *)
Definition describes (terms : list string) (full : bool)
    (encode : string -> exn + list float) (ec : enhanced_chunk) : Prop :=
  encode (content (base_chunk ec)) = inr (chunk_embedding ec)
  /\ _extract_features terms full (content (base_chunk ec)) = inr (chunk_features ec)
  /\ semantic_score ec = _calculate_semantic_score terms (content (base_chunk ec)).

(** A store with room for [n] more chunks, a page with a line and a table,
    and a PDF with that page. *)
Definition limited_add (coll : nat) (request : add_request) : nat * option exn :=
  match coll with
  | O => (O, Some "Quota exceeded")
  | S n => (n, None)
  end.

Definition page_with_table : pdf_page :=
  {| extract_text := inr (Some "Schedule of benefits");
     extract_tables := inr [[[Some "Benefit"; Some "Limit"];
                             [Some "Dental"; Some "$500"]]] |}.

Definition benefits_pdf : pdf_file :=
  {| name := "benefits.pdf"; file_path_str := "Training_pdfs/benefits.pdf";
     st_size := inr 1024%Z |}.

Definition one_page_with_table (pdf_path : string) : exn + list pdf_page :=
  inr [page_with_table].

(** Two text chunks, and the same chunks as the simple embedder enhances
    them. *)
Definition sample_chunks : list chunk :=
  [_create_chunk_metadata ["Premium is due monthly."] premium "2024-01-15T00:00:00";
   _create_chunk_metadata ["Claims are paid within thirty days."] claim
     "2024-01-15T00:00:00"].

Definition sample_enhanced : list enhanced_chunk :=
  match create_embeddings simple_insurance_terms false sample_encode sample_chunks [] with
  | inr enhanced => enhanced
  | inl _ => []
  end.

(** A model that cannot encode texts of more than four words. *)
Definition short_encode (content : string) : exn + list float :=
  if (Py.word_count content >? 4)%Z then inl "Input too long" else inr [0.5%float].

Definition old_registry : gmap string processed_doc :=
  {[ "old.pdf" := {| doc_chunks := []; doc_file_path := "Training_pdfs/old.pdf";
                     doc_file_size := 512; doc_total_pages := 0; doc_total_chunks := 0;
                     doc_processed_at := "2023-12-31T00:00:00" |} ]}.

(** A table chunk as the simple builder makes it. *)
Definition table_chunks : list chunk :=
  [{| content := "Benefit" +:+ tab +:+ "Limit" +:+ newline
                 +:+ "Dental" +:+ tab +:+ "$500";
      type := table_type;
      metadata := SimpleTableMetadata 1 0 |}].

Definition old_system : rag_system unit :=
  {| self_collection := tt; processed_docs := old_registry; log := [] |}.

Definition one_slot_system : rag_system nat :=
  {| self_collection := 1; processed_docs := ∅; log := [] |}.

(** ** Further words about retrieval *)

Definition index_error : exn := "IndexError: list index out of range".

(** What a store answers that returns two documents and one distance. *)
Definition short_answer : query_result string :=
  {| documents := [["Deductible is $500 per claim."; "Premium is due monthly."]];
     metadatas := [["policy.pdf_0"; "policy.pdf_1"]];
     distances := [[0.2%float]] |}.

Definition short_collection_query (coll : unit) (embeddings : list (list float))
    (n_results : Z) (where_clause : option (gmap string string))
  : exn + query_result string :=
  inr short_answer.

(** ** Query evaluation ([QueryEvaluator] of query_interface.py) *)

(** [a / b] on two [float]s. *)
Definition float_truediv (a b : float) : exn + float :=
  if (b =? 0)%float then inl "ZeroDivisionError: float division by zero"
  else inr (a / b)%float.

(** A Python number that is an [int] or a [float]. *)
Inductive number : Type :=
  | Int (z : Z)
  | Float (x : float).

(** [total += x] for a [float] [x]. *)
Definition add_float (total : number) (x : float) : number :=
  match total with
  | Int z => Float (float_of_int z + x)
  | Float y => Float (y + x)
  end.

(** [total / n] for an [int] [n]. *)
Definition number_truediv (total : number) (n : Z) : exn + float :=
  match total with
  | Int z => int_truediv z n
  | Float x =>
      if (n =? 0)%Z then inl "ZeroDivisionError: float division by zero"
      else inr (x / float_of_int n)%float
  end.

(** A test case: a mapping that may hold ['query'], ['expected_sections'] and
    ['expected_keywords']. *)
Record test_case : Type := {
  case_query : option string;
  expected_sections : option (list string);
  expected_keywords : option (list string)
}.

(** An entry of [self.evaluation_results]. *)
Record evaluation : Type := {
  evaluated_query : string;
  precision : float;
  recall : float;
  f1_score : float;
  results_count : Z;
  top_score : number
}.

(** What [evaluate_queries] returns. *)
Record evaluation_report : Type := {
  total_queries : Z;
  average_precision : float;
  average_recall : float;
  average_f1 : float;
  detailed_results : list evaluation
}.

(** The local totals of [evaluate_queries], [self.evaluation_results] and the
    lines printed. *)
Record evaluator_state : Type := {
  total_precision : number;
  total_recall : number;
  total_f1 : number;
  evaluation_results : list evaluation;
  printed : list string
}.

Section Evaluator.

Variable embedding : Type.
Variable collection : Type.
Variable encode : string -> exn + embedding.
Variable collection_query :
  collection -> list embedding -> Z -> option (gmap string string)
  -> exn + query_result stored_metadata.

(** [self.rag_system.collection]. *)
Variable rag_collection : collection.

(** Body of [for result in results] of [_calculate_metrics]: whether the
    result is relevant. *)
Definition is_relevant (expected_sections expected_keywords : list string)
    (result : retrieval_result stored_metadata) : bool :=
  let is_relevant := false in
  let is_relevant :=
    if truthy expected_sections
    then if existsb (String.eqb (section_name
                                   (stored_section_type (result_metadata result))))
                    expected_sections
         then true else is_relevant
    else is_relevant in
  if truthy expected_keywords
  then let content_lower := Py.lower (result_content result) in
       if existsb (fun keyword => Py.contains (Py.lower keyword) content_lower)
                  expected_keywords
       then true else is_relevant
  else is_relevant.

(** [_calculate_metrics]. *)
Definition _calculate_metrics (results : list (retrieval_result stored_metadata))
    (expected_sections expected_keywords : list string)
  : exn + (float * float * float) :=
  if negb (truthy results) then inr (0%float, 0%float, 0%float)
  else
    let relevant_count :=
      fold_left (fun relevant_count result =>
                   if is_relevant expected_sections expected_keywords result
                   then (relevant_count + 1)%Z else relevant_count)
                results 0%Z in
    let! precision := int_truediv relevant_count (Z.of_nat (List.length results)) in
    let! recall :=
      int_truediv relevant_count
        (Z.max (Z.of_nat (List.length expected_sections)
                + Z.of_nat (List.length expected_keywords)) 1) in
    let! f1 :=
      if (0 <? precision + recall)%float
      then float_truediv (2 * (precision * recall)) (precision + recall)
      else inr 0%float in
    inr (precision, recall, f1).

(** [results[0]['similarity_score'] if results else 0]. *)
Definition top_score_of (results : list (retrieval_result stored_metadata)) : number :=
  match results with
  | result :: _ => Float (similarity_score result)
  | [] => Int 0
  end.

(** The loop of [evaluate_queries] from test case number [i] on; an
    exception ends it and leaves what was recorded. *)
Fixpoint evaluate_loop (total_queries : nat) (i : nat) (test_queries : list test_case)
    (st : evaluator_state) : evaluator_state * option exn :=
  match test_queries with
  | [] => (st, None)
  | test_case :: rest =>
      match case_query test_case with
      | None => (st, Some "KeyError: 'query'")
      | Some question =>
          let sections := default [] (expected_sections test_case) in
          let keywords := default [] (expected_keywords test_case) in
          let st :=
            {| total_precision := total_precision st;
               total_recall := total_recall st;
               total_f1 := total_f1 st;
               evaluation_results := evaluation_results st;
               printed := printed st ++
                 ["Evaluating query " +:+ pretty i +:+ "/" +:+ pretty total_queries
                  +:+ ": " +:+ question] |} in
          match query stored_metadata embedding collection encode collection_query
                      rag_collection question 5 None with
          | inl e => (st, Some e)
          | inr results =>
              match _calculate_metrics results sections keywords with
              | inl e => (st, Some e)
              | inr (p, r, f1) =>
                  evaluate_loop total_queries (S i) rest
                    {| total_precision := add_float (total_precision st) p;
                       total_recall := add_float (total_recall st) r;
                       total_f1 := add_float (total_f1 st) f1;
                       evaluation_results := evaluation_results st ++
                         [{| evaluated_query := question;
                             precision := p;
                             recall := r;
                             f1_score := f1;
                             results_count := Z.of_nat (List.length results);
                             top_score := top_score_of results |}];
                       printed := printed st |}
              end
          end
      end
  end.

(** [evaluate_queries]: what it returns or raises, [self.evaluation_results]
    afterwards and the lines printed. *)
Definition evaluate_queries (self_evaluation_results : list evaluation)
    (test_queries : list test_case)
  : (exn + evaluation_report) * list evaluation * list string :=
  let total_queries := List.length test_queries in
  let '(st, raised) :=
    evaluate_loop total_queries 1 test_queries
      {| total_precision := Int 0; total_recall := Int 0; total_f1 := Int 0;
         evaluation_results := self_evaluation_results;
         printed := ["Evaluating queries..."] |} in
  let outcome :=
    match raised with
    | Some e => inl e
    | None =>
        let! avg_precision := number_truediv (total_precision st) (Z.of_nat total_queries) in
        let! avg_recall := number_truediv (total_recall st) (Z.of_nat total_queries) in
        let! avg_f1 := number_truediv (total_f1 st) (Z.of_nat total_queries) in
        inr {| total_queries := Z.of_nat total_queries;
               average_precision := avg_precision;
               average_recall := avg_recall;
               average_f1 := avg_f1;
               detailed_results := evaluation_results st |}
    end in
  (outcome, evaluation_results st, printed st).

End Evaluator.

(** What a store answers that holds the two sample chunks of policy.pdf, and
    a test case that expects the premium section. *)
Definition stored_answer : query_result stored_metadata :=
  {| documents := [map add_document (requests_sent sample_enhanced "policy.pdf")];
     metadatas := [map add_metadata (requests_sent sample_enhanced "policy.pdf")];
     distances := [[0.2%float; 0.5%float]] |}.

Definition stored_collection_query (coll : unit) (embeddings : list (list float))
    (n_results : Z) (where_clause : option (gmap string string))
  : exn + query_result stored_metadata :=
  inr stored_answer.

Definition premium_case : test_case :=
  {| case_query := Some "When is the premium due?";
     expected_sections := Some ["premium"];
     expected_keywords := None |}.

Definition earlier_evaluation : evaluation :=
  {| evaluated_query := "What is covered?"; precision := 1; recall := 1; f1_score := 1;
     results_count := 2; top_score := Float 0.9 |}.

(** What the query returns from that store. *)
Definition stored_results : list (retrieval_result stored_metadata) :=
  match query stored_metadata (list float) unit sample_encode stored_collection_query
              tt "When is the premium due?" 5 None with
  | inr results => results
  | inl _ => []
  end.

(** ** Submission endpoint ([run_submission] of api_backend.py) *)

(** What a handler returns, or the [HTTPException] it raises. *)
Inductive response (A : Type) : Type :=
  | Returned (a : A)
  | HTTPException (status_code : Z) (detail : string).
Arguments Returned {A} _.
Arguments HTTPException {A} _ _.

(** A result of the RAG system's [query], as the handler reads it: the
    content and the metadata mapping. *)
Record api_result : Type := {
  api_content : string;
  api_metadata : gmap string string
}.

(** [d[key]] on a mapping. *)
Definition dict_get (d : gmap string string) (key : string) : exn + string :=
  match d !! key with
  | Some value => inr value
  | None => inl ("KeyError: '" +:+ key +:+ "'")
  end.

(** Truth value of [GROQ_API_KEY], a [str] or [None]. *)
Definition key_truthy (api_key : option string) : bool :=
  match api_key with Some key => str_truthy key | None => false end.

(** The reply to the HTTP request: its status code and body, and what
    [response.json()["choices"][0]["message"]["content"]] gives or raises. *)
Record http_reply : Type := {
  reply_status_code : Z;
  reply_text : string;
  reply_message_content : exn + string
}.

Definition no_information : string :=
  "No relevant information found in the policy documents.".

Section Api.

(** The RAG system object and its [query]. *)
Variable system : Type.
Variable system_query : system -> string -> Z -> exn + list api_result.

(** [client.post] of the chat-completions request for a prompt; the other
    entries of the payload are constants. *)
Variable post : string -> exn + http_reply.

(** The prompt of [generate_answer]. *)
Definition prompt (question context : string) : string :=
  "You are an expert insurance policy analyst. Based on the following context from insurance policy documents, answer the question accurately and concisely."
  +:+ newline +:+ newline +:+ "Context:" +:+ newline +:+ context
  +:+ newline +:+ newline +:+ "Question: " +:+ question
  +:+ newline +:+ newline +:+ "Answer:".

(** [GroqClient.generate_answer]: the answer and what was logged. Its
    request runs inside [try ... except Exception], so it always returns. *)
Definition generate_answer (api_key : option string) (question context : string)
  : string * list log_record :=
  if negb (key_truthy api_key)
  then ("Error: Groq API key not configured. Please set GROQ_API_KEY in .env file.", [])
  else
    match post (prompt question context) with
    | inl e =>
        ("Error generating answer: " +:+ e, [(ERROR, "Error calling Groq API: " +:+ e)])
    | inr reply =>
        if (reply_status_code reply =? 200)%Z
        then match reply_message_content reply with
             | inr message => (strip message, [])
             | inl e =>
                 ("Error generating answer: " +:+ e,
                  [(ERROR, "Error calling Groq API: " +:+ e)])
             end
        else ("Error generating answer: " +:+ pretty (reply_status_code reply),
              [(ERROR, "Groq API error: " +:+ pretty (reply_status_code reply)
                       +:+ " - " +:+ reply_text reply)])
    end.

(** The loop [for result in results] that collects the context parts. *)
Fixpoint collect_context (results : list api_result) (context_parts : list string)
    : exn + list string :=
  match results with
  | [] => inr context_parts
  | result :: rest =>
      let! source_file := dict_get (api_metadata result) "source_file" in
      let context_parts := context_parts ++ ["Source: " +:+ source_file] in
      let! section_type := dict_get (api_metadata result) "section_type" in
      let context_parts := context_parts ++ ["Section: " +:+ section_type] in
      let context_parts := context_parts ++ ["Content: " +:+ api_content result] in
      let context_parts := context_parts ++ ["---"] in
      collect_context rest context_parts
  end.

(** The loop [for i, question in enumerate(request.questions)]: the answers
    or the exception raised, and the log. *)
Fixpoint answer_questions (rag_system : system) (api_key : option string) (i : nat)
    (questions : list string) (answers : list string) (log : list log_record)
  : (exn + list string) * list log_record :=
  match questions with
  | [] => (inr answers, log)
  | question :: rest =>
      let log :=
        log ++ [(INFO, "Processing question " +:+ pretty (i + 1) +:+ ": " +:+ question)] in
      match system_query rag_system question 3 with
      | inl e => (inl e, log)
      | inr results =>
          if negb (truthy results)
          then answer_questions rag_system api_key (S i) rest
                 (answers ++ [no_information]) log
          else
            match collect_context results [] with
            | inl e => (inl e, log)
            | inr context_parts =>
                let context := Py.join newline context_parts in
                let '(answer, client_log) := generate_answer api_key question context in
                answer_questions rag_system api_key (S i) rest (answers ++ [answer])
                  (log ++ client_log ++
                   [(INFO, "Generated answer for question " +:+ pretty (i + 1))])
            end
      end
  end.

(** [run_submission], after the token check of its dependency: the response
    and the log. *)
Definition run_submission (rag_system : option system) (GROQ_API_KEY : option string)
    (questions : list string) : response (list string) * list log_record :=
  match rag_system with
  | None => (HTTPException 503 "RAG system not initialized", [])
  | Some rag_system =>
      if negb (key_truthy GROQ_API_KEY)
      then (HTTPException 503 "Groq API key not configured", [])
      else
        let log :=
          [(INFO, "Processing " +:+ pretty (List.length questions) +:+ " questions")] in
        match answer_questions rag_system GROQ_API_KEY 0 questions [] log with
        | (inr answers, log) => (Returned answers, log)
        | (inl e, log) =>
            (HTTPException 500 ("Error processing submission: " +:+ e),
             log ++ [(ERROR, "Error processing submission: " +:+ e)])
        end
  end.

(** How one question is answered when it is: the fixed sentence when the
    query returns nothing, and otherwise what the language model answers to
    the question and the context built from the results. *)
Definition answered (rag_system : system) (api_key : option string)
    (question answer : string) : Prop :=
  exists results,
    system_query rag_system question 3 = inr results
    /\ ((results = [] /\ answer = no_information)
        \/ (results <> []
            /\ exists context_parts,
                 collect_context results [] = inr context_parts
                 /\ answer = fst (generate_answer api_key question
                                    (Py.join newline context_parts)))).

(** A result whose metadata lack the source file or the section type. *)
Definition lacks_key (result : api_result) : Prop :=
  api_metadata result !! "source_file" = None
  \/ api_metadata result !! "section_type" = None.

End Api.

(** A RAG system that knows about premiums only and cannot answer questions
    about deductibles, and a language model that always answers. *)
Definition premium_result : api_result :=
  {| api_content := "Premium is due monthly.";
     api_metadata := <["source_file" := "policy.pdf"]> {["section_type" := "premium"]} |}.

Definition sample_system_query (rag_system : unit) (question : string) (top_k : Z)
    : exn + list api_result :=
  if Py.contains "premium" (Py.lower question) then inr [premium_result]
  else if Py.contains "deductible" (Py.lower question) then inl "Collection not found"
  else inr [].

Definition sample_post (request : string) : exn + http_reply :=
  inr {| reply_status_code := 200; reply_text := "";
         reply_message_content := inr " The premium is due monthly. " |}.

(** ** Further words about the chunks and the log *)

(** A text chunk whose metadata count the words and the characters of its
    own content. *)
Definition counts_own_content (c : chunk) : Prop :=
  match metadata c with
  | TextMetadata _ word_count char_count _ =>
      word_count = Py.word_count (content c)
      /\ char_count = Z.of_nat (String.length (content c))
  | _ => False
  end.

(** The log line that reports a document as processed. *)
Definition success_record (pdf_file : pdf_file) (chunks : nat) : log_record :=
  (INFO, "Successfully processed " +:+ name pdf_file +:+ " - "
         +:+ pretty chunks +:+ " chunks").

(** * Properties *)

(** ** Section classifier *)

Lemma find_first_match {A : Type} (p : A -> bool) (l : list A) (i : nat) (x : A) :
  l !! i = Some x ->
  p x = true ->
  (forall k y, k < i -> l !! k = Some y -> p y = false) ->
  find p l = Some x.
Proof.
  revert i. induction l as [|a l IH]; intros i Hi Hx Hbefore.
  - destruct i; discriminate.
  - destruct i as [|i]; simpl in *.
    + injection Hi as ->. now rewrite Hx.
    + rewrite (Hbefore 0 a) by (simpl; auto with arith).
      apply (IH i); auto.
      intros k y Hk Hy. apply (Hbefore (S k) y); simpl; auto with arith.
Qed.

Lemma classify_section_first_match (text : string) :
  _classify_section text = classify_first_match text.
Proof.
  unfold _classify_section, classify_first_match, priority_cascade, rule_matches.
  cbn [find fst snd].
  repeat (destruct (Py.any_in _ (Py.lower text)); [reflexivity|]).
  reflexivity.
Qed.

Lemma in_all_chars (c : ascii) : In c all_chars.
Proof.
  unfold all_chars. rewrite <- (ascii_nat_embedding c). apply in_map, in_seq.
  pose proof (nat_ascii_bounded c). lia.
Qed.

Lemma for_each_char (p : ascii -> bool) :
  forallb p all_chars = true -> forall c, p c = true.
Proof. intros H c. rewrite forallb_forall in H. exact (H c (in_all_chars c)). Qed.

Lemma code_inj (a b : ascii) : Py.code a = Py.code b -> a = b.
Proof.
  unfold Py.code. intros H.
  now rewrite <- (ascii_nat_embedding a), <- (ascii_nat_embedding b), H.
Qed.

(** What [str.lower] does to one character, in the words of the
    specification: a capital becomes the character 32 code points after it,
    which is not a capital, and every other character stays as it is. *)
Lemma lower_char_capital (c : ascii) :
  is_capital c = true ->
  Py.code (Py.lower_char c) = Py.code c + 32 /\ is_capital (Py.lower_char c) = false.
Proof.
  intros Hc.
  pose proof (for_each_char
                (fun c => implb (is_capital c)
                            ((Py.code (Py.lower_char c) =? Py.code c + 32)
                             && negb (is_capital (Py.lower_char c))))
                ltac:(vm_compute; reflexivity) c) as H.
  cbn beta in H. rewrite Hc in H. cbn [implb] in H.
  apply andb_prop in H as [Hcode Hsmall]. split; [now apply Nat.eqb_eq|].
  now destruct (is_capital (Py.lower_char c)).
Qed.

Lemma lower_char_other (c : ascii) :
  is_capital c = false -> Py.lower_char c = c.
Proof.
  intros Hc.
  pose proof (for_each_char
                (fun c => implb (negb (is_capital c)) (Ascii.eqb (Py.lower_char c) c))
                ltac:(vm_compute; reflexivity) c) as H.
  cbn beta in H. rewrite Hc in H. cbn [negb implb] in H. now apply Ascii.eqb_eq.
Qed.

Lemma lower_char_same_letter (k c : ascii) :
  is_capital k = false -> Ascii.eqb k (Py.lower_char c) = same_letter k c.
Proof.
  intros Hk. unfold same_letter, capital_of. rewrite Hk. cbn [andb].
  rewrite orb_false_r. destruct (is_capital c) eqn:Hc; cbn [andb].
  - destruct (lower_char_capital c Hc) as [Hcode _].
    assert (Hne : Ascii.eqb k c = false).
    { apply Ascii.eqb_neq. intros ->. congruence. }
    rewrite Hne. cbn [orb].
    destruct (Nat.eqb_spec (Py.code c + 32) (Py.code k)) as [Heq|Hneq].
    + apply Ascii.eqb_eq, code_inj. congruence.
    + apply Ascii.eqb_neq. intros ->. congruence.
  - rewrite (lower_char_other c Hc). now rewrite orb_false_r.
Qed.

Lemma capital_of_lower_char (small capital : ascii) :
  capital_of small capital = true ->
  Py.lower_char small = Py.lower_char capital.
Proof.
  unfold capital_of. intros H. apply andb_prop in H as [Hcap Hcode].
  apply Nat.eqb_eq in Hcode.
  destruct (lower_char_capital capital Hcap) as [Hlow Hsmall].
  assert (Heq : small = Py.lower_char capital) by (apply code_inj; congruence).
  rewrite Heq at 1. now apply lower_char_other.
Qed.

Lemma same_letter_lower_char (a b : ascii) :
  same_letter a b = true -> Py.lower_char a = Py.lower_char b.
Proof.
  unfold same_letter. intros H. apply orb_prop in H as [H|H].
  - apply orb_prop in H as [H|H].
    + apply Ascii.eqb_eq in H. now subst.
    + now apply capital_of_lower_char.
  - symmetry. now apply capital_of_lower_char.
Qed.

Lemma same_letters_lower (s : string) :
  forall t, same_letters s t = true -> Py.lower s = Py.lower t.
Proof.
  induction s as [|a s IH]; intros [|b t]; cbn [same_letters Py.lower];
    try reflexivity; try discriminate.
  intros H. apply andb_prop in H as [Hab Hst].
  now rewrite (same_letter_lower_char a b Hab), (IH t Hst).
Qed.

Lemma prefix_lower (word : string) :
  any_char is_capital word = false ->
  forall line, String.prefix word (Py.lower line) = starts_ignoring_case word line.
Proof.
  induction word as [|k word IH]; intros Hword line.
  - now destruct line.
  - cbn [any_char] in Hword. apply orb_false_elim in Hword as [Hk Hword].
    destruct line as [|c line]; [reflexivity|].
    cbn [Py.lower String.prefix starts_ignoring_case].
    rewrite <- (lower_char_same_letter k c Hk), <- (IH Hword line).
    destruct (ascii_dec k (Py.lower_char c)) as [<-|Hne].
    + now rewrite Ascii.eqb_refl.
    + now rewrite (proj2 (Ascii.eqb_neq k (Py.lower_char c)) Hne).
Qed.

Lemma contains_lower (word : string) :
  any_char is_capital word = false ->
  forall line, Py.contains word (Py.lower line) = occurs_ignoring_case word line.
Proof.
  intros Hword line. induction line as [|c line IH].
  - cbn [Py.lower Py.contains occurs_ignoring_case].
    now rewrite <- (prefix_lower word Hword EmptyString).
  - cbn [Py.lower]. cbn [Py.contains occurs_ignoring_case].
    change (String (Py.lower_char c) (Py.lower line)) with (Py.lower (String c line)).
    now rewrite (prefix_lower word Hword (String c line)), IH.
Qed.

Lemma rule_matches_applies (rule : category * list string) (line : string) :
  In rule priority_cascade -> rule_matches rule line = rule_applies rule line.
Proof.
  intros Hrule. unfold rule_matches, rule_applies, Py.any_in.
  assert (Hwords : Forall (fun word => any_char is_capital word = false) (snd rule)).
  { unfold priority_cascade in Hrule. cbn [In] in Hrule.
    repeat (destruct Hrule as [<- | Hrule]; [repeat constructor|]).
    destruct Hrule. }
  induction Hwords as [|word words Hword _ IH]; [reflexivity|].
  cbn [existsb]. now rewrite (contains_lower word Hword line), IH.
Qed.

Lemma find_agree {A : Type} (p q : A -> bool) (l : list A) :
  (forall x, In x l -> p x = q x) -> find p l = find q l.
Proof.
  induction l as [|a l IH]; intros H; [reflexivity|]. cbn [find].
  rewrite (H a ltac:(now left)). destruct (q a); [reflexivity|].
  apply IH. intros x Hx. apply H. now right.
Qed.

Lemma classify_section_as_specified (text : string) :
  _classify_section text = classify_as_specified text.
Proof.
  rewrite classify_section_first_match. unfold classify_first_match, classify_as_specified.
  rewrite (find_agree (fun rule => rule_matches rule text)
                      (fun rule => rule_applies rule text) priority_cascade);
    [reflexivity|].
  intros rule Hrule. now apply rule_matches_applies.
Qed.

(** C2. The classifier is the ordered first-match cascade coverage,
    exclusion, definition, condition, premium, claim, schedule over the
    lower-cased line, with [general] when no rule matches; it depends on the
    line only up to case; and when two rules match and no rule before the
    earlier one does, the earlier category is returned. The rules are
    case-insensitive in the sense of the specification, stated on the line as
    written and without [str.lower]: a rule matches exactly when one of its
    substrings occurs in the line with every character equal to that of the
    substring or its capital, so the classifier is the first-match cascade
    of these rules, and two lines that differ in case only get the same
    category. *)
Theorem classify_section_priority_cascade (text : string) :
  _classify_section text = classify_first_match text
  /\ map fst priority_cascade
     = [coverage; exclusion; definition; condition; premium; claim; schedule]
  /\ (forall text', Py.lower text' = Py.lower text ->
        _classify_section text' = _classify_section text)
  /\ ((forall rule, In rule priority_cascade -> rule_matches rule text = false) ->
        _classify_section text = general)
  /\ (forall i j ri rj,
        i < j ->
        priority_cascade !! i = Some ri ->
        priority_cascade !! j = Some rj ->
        rule_matches ri text = true ->
        rule_matches rj text = true ->
        (forall k rk, k < i -> priority_cascade !! k = Some rk ->
                      rule_matches rk text = false) ->
        _classify_section text = fst ri)
  /\ (forall rule, In rule priority_cascade ->
        rule_matches rule text = rule_applies rule text)
  /\ _classify_section text = classify_as_specified text
  /\ (forall text', same_letters text' text = true ->
        _classify_section text' = _classify_section text)
  /\ ((forall rule, In rule priority_cascade -> rule_applies rule text = false) ->
        _classify_section text = general)
  /\ (forall i j ri rj,
        i < j ->
        priority_cascade !! i = Some ri ->
        priority_cascade !! j = Some rj ->
        rule_applies ri text = true ->
        rule_applies rj text = true ->
        (forall k rk, k < i -> priority_cascade !! k = Some rk ->
                      rule_applies rk text = false) ->
        _classify_section text = fst ri).
Proof.
  split; [apply classify_section_first_match|].
  split; [reflexivity|].
  split.
  { intros text' Heq. unfold _classify_section. now rewrite Heq. }
  split.
  { intros Hnone. rewrite classify_section_first_match.
    unfold classify_first_match.
    destruct (find _ priority_cascade) as [rule|] eqn:Hfind; [|reflexivity].
    apply find_some in Hfind as [Hin Hmatch].
    rewrite (Hnone rule Hin) in Hmatch. discriminate. }
  split.
  { intros i j ri rj _ Hi _ Hri _ Hbefore.
    rewrite classify_section_first_match. unfold classify_first_match.
    now rewrite (find_first_match (fun rule => rule_matches rule text)
                   priority_cascade i ri Hi Hri Hbefore). }
  split; [intros rule Hrule; now apply rule_matches_applies|].
  split; [apply classify_section_as_specified|].
  split.
  { intros text' Hsame. unfold _classify_section.
    now rewrite (same_letters_lower text' text Hsame). }
  split.
  { intros Hnone. rewrite classify_section_as_specified.
    unfold classify_as_specified.
    destruct (find _ priority_cascade) as [rule|] eqn:Hfind; [|reflexivity].
    apply find_some in Hfind as [Hin Hmatch].
    rewrite (Hnone rule Hin) in Hmatch. discriminate. }
  intros i j ri rj _ Hi _ Hri _ Hbefore.
  rewrite classify_section_as_specified. unfold classify_as_specified.
  now rewrite (find_first_match (fun rule => rule_applies rule text)
                 priority_cascade i ri Hi Hri Hbefore).
Qed.

(** A line in capitals that mentions a claim and coverage is a coverage
    line, and so is the same line in small letters. *)
Lemma classify_section_priority_cascade_witness :
  _classify_section "CLAIM UNDER THIS COVERAGE" = coverage
  /\ _classify_section "claim under this coverage"
     = _classify_section "CLAIM UNDER THIS COVERAGE".
Proof.
  destruct (classify_section_priority_cascade "CLAIM UNDER THIS COVERAGE")
    as (_ & _ & _ & _ & _ & _ & _ & Hcase & _ & Hearlier).
  split.
  - apply (Hearlier 0 5 (coverage, ["coverage"; "cover"; "insured"])
                    (claim, ["claim"; "claimant"; "notification"])).
    + lia.
    + reflexivity.
    + reflexivity.
    + reflexivity.
    + reflexivity.
    + intros k rk Hk. lia.
  - apply Hcase. reflexivity.
Defined.

(** C3, as the code has it. The coverage rule comes first, and the line
    contains "coverage": the line is classified as coverage. *)
Theorem classify_excluded_from_coverage :
  _classify_section "This is excluded from coverage." = coverage.
Proof. reflexivity. Qed.

(** C3, as stated, fails: the category returned is not exclusion. *)
Lemma classify_excluded_from_coverage_not_exclusion :
  _classify_section "This is excluded from coverage." <> exclusion.
Proof. vm_compute. discriminate. Qed.

(** ** Feature extractor *)

Lemma split_sep_go_length (sep : ascii) (s cur : string) :
  1 <= List.length (Py.split_sep_go sep cur s).
Proof.
  revert cur. induction s as [|c s IH]; intros cur; simpl.
  - lia.
  - destruct (Ascii.eqb c sep); simpl; [lia | apply IH].
Qed.

Lemma extract_features_total (terms : list string) (full : bool) (text : string) :
  exists f : features, _extract_features terms full text = inr f.
Proof.
  pose proof (split_sep_go_length "." text EmptyString) as Hlen.
  fold (Py.split_sep "." text) in Hlen.
  unfold _extract_features, average_sentence_length, int_truediv.
  destruct (Py.split_sep "." text) as [|piece pieces]; [simpl in Hlen; lia|].
  cbn [truthy].
  destruct (Z.eqb_spec (Z.of_nat (List.length (piece :: pieces))) 0) as [Hz|Hnz];
    [simpl in Hz; lia|].
  eexists. reflexivity.
Qed.

(** C9. Splitting on '.' always yields at least one piece, so feature
    extraction never raises, the guard of the average never takes its [else]
    branch, and the average is the quotient of the word count by the
    sentence count, which is also the quotient by [max(sentence_count, 1)]. *)
Theorem sentence_count_at_least_one (terms : list string) (full : bool) (text : string) :
  exists f : features,
    _extract_features terms full text = inr f
    /\ sentence_count f = Z.of_nat (List.length (Py.split_sep "." text))
    /\ word_count f = Z.of_nat (List.length (Py.split text))
    /\ (1 <= sentence_count f)%Z
    /\ int_truediv (word_count f) (sentence_count f) = inr (avg_sentence_length f)
    /\ avg_sentence_length f
       = (float_of_int (word_count f) / float_of_int (Z.max (sentence_count f) 1))%float.
Proof.
  pose proof (split_sep_go_length "." text EmptyString) as Hlen.
  fold (Py.split_sep "." text) in Hlen.
  unfold _extract_features, average_sentence_length, int_truediv.
  destruct (Py.split_sep "." text) as [|piece pieces] eqn:Hsplit;
    [simpl in Hlen; lia|].
  cbn [truthy].
  destruct (Z.eqb_spec (Z.of_nat (List.length (piece :: pieces))) 0) as [Hz|Hnz];
    [simpl in Hz; lia|].
  eexists. split; [reflexivity|]. cbn [sentence_count word_count avg_sentence_length].
  split; [reflexivity|]. split; [reflexivity|]. split; [lia|]. split.
  - destruct (Z.eqb_spec (Z.of_nat (List.length (piece :: pieces))) 0); [lia|reflexivity].
  - now rewrite Z.max_l by lia.
Qed.

(** C5. On the fixture line both embedders extract the one amount, the one
    percentage and the one date, and count the term "premium" once. *)
Theorem extract_features_premium_fixture (full : bool) :
  exists f : features,
    _extract_features (if full then full_insurance_terms else simple_insurance_terms)
                      full premium_fixture = inr f
    /\ amounts f = ["$1,200.50"]
    /\ percentages f = ["10%"]
    /\ dates f = ["01/15/2024"]
    /\ insurance_terms f !! "premium" = Some 1%Z.
Proof.
  destruct full; (eexists; split; [vm_compute; reflexivity|]);
    repeat split; vm_compute; reflexivity.
Qed.

(** ** Retrieval facade *)

Section RetrievalProperties.

Variable stored_metadata : Type.
Variable embedding : Type.
Variable collection : Type.
Variable encode : string -> exn + embedding.
Variable collection_query :
  collection -> list embedding -> Z -> option (gmap string string)
  -> exn + query_result stored_metadata.

Lemma float_of_int_one : float_of_int 1 = 1%float.
Proof. reflexivity. Qed.

Lemma index_lookup {A : Type} (l : list A) (i : nat) (a : A) :
  l !! i = Some a -> index l i = inr a.
Proof.
  unfold index. intros H.
  assert (nth_error l i = Some a) as ->; [|reflexivity].
  revert i H. induction l as [|x l IH]; intros [|i] H; simpl in *;
    try discriminate; auto.
Qed.

Lemma format_results_spec (results : query_result stored_metadata)
    (docs : list string) (metas : list stored_metadata) (dists : list float)
    (rest1 : list (list string)) (rest2 : list (list stored_metadata))
    (rest3 : list (list float)) :
  documents results = docs :: rest1 ->
  metadatas results = metas :: rest2 ->
  distances results = dists :: rest3 ->
  List.length docs <= List.length metas ->
  List.length docs <= List.length dists ->
  forall (range : list nat) (acc : list (retrieval_result stored_metadata)),
    (forall i, In i range -> i < List.length docs) ->
    exists rs,
      format_results stored_metadata results acc range = inr (acc ++ rs)
      /\ List.length rs = List.length range
      /\ forall k i, range !! k = Some i ->
           exists r c m d,
             rs !! k = Some r /\ docs !! i = Some c /\ metas !! i = Some m
             /\ dists !! i = Some d
             /\ result_content r = c /\ result_metadata r = m
             /\ similarity_score r = (1 - d)%float
             /\ rank r = (Z.of_nat i + 1)%Z.
Proof.
  intros Hdocs Hmetas Hdists Hlm Hld.
  induction range as [|i range IH]; intros acc Hrange.
  - exists []. simpl. rewrite app_nil_r. repeat split. intros k i Hk.
    destruct k; discriminate.
  - assert (Hi : i < List.length docs) by (apply Hrange; now left).
    destruct (lookup_lt_is_Some_2 docs i Hi) as [c Hc].
    destruct (lookup_lt_is_Some_2 metas i ltac:(lia)) as [m Hm].
    destruct (lookup_lt_is_Some_2 dists i ltac:(lia)) as [d Hd].
    set (r := {| result_content := c; result_metadata := m;
                 similarity_score := (float_of_int 1 - d)%float;
                 rank := (Z.of_nat i + 1)%Z |}).
    assert (Hr : format_result stored_metadata results i = inr r).
    { unfold format_result. rewrite Hdocs, Hmetas, Hdists. cbn [index nth_error bind].
      rewrite (index_lookup _ _ _ Hc), (index_lookup _ _ _ Hm), (index_lookup _ _ _ Hd).
      reflexivity. }
    destruct (IH (acc ++ [r])) as (rs & Hrs & Hlen & Hall).
    { intros i' Hi'. apply Hrange. now right. }
    exists (r :: rs). cbn [format_results]. rewrite Hr. cbn [bind].
    rewrite Hrs, <- app_assoc. split; [reflexivity|]. split; [simpl; lia|].
    intros [|k] i' Hk.
    + injection Hk as <-. exists r, c, m, d. subst r.
      cbn [lookup list_lookup result_content result_metadata similarity_score rank].
      rewrite float_of_int_one. auto 10.
    + apply Hall. exact Hk.
Qed.

Lemma index_inr {A : Type} (l : list A) (i : nat) (a : A) :
  index l i = inr a -> l !! i = Some a.
Proof.
  unfold index. destruct (nth_error l i) as [x|] eqn:Hnth; [|discriminate].
  intros [= <-]. revert i Hnth.
  induction l as [|y l IH]; intros [|i] H; simpl in *; try discriminate; auto.
Qed.

Lemma format_result_inv (results : query_result stored_metadata) (i : nat)
    (r : retrieval_result stored_metadata) :
  format_result stored_metadata results i = inr r ->
  returned_document results i = Some (result_content r)
  /\ returned_metadata results i = Some (result_metadata r)
  /\ exists d, returned_distance results i = Some d
               /\ similarity_score r = (1 - d)%float
               /\ rank r = (Z.of_nat i + 1)%Z.
Proof.
  unfold format_result, returned_document, returned_metadata, returned_distance.
  destruct (documents results) as [|docs rest1]; [discriminate|].
  destruct (metadatas results) as [|metas rest2];
    cbn [index nth_error bind].
  { destruct (index docs i); discriminate. }
  destruct (distances results) as [|dists rest3];
    cbn [index nth_error bind].
  { destruct (index docs i); cbn [bind]; [discriminate|].
    destruct (index metas i); discriminate. }
  destruct (index docs i) as [|c] eqn:Hc; cbn [bind]; [discriminate|].
  destruct (index metas i) as [|m] eqn:Hm; cbn [bind]; [discriminate|].
  destruct (index dists i) as [|d] eqn:Hd; cbn [bind]; [discriminate|].
  intros [= <-]. cbn [result_content result_metadata similarity_score rank].
  rewrite float_of_int_one.
  split; [now apply index_inr|]. split; [now apply index_inr|].
  exists d. split; [now apply index_inr|]. auto.
Qed.

Lemma format_results_inv (results : query_result stored_metadata) (range : list nat) :
  forall acc rs,
    format_results stored_metadata results acc range = inr rs ->
    exists rs',
      rs = acc ++ rs'
      /\ Forall2 (fun i r => format_result stored_metadata results i = inr r) range rs'.
Proof.
  induction range as [|i range IH]; intros acc rs; cbn [format_results].
  - intros [= <-]. exists []. split; [now rewrite app_nil_r | constructor].
  - destruct (format_result stored_metadata results i) as [|r] eqn:Hr;
      cbn [bind]; [discriminate|].
    intros Hrest. destruct (IH _ _ Hrest) as (rs' & -> & Hall).
    exists (r :: rs'). split; [now rewrite <- app_assoc | now constructor].
Qed.

(** C4. Whenever [query] returns, it returns one result per document the
    store returned, in the store's order, and the result at position i (from
    0) carries the document and metadata returned at i, the similarity
    [1 - distance] for the distance returned at i, and the rank [i + 1]. It
    does return when the question is embedded and the store answers with at
    least as many metadata entries and distances as documents. A distance of
    0.2 gives the similarity 0.8. *)
Theorem query_similarity_and_rank
    (coll : collection) (question : string) (top_k : Z)
    (filter_metadata : option (gmap string string)) :
  (forall rs,
      query stored_metadata embedding collection encode collection_query
            coll question top_k filter_metadata = inr rs ->
      exists e results docs rest,
        encode question = inr e
        /\ collection_query coll [e] top_k (where_clause_of filter_metadata) = inr results
        /\ documents results = docs :: rest
        /\ List.length rs = List.length docs
        /\ forall i r, rs !! i = Some r ->
             returned_document results i = Some (result_content r)
             /\ returned_metadata results i = Some (result_metadata r)
             /\ exists d, returned_distance results i = Some d
                          /\ similarity_score r = (1 - d)%float
                          /\ rank r = (Z.of_nat i + 1)%Z)
  /\ (forall e results docs metas dists rest1 rest2 rest3,
        encode question = inr e ->
        collection_query coll [e] top_k (where_clause_of filter_metadata) = inr results ->
        documents results = docs :: rest1 ->
        metadatas results = metas :: rest2 ->
        distances results = dists :: rest3 ->
        List.length docs <= List.length metas ->
        List.length docs <= List.length dists ->
        exists rs,
          query stored_metadata embedding collection encode collection_query
                coll question top_k filter_metadata = inr rs)
  /\ (1 - 0.2 = 0.8)%float.
Proof.
  split; [|split; [|reflexivity]].
  - intros rs. unfold query.
    destruct (encode question) as [|e] eqn:Henc; cbn [bind]; [discriminate|].
    destruct (collection_query coll [e] top_k (where_clause_of filter_metadata))
      as [|results] eqn:Hq; cbn [bind]; [discriminate|].
    destruct (documents results) as [|docs rest] eqn:Hdocs;
      cbn [index nth_error bind]; [discriminate|].
    intros Hrs. apply format_results_inv in Hrs as (rs' & -> & Hall).
    cbn [app]. exists e, results, docs, rest.
    do 3 (split; [first [reflexivity | assumption]|]).
    split.
    { apply Forall2_length in Hall. rewrite length_seq in Hall. now symmetry. }
    intros i r Hir.
    destruct (Forall2_lookup_r _ _ _ _ _ Hall Hir) as (i' & Hi' & Hr).
    apply lookup_seq in Hi' as [-> _]. now apply format_result_inv.
  - intros e results docs metas dists rest1 rest2 rest3
           Henc Hq Hdocs Hmetas Hdists Hlm Hld.
    destruct (format_results_spec results docs metas dists rest1 rest2 rest3
                Hdocs Hmetas Hdists Hlm Hld (seq 0 (List.length docs)) [])
      as (rs & Hrs & _).
    { intros i Hi. apply in_seq in Hi. lia. }
    exists rs. unfold query. rewrite Henc. cbn [bind]. rewrite Hq. cbn [bind].
    rewrite Hdocs. cbn [index nth_error bind]. exact Hrs.
Qed.

End RetrievalProperties.

(** The sample store: the query returns, and each result carries the
    similarity 1 - distance and the rank of its position. *)
Lemma query_similarity_and_rank_witness :
  exists rs,
    query string (list float) unit sample_encode sample_collection_query
          tt "What is the deductible?" 5 None = inr rs
    /\ forall i r, rs !! i = Some r ->
         exists d, returned_distance sample_answer i = Some d
                   /\ similarity_score r = (1 - d)%float
                   /\ rank r = (Z.of_nat i + 1)%Z.
Proof.
  destruct (query_similarity_and_rank string (list float) unit
              sample_encode sample_collection_query tt "What is the deductible?" 5 None)
    as (Hreturned & Hreturns & _).
  destruct (Hreturns [0.5%float] sample_answer
              ["Deductible is $500 per claim."; "Premium is due monthly."]
              ["policy.pdf_0"; "policy.pdf_1"] [0.2%float; 0.5%float] [] [] []
              eq_refl eq_refl eq_refl eq_refl eq_refl
              (le_n 2) (le_n 2)) as [rs Hrs].
  exists rs. split; [exact Hrs|]. intros i r Hir.
  destruct (Hreturned rs Hrs) as (e & results & docs & rest & _ & Hq & _ & _ & Hall).
  injection Hq as <-.
  destruct (Hall i r Hir) as (_ & _ & Hd). exact Hd.
Defined.

(** ** Chunk builder *)

Section ChunkBuilderProperties.

Variable _split_into_sentences : string -> list string.
Variable now_isoformat : nat -> string.
Variable self : chunker.

Local Abbreviation is_sentence := (is_sentence _split_into_sentences).
Local Abbreviation size_bounded := (size_bounded _split_into_sentences self).
Local Abbreviation buffer_bounded := (buffer_bounded _split_into_sentences self).
Local Abbreviation state_bounded := (state_bounded _split_into_sentences self).

Lemma truthy_snoc {A : Type} (l : list A) (a : A) : truthy (l ++ [a]) = true.
Proof. destruct l; reflexivity. Qed.

Lemma append_chunk_bounded (chunks : list chunk) (buffer : list string)
    (section : category) :
  Forall size_bounded chunks ->
  buffer_bounded buffer ->
  Forall size_bounded (append_chunk now_isoformat chunks buffer section).
Proof.
  intros Hchunks Hbuffer. unfold append_chunk.
  apply Forall_app. split; [exact Hchunks|].
  constructor; [|constructor].
  intros _. cbn [content metadata _create_chunk_metadata]. split.
  - eexists _, _. reflexivity.
  - destruct Hbuffer as [Hle | (s & -> & Hs & Hlong)].
    + now left.
    + right. cbn [Py.join]. auto.
Qed.

Lemma single_sentence_bounded (s : string) :
  is_sentence s -> buffer_bounded [s].
Proof.
  intros Hs. unfold buffer_bounded. cbn [Py.join].
  destruct (Z_le_gt_dec (Py.word_count s) (chunk_size self)) as [Hle|Hgt].
  - now left.
  - right. exists s. repeat split; [exact Hs | lia].
Qed.

Lemma sentence_step_bounded (section : category) (st : list chunk * list string)
    (sentence : string) :
  is_sentence sentence ->
  Forall size_bounded (fst st) ->
  buffer_bounded (snd st) ->
  Forall size_bounded (fst (sentence_step now_isoformat self section st sentence))
  /\ buffer_bounded (snd (sentence_step now_isoformat self section st sentence)).
Proof.
  destruct st as [chunks temp_chunk]. cbn [fst snd]. intros Hs Hchunks Htemp.
  unfold sentence_step.
  destruct (Z.gtb_spec (Py.word_count (Py.join " " (temp_chunk ++ [sentence])))
                       (chunk_size self)) as [Hgt|Hle]; cbn [fst snd].
  - rewrite truthy_snoc, removelast_last. split.
    + now apply append_chunk_bounded.
    + now apply single_sentence_bounded.
  - split; [exact Hchunks | now left].
Qed.

Lemma sentences_bounded (section : category) (sentences : list string) :
  (forall s, In s sentences -> is_sentence s) ->
  forall st : list chunk * list string,
    Forall size_bounded (fst st) ->
    buffer_bounded (snd st) ->
    Forall size_bounded
      (fst (fold_left (sentence_step now_isoformat self section) sentences st))
    /\ buffer_bounded
         (snd (fold_left (sentence_step now_isoformat self section) sentences st)).
Proof.
  induction sentences as [|s sentences IH]; intros Hall st Hchunks Htemp.
  - now split.
  - cbn [fold_left].
    destruct (sentence_step_bounded section st s) as [Hc Ht]; auto.
    { apply Hall. now left. }
    apply IH; auto. intros s' Hs'. apply Hall. now right.
Qed.

Lemma overflow_split_bounded (chunks : list chunk) (buffer : list string)
    (section : category) :
  (0 <= chunk_size self)%Z ->
  Forall size_bounded chunks ->
  state_bounded
    (if (Py.word_count (Py.join " " buffer) >? chunk_size self)%Z
     then let '(chunks', temp_chunk) :=
            fold_left (sentence_step now_isoformat self section)
                      (_split_into_sentences (Py.join " " buffer)) (chunks, []) in
          (chunks', temp_chunk, section)
     else (chunks, buffer, section)).
Proof.
  intros Hsize Hchunks.
  destruct (Z.gtb_spec (Py.word_count (Py.join " " buffer)) (chunk_size self))
    as [Hgt|Hle].
  - destruct (sentences_bounded section
                (_split_into_sentences (Py.join " " buffer))
                ltac:(intros s Hs; now exists (Py.join " " buffer))
                (chunks, []) Hchunks) as [Hc Ht].
    { left. exact Hsize. }
    destruct (fold_left _ _ _) as [chunks' temp_chunk]. now split.
  - split; [exact Hchunks | now left].
Qed.

Lemma item_step_bounded (st : list chunk * list string * category) (it : item) :
  (0 <= chunk_size self)%Z ->
  state_bounded st ->
  state_bounded (item_step _split_into_sentences now_isoformat self st it).
Proof.
  destruct st as [[chunks current_chunk] current_section].
  intros Hsize [Hchunks Hbuffer]. cbn [fst snd] in *. unfold item_step.
  destruct (is_header it && negb (category_eqb (section_type it) current_section)).
  - apply overflow_split_bounded; [exact Hsize|].
    destruct (truthy current_chunk); [|exact Hchunks].
    now apply append_chunk_bounded.
  - now apply overflow_split_bounded.
Qed.

Lemma text_chunks_bounded (text_content : list item) :
  (0 <= chunk_size self)%Z ->
  Forall size_bounded
    (text_chunks _split_into_sentences now_isoformat self text_content).
Proof.
  intros Hsize. unfold text_chunks.
  assert (Hinv : state_bounded
            (fold_left (item_step _split_into_sentences now_isoformat self)
                       text_content ([], [], general))).
  { assert (Hinit : state_bounded ([], [], general)).
    { split; [constructor | left; exact Hsize]. }
    revert Hinit. generalize (([], [], general) : list chunk * list string * category).
    induction text_content as [|it items IH]; intros st Hst; [exact Hst|].
    apply IH. now apply item_step_bounded. }
  destruct (fold_left _ _ _) as [[chunks current_chunk] current_section].
  destruct Hinv as [Hchunks Hbuffer]. cbn [fst snd] in *.
  destruct (truthy current_chunk); [|exact Hchunks].
  now apply append_chunk_bounded.
Qed.

Lemma table_chunks_bounded {T : Type} (f : T -> chunk) (ts : list T) :
  (forall t, type (f t) = table_type) ->
  Forall size_bounded (map f ts).
Proof.
  intros Hf. induction ts as [|t ts IH]; cbn [map]; constructor; [|exact IH].
  intros Htype. rewrite Hf in Htype. discriminate.
Qed.

(** C1, as the code has it. For a chunk size that is not negative, every
    text chunk of either chunk builder records the word count of its content,
    and that count is at most [chunk_size] unless the content is exactly one
    sentence of the tokenizer whose own word count exceeds [chunk_size]. *)
Theorem text_chunks_within_chunk_size
    (simple_data : extracted_data simple_table)
    (full_data : extracted_data full_table) :
  (0 <= chunk_size self)%Z ->
  Forall size_bounded (create_chunks _split_into_sentences now_isoformat self simple_data)
  /\ Forall size_bounded
       (create_semantic_chunks _split_into_sentences now_isoformat self full_data).
Proof.
  intros Hsize. unfold create_chunks, create_semantic_chunks. split.
  - apply Forall_app. split; [now apply text_chunks_bounded|].
    now apply table_chunks_bounded.
  - apply Forall_app. split; [now apply text_chunks_bounded|].
    now apply table_chunks_bounded.
Qed.

End ChunkBuilderProperties.

(** With chunk size 2 the bound holds on a two-line document. *)
Lemma text_chunks_within_chunk_size_witness :
  Forall (size_bounded period_sentences (chunker_of_size 2))
         (create_chunks period_sentences fixed_clock (chunker_of_size 2)
            (simple_document ["one two. three"; "four five. six"]))
  /\ Forall (size_bounded period_sentences (chunker_of_size 2))
       (create_semantic_chunks period_sentences fixed_clock (chunker_of_size 2)
          (full_document ["one two. three"; "four five. six"])).
Proof.
  apply (text_chunks_within_chunk_size period_sentences fixed_clock (chunker_of_size 2)).
  simpl. lia.
Defined.

Lemma period_sentences_nonempty (buffer : string) :
  ~ In EmptyString (period_sentences buffer).
Proof.
  unfold period_sentences. intros H. apply filter_In in H as [_ H]. discriminate.
Qed.

(** C1, as stated, fails for a negative chunk size: with chunk size -1 the
    one-line document "a" yields a first text chunk that is empty, so not a
    sentence, and whose word count 0 exceeds the chunk size. *)
Lemma negative_chunk_size_breaks_size_bound :
  ~ Forall (size_bounded period_sentences (chunker_of_size (-1)))
           (create_chunks period_sentences fixed_clock (chunker_of_size (-1))
              (simple_document ["a"])).
Proof.
  intros H. apply Forall_inv in H.
  destruct (H eq_refl) as [_ [Hle | [[buffer Hsentence] _]]].
  - vm_compute in Hle. now apply Hle.
  - now apply (period_sentences_nonempty buffer).
Qed.

Section EmptyChunk.

Variable _split_into_sentences : string -> list string.
Variable now_isoformat : nat -> string.
Variable self : chunker.

Lemma sentence_step_grows (section : category) (st : list chunk * list string)
    (sentence : string) :
  exists more,
    fst (sentence_step now_isoformat self section st sentence) = fst st ++ more.
Proof.
  destruct st as [chunks temp_chunk]. unfold sentence_step.
  destruct (_ >? _)%Z; cbn [fst].
  - rewrite truthy_snoc. unfold append_chunk. eexists. reflexivity.
  - exists []. now rewrite app_nil_r.
Qed.

Lemma sentences_grow (section : category) (sentences : list string)
    (st : list chunk * list string) :
  exists more,
    fst (fold_left (sentence_step now_isoformat self section) sentences st)
    = fst st ++ more.
Proof.
  revert st. induction sentences as [|s sentences IH]; intros st; cbn [fold_left].
  - exists []. now rewrite app_nil_r.
  - destruct (IH (sentence_step now_isoformat self section st s)) as [more2 H2].
    destruct (sentence_step_grows section st s) as [more1 H1].
    exists (more1 ++ more2). now rewrite H2, H1, app_assoc.
Qed.

Lemma item_step_grows (st : list chunk * list string * category) (it : item) :
  exists more,
    fst (fst (item_step _split_into_sentences now_isoformat self st it))
    = fst (fst st) ++ more.
Proof.
  destruct st as [[chunks current_chunk] current_section]. unfold item_step.
  cbn [fst].
  destruct (is_header it && negb (category_eqb (section_type it) current_section)).
  - set (chunks1 := if truthy current_chunk then _ else chunks).
    assert (H1 : exists more, chunks1 = chunks ++ more).
    { subst chunks1. destruct (truthy current_chunk).
      - unfold append_chunk. eexists. reflexivity.
      - exists []. now rewrite app_nil_r. }
    destruct H1 as [more1 H1]. clearbody chunks1.
    destruct (_ >? _)%Z.
    + destruct (sentences_grow (section_type it)
                  (_split_into_sentences (Py.join " " [text it])) (chunks1, []))
        as [more2 H2].
      destruct (fold_left _ _ _) as [chunks' temp_chunk]. cbn [fst] in *.
      exists (more1 ++ more2). now rewrite H2, H1, app_assoc.
    + exists more1. exact H1.
  - destruct (_ >? _)%Z.
    + destruct (sentences_grow current_section
                  (_split_into_sentences (Py.join " " (current_chunk ++ [text it])))
                  (chunks, [])) as [more2 H2].
      destruct (fold_left _ _ _) as [chunks' temp_chunk]. cbn [fst] in *.
      exists more2. exact H2.
    + exists []. now rewrite app_nil_r.
Qed.

Lemma items_grow (items : list item) (st : list chunk * list string * category) :
  exists more,
    fst (fst (fold_left (item_step _split_into_sentences now_isoformat self) items st))
    = fst (fst st) ++ more.
Proof.
  revert st. induction items as [|it items IH]; intros st; cbn [fold_left].
  - exists []. now rewrite app_nil_r.
  - destruct (IH (item_step _split_into_sentences now_isoformat self st it))
      as [more2 H2].
    destruct (item_step_grows st it) as [more1 H1].
    exists (more1 ++ more2). now rewrite H2, H1, app_assoc.
Qed.

(** The first line of a stream, when it exceeds the chunk size and so does
    its first sentence, makes the builder emit an empty chunk first. *)
Lemma first_item_emits_empty_chunk (it : item) (s : string) (ss : list string) :
  (chunk_size self < Py.word_count (text it))%Z ->
  _split_into_sentences (text it) = s :: ss ->
  (chunk_size self < Py.word_count s)%Z ->
  exists section more,
    fst (fst (item_step _split_into_sentences now_isoformat self ([], [], general) it))
    = {| content := EmptyString; type := text_type;
         metadata := TextMetadata section 0 0 (now_isoformat 0) |} :: more.
Proof.
  intros Hbuffer Hsplit Hfirst. unfold item_step.
  assert (Hstep : forall section,
    exists more,
      fst (fold_left (sentence_step now_isoformat self section)
             (_split_into_sentences (Py.join " " [text it])) ([], []))
      = {| content := EmptyString; type := text_type;
           metadata := TextMetadata section 0 0 (now_isoformat 0) |} :: more).
  { intros section. cbn [Py.join]. rewrite Hsplit. cbn [fold_left].
    destruct (sentences_grow section ss
                (sentence_step now_isoformat self section ([], []) s))
      as [more Hmore].
    exists more. rewrite Hmore. unfold sentence_step. cbn [app Py.join].
    rewrite (proj2 (Z.gtb_lt _ _) Hfirst). reflexivity. }
  assert (Hgt : (Py.word_count (Py.join " " [text it]) >? chunk_size self)%Z = true).
  { cbn [Py.join]. now apply Z.gtb_lt. }
  destruct (is_header it && negb (category_eqb (section_type it) general));
    cbn [truthy app]; rewrite Hgt.
  - destruct (Hstep (section_type it)) as [more Hmore].
    destruct (fold_left _ _ _) as [chunks' temp_chunk]. cbn [fst] in *.
    now exists (section_type it), more.
  - destruct (Hstep general) as [more Hmore].
    destruct (fold_left _ _ _) as [chunks' temp_chunk]. cbn [fst] in *.
    now exists general, more.
Qed.

Lemma text_chunks_emit_empty_chunk (it : item) (rest : list item)
    (s : string) (ss : list string) :
  (chunk_size self < Py.word_count (text it))%Z ->
  _split_into_sentences (text it) = s :: ss ->
  (chunk_size self < Py.word_count s)%Z ->
  exists section more,
    text_chunks _split_into_sentences now_isoformat self (it :: rest)
    = {| content := EmptyString; type := text_type;
         metadata := TextMetadata section 0 0 (now_isoformat 0) |} :: more.
Proof.
  intros Hbuffer Hsplit Hfirst.
  destruct (first_item_emits_empty_chunk it s ss Hbuffer Hsplit Hfirst)
    as (section & more1 & H1).
  unfold text_chunks. cbn [fold_left].
  destruct (items_grow rest
              (item_step _split_into_sentences now_isoformat self ([], [], general) it))
    as [more2 H2].
  rewrite H1 in H2.
  destruct (fold_left _ rest _) as [[chunks current_chunk] current_section].
  cbn [fst] in H2. subst chunks. exists section.
  destruct (truthy current_chunk).
  - unfold append_chunk. eexists. cbn [app]. reflexivity.
  - eexists. cbn [app]. reflexivity.
Qed.

(** C10. Whenever the first line of a stream has more words than
    [chunk_size] and the first sentence the tokenizer returns for it has more
    words than [chunk_size] too, the first chunk either builder returns is a
    text chunk with empty content, word count 0 and character count 0. *)
Theorem overlong_first_sentence_emits_empty_chunk
    (it : item) (rest : list item) (s : string) (ss : list string)
    (simple_tables : list simple_table) (full_tables : list full_table) (pages : Z) :
  (chunk_size self < Py.word_count (text it))%Z ->
  _split_into_sentences (text it) = s :: ss ->
  (chunk_size self < Py.word_count s)%Z ->
  exists section timestamp more_simple more_full,
    let empty_chunk :=
      {| content := EmptyString; type := text_type;
         metadata := TextMetadata section 0 0 timestamp |} in
    create_chunks _split_into_sentences now_isoformat self
      {| text_content := it :: rest; tables := simple_tables; total_pages := pages |}
    = empty_chunk :: more_simple
    /\ create_semantic_chunks _split_into_sentences now_isoformat self
         {| text_content := it :: rest; tables := full_tables; total_pages := pages |}
       = empty_chunk :: more_full.
Proof.
  intros Hbuffer Hsplit Hfirst.
  destruct (text_chunks_emit_empty_chunk it rest s ss Hbuffer Hsplit Hfirst)
    as (section & more & Htext).
  exists section, (now_isoformat 0).
  unfold create_chunks, create_semantic_chunks. cbn [text_content tables].
  rewrite Htext. cbn [app]. eexists _, _. split; reflexivity.
Qed.

End EmptyChunk.

(** With chunk size 2, the line "one two three. four" has four words and
    its first sentence three: the first chunk is empty. *)
Lemma overlong_first_sentence_emits_empty_chunk_witness :
  exists section timestamp more_simple more_full,
    create_chunks period_sentences fixed_clock (chunker_of_size 2)
      (simple_document ["one two three. four"])
    = {| content := EmptyString; type := text_type;
         metadata := TextMetadata section 0 0 timestamp |} :: more_simple
    /\ create_semantic_chunks period_sentences fixed_clock (chunker_of_size 2)
         (full_document ["one two three. four"])
       = {| content := EmptyString; type := text_type;
            metadata := TextMetadata section 0 0 timestamp |} :: more_full.
Proof.
  apply (overlong_first_sentence_emits_empty_chunk period_sentences fixed_clock
           (chunker_of_size 2) (plain_line "one two three. four") []
           "one two three" ["four"] [] [] 1).
  - vm_compute. reflexivity.
  - reflexivity.
  - vm_compute. reflexivity.
Defined.

(** ** Chunker construction *)

(** C7, as the code has it. Neither constructor looks at the chunk size: the
    simple chunker's constructor always succeeds and stores the chunk size it
    is given, and the full chunker's constructor succeeds with the same
    attributes whenever the two external splitter constructors do, and raises
    only what one of them raises. *)
Theorem chunker_init_accepts_any_chunk_size (size overlap : Z) :
  SimpleInsuranceChunker_init size overlap
  = inr {| chunk_size := size; chunk_overlap := overlap;
           section_keywords := insurance_section_keywords |}
  /\ forall (splitter : Type)
       (RecursiveCharacterTextSplitter : Z -> Z -> list string -> exn + splitter)
       (TokenTextSplitter : Z -> Z -> exn + splitter),
       (forall r t,
           RecursiveCharacterTextSplitter size overlap
             [String "010" (String "010" ""); String "010" ""; ". "; " "; ""] = inr r ->
           TokenTextSplitter size overlap = inr t ->
           InsurancePolicyChunker_init splitter RecursiveCharacterTextSplitter
             TokenTextSplitter size overlap
           = inr ({| chunk_size := size; chunk_overlap := overlap;
                     section_keywords := insurance_section_keywords |}, r, t))
       /\ (forall e,
             InsurancePolicyChunker_init splitter RecursiveCharacterTextSplitter
               TokenTextSplitter size overlap = inl e ->
             RecursiveCharacterTextSplitter size overlap
               [String "010" (String "010" ""); String "010" ""; ". "; " "; ""] = inl e
             \/ TokenTextSplitter size overlap = inl e).
Proof.
  split; [reflexivity|]. intros splitter R T. unfold InsurancePolicyChunker_init. split.
  - intros r t -> ->. reflexivity.
  - intros e. destruct (R _ _ _) as [e1|r]; [intros [= ->]; now left|].
    destruct (T _ _) as [e2|t]; [intros [= ->]; now right | discriminate].
Qed.

(** Chunk size 0 with splitters that accept it. *)
Lemma chunker_init_accepts_any_chunk_size_witness :
  InsurancePolicyChunker_init unit (fun _ _ _ => inr tt) (fun _ _ => inr tt) 0 50
  = inr (chunker_of_size 0, tt, tt).
Proof.
  destruct (chunker_init_accepts_any_chunk_size 0 50) as [_ Hfull].
  destruct (Hfull unit (fun _ _ _ => inr tt) (fun _ _ => inr tt)) as [Hok _].
  apply Hok; reflexivity.
Defined.

(** C7, as stated, fails: constructing the simple chunker with chunk size 0
    raises nothing. *)
Lemma zero_chunk_size_is_accepted :
  ~ exists e : exn, SimpleInsuranceChunker_init 0 50 = inl e.
Proof. intros [e He]. discriminate He. Qed.

(** ** Document pipeline *)

Section PipelineProperties.

Variable T : Type.
Variable extract : string -> extracted_data T * list log_record.
Variable build_chunks : extracted_data T -> list chunk.
Variable self_insurance_terms : list string.
Variable full : bool.
Variable encode : string -> exn + list float.
Variable collection : Type.
Variable collection_add : collection -> add_request -> collection * option exn.
Variable processed_at_now : string -> string.

Local Abbreviation one_pdf :=
  (process_pdf T extract build_chunks self_insurance_terms full encode
               collection collection_add processed_at_now).
Local Abbreviation all_pdfs :=
  (process_pdfs T extract build_chunks self_insurance_terms full encode
                collection collection_add processed_at_now).

Lemma create_embeddings_raises (chunks : list chunk) (c : chunk) (e : exn) :
  In c chunks ->
  encode (content c) = inl e ->
  forall acc, exists e',
    create_embeddings self_insurance_terms full encode chunks acc = inl e'.
Proof.
  intros Hin Hraise. induction chunks as [|c0 chunks IH]; intros acc; [destruct Hin|].
  cbn [create_embeddings].
  destruct (extract_features_total self_insurance_terms full (content c0))
    as (f & ->).
  cbn [bind]. destruct (encode (content c0)) as [e0|v] eqn:Hc0; cbn [bind].
  - now exists e0.
  - destruct Hin as [-> | Hin]; [congruence|]. now apply IH.
Qed.

Lemma create_embeddings_returns (chunks : list chunk) :
  (forall c, In c chunks -> exists v, encode (content c) = inr v) ->
  forall acc, exists enhanced,
    create_embeddings self_insurance_terms full encode chunks acc = inr enhanced
    /\ List.length enhanced = List.length acc + List.length chunks.
Proof.
  induction chunks as [|c0 chunks IH]; intros Hall acc; cbn [create_embeddings].
  - exists acc. split; [reflexivity | simpl; lia].
  - destruct (extract_features_total self_insurance_terms full (content c0))
      as (f & ->).
    destruct (Hall c0 ltac:(now left)) as [v ->]. cbn [bind].
    destruct (IH ltac:(intros c Hc; apply Hall; now right)
                 (acc ++ [{| base_chunk := c0; chunk_embedding := v;
                             chunk_features := f;
                             semantic_score :=
                               _calculate_semantic_score self_insurance_terms
                                 (content c0) |}]))
      as (enhanced & -> & Hlen).
    exists enhanced. split; [reflexivity|].
    rewrite length_app in Hlen. simpl in *. lia.
Qed.

Lemma process_pdf_log (st : rag_system collection) (f : pdf_file) :
  exists more,
    log (one_pdf st f) = log st ++ announcement f :: more.
Proof.
  unfold process_pdf, announcement.
  destruct (extract (file_path_str f)) as [data extraction_log].
  destruct (create_embeddings _ _ _ _ _) as [e|enhanced].
  { cbn [log]. rewrite <- !app_assoc. eexists. reflexivity. }
  destruct (_store_chunks _ _ _ _ _ _) as [coll [e|]].
  { cbn [log]. rewrite <- !app_assoc. eexists. reflexivity. }
  destruct (st_size f) as [e|size];
    cbn [log]; rewrite <- !app_assoc; eexists; reflexivity.
Qed.

Lemma process_pdfs_log (files : list pdf_file) (st : rag_system collection) :
  exists more, log (all_pdfs st files) = log st ++ more.
Proof.
  revert st. induction files as [|f files IH]; intros st.
  - exists []. now rewrite app_nil_r.
  - unfold process_pdfs in *. cbn [fold_left].
    destruct (IH (one_pdf st f)) as [more2 H2].
    destruct (process_pdf_log st f) as [more1 H1].
    rewrite H2, H1, <- app_assoc. eexists. reflexivity.
Qed.

Lemma process_pdfs_announces (files : list pdf_file) (st : rag_system collection)
    (f : pdf_file) :
  In f files -> In (announcement f) (log (all_pdfs st files)).
Proof.
  revert st. induction files as [|f0 files IH]; intros st Hin; [destruct Hin|].
  unfold process_pdfs in *. cbn [fold_left].
  destruct Hin as [-> | Hin]; [|now apply IH].
  destruct (process_pdfs_log files (one_pdf st f)) as [more2 H2].
  destruct (process_pdf_log st f) as [more1 H1].
  unfold process_pdfs in H2. rewrite H2, H1.
  apply in_or_app. left. apply in_or_app. right. now left.
Qed.

Lemma process_pdf_other_entries (st : rag_system collection) (f : pdf_file)
    (other : string) :
  other <> name f ->
  processed_docs (one_pdf st f) !! other = processed_docs st !! other.
Proof.
  intros Hother. unfold process_pdf.
  destruct (extract (file_path_str f)) as [data extraction_log].
  destruct (create_embeddings _ _ _ _ _) as [e|enhanced]; [reflexivity|].
  destruct (_store_chunks _ _ _ _ _ _) as [coll [e|]]; [reflexivity|].
  destruct (st_size f) as [e|size]; [reflexivity|].
  cbn [processed_docs]. now apply lookup_insert_ne.
Qed.

Lemma process_pdf_embedding_failure (st : rag_system collection) (f : pdf_file)
    (c : chunk) (e : exn) :
  In c (build_chunks (fst (extract (file_path_str f)))) ->
  encode (content c) = inl e ->
  exists e',
    one_pdf st f
    = {| self_collection := self_collection st;
         processed_docs := processed_docs st;
         log := (log st ++ [announcement f]) ++ snd (extract (file_path_str f))
                ++ [processing_error f e'] |}.
Proof.
  intros Hin Hraise. unfold process_pdf, announcement.
  destruct (extract (file_path_str f)) as [data extraction_log]. cbn [fst snd] in *.
  destruct (create_embeddings_raises _ c e Hin Hraise []) as [e' ->].
  exists e'. now rewrite <- !app_assoc.
Qed.

Lemma process_pdf_registers (st : rag_system collection) (f : pdf_file)
    (enhanced : list enhanced_chunk) (coll : collection) (size : Z) :
  create_embeddings self_insurance_terms full encode
    (build_chunks (fst (extract (file_path_str f)))) [] = inr enhanced ->
  _store_chunks collection collection_add (self_collection st) 0 enhanced (name f)
  = (coll, None) ->
  st_size f = inr size ->
  self_collection (one_pdf st f) = coll
  /\ processed_docs (one_pdf st f) !! name f
     = Some (registered_doc f enhanced (total_pages (fst (extract (file_path_str f))))
               size (processed_at_now (name f)))
  /\ forall entry, In entry (snd (extract (file_path_str f))) ->
                   In entry (log (one_pdf st f)).
Proof.
  intros Hembed Hstore Hsize. unfold process_pdf.
  destruct (extract (file_path_str f)) as [data extraction_log]. cbn [fst snd] in *.
  rewrite Hembed, Hstore, Hsize. cbn [self_collection processed_docs log].
  split; [reflexivity|]. split; [apply lookup_insert_eq|].
  intros entry Hentry. apply in_or_app. left. apply in_or_app. now right.
Qed.

End PipelineProperties.

Lemma process_pdfs_continues (T : Type)
    (extract : string -> extracted_data T * list log_record)
    (build_chunks : extracted_data T -> list chunk)
    (terms : list string) (full : bool) (encode : string -> exn + list float)
    (collection : Type)
    (collection_add : collection -> add_request -> collection * option exn)
    (processed_at_now : string -> string) :
  batch_continues
    (process_pdfs T extract build_chunks terms full encode collection
                  collection_add processed_at_now).
Proof.
  split; [|split].
  - intros st before f after. unfold process_pdfs.
    now rewrite fold_left_app.
  - intros st files f. apply process_pdfs_announces.
  - intros st f other. unfold process_pdfs. cbn [fold_left].
    apply process_pdf_other_entries.
Qed.

Lemma embedding_failure_is_skipped (T : Type)
    (extract : string -> extracted_data T * list log_record)
    (build_chunks : extracted_data T -> list chunk)
    (terms : list string) (full : bool) (encode : string -> exn + list float)
    (collection : Type)
    (collection_add : collection -> add_request -> collection * option exn)
    (processed_at_now : string -> string)
    (st : rag_system collection) (f : pdf_file) (c : chunk) (e : exn) :
  In c (build_chunks (fst (extract (file_path_str f)))) ->
  encode (content c) = inl e ->
  embedding_failure_skips st
    (process_pdfs T extract build_chunks terms full encode collection
                  collection_add processed_at_now st [f]) f.
Proof.
  intros Hin Hraise. unfold process_pdfs. cbn [fold_left].
  destruct (process_pdf_embedding_failure T extract build_chunks terms full encode
              collection collection_add processed_at_now st f c e Hin Hraise)
    as [e' ->].
  unfold embedding_failure_skips, skipped. cbn [processed_docs self_collection log].
  repeat (split; [reflexivity|]).
  exists e'. apply in_or_app. right. apply in_or_app. right. now left.
Qed.

Section SystemProperties.

Variable _split_into_sentences : string -> list string.
Variable now_isoformat : nat -> string.
Variable pdfplumber_open : string -> exn + list pdf_page.
Variable extract_tables_from_pdf : string -> list full_table * list log_record.
Variable encode : string -> exn + list float.
Variable collection : Type.
Variable collection_add : collection -> add_request -> collection * option exn.
Variable processed_at_now : string -> string.

Local Abbreviation simple_run :=
  (simple_process_pdfs _split_into_sentences now_isoformat pdfplumber_open
     encode collection collection_add processed_at_now).
Local Abbreviation full_run :=
  (full_process_pdfs _split_into_sentences now_isoformat pdfplumber_open
     extract_tables_from_pdf encode collection collection_add processed_at_now).
Local Abbreviation simple_chunks_of path :=
  (create_chunks _split_into_sentences now_isoformat default_chunker
     (fst (extract_text_from_pdf default_chunker pdfplumber_open path))).
Local Abbreviation full_chunks_of path :=
  (create_semantic_chunks _split_into_sentences now_isoformat default_chunker
     (fst (extract_text_with_structure default_chunker pdfplumber_open
             extract_tables_from_pdf path))).

Lemma simple_unopened_pdf_is_registered (st : rag_system collection) (f : pdf_file)
    (e : exn) (size : Z) :
  pdfplumber_open (file_path_str f) = inl e ->
  st_size f = inr size ->
  In (extraction_error (file_path_str f) e) (log (simple_run st [f]))
  /\ processed_docs (simple_run st [f]) !! name f
     = Some (empty_doc f size (processed_at_now (name f)))
  /\ self_collection (simple_run st [f]) = self_collection st.
Proof.
  intros Hopen Hsize. unfold simple_process_pdfs, process_pdfs. cbn [fold_left].
  unfold process_pdf, extract_text_from_pdf. rewrite Hopen.
  cbn [create_chunks text_content tables text_chunks fold_left truthy map app
       create_embeddings _store_chunks].
  rewrite Hsize. cbn [log processed_docs self_collection total_pages List.length].
  split; [|split].
  - apply in_or_app. left. apply in_or_app. right. now left.
  - apply lookup_insert_eq.
  - reflexivity.
Qed.

Lemma full_unopened_pdf_is_registered (st : rag_system collection) (f : pdf_file)
    (e : exn) (size : Z) (warnings : list log_record) :
  pdfplumber_open (file_path_str f) = inl e ->
  extract_tables_from_pdf (file_path_str f) = ([], warnings) ->
  st_size f = inr size ->
  In (extraction_error (file_path_str f) e) (log (full_run st [f]))
  /\ processed_docs (full_run st [f]) !! name f
     = Some (empty_doc f size (processed_at_now (name f)))
  /\ self_collection (full_run st [f]) = self_collection st.
Proof.
  intros Hopen Htables Hsize. unfold full_process_pdfs, process_pdfs. cbn [fold_left].
  unfold process_pdf, extract_text_with_structure. rewrite Htables, Hopen.
  cbn [create_semantic_chunks text_content tables text_chunks fold_left truthy map app
       create_embeddings _store_chunks].
  rewrite Hsize. cbn [log processed_docs self_collection total_pages List.length].
  split; [|split].
  - apply in_or_app. left. apply in_or_app. right. apply in_or_app. right. now left.
  - apply lookup_insert_eq.
  - reflexivity.
Qed.

Lemma simple_extraction_error_logged (pdf_path : string) (e : exn) :
  simple_extraction_raises pdfplumber_open pdf_path e ->
  In (extraction_error pdf_path e)
     (snd (extract_text_from_pdf default_chunker pdfplumber_open pdf_path)).
Proof.
  unfold extract_text_from_pdf.
  intros [Hopen | (pages & Hopen & Hraise)]; rewrite Hopen.
  - now left.
  - destruct (simple_pages default_chunker 0 pages [] []) as [[tc tb] raised].
    cbn [snd] in *. subst raised. now left.
Qed.

Lemma full_extraction_error_logged (pdf_path : string) (e : exn) :
  full_extraction_raises pdfplumber_open pdf_path e ->
  In (extraction_error pdf_path e)
     (snd (extract_text_with_structure default_chunker pdfplumber_open
             extract_tables_from_pdf pdf_path)).
Proof.
  unfold extract_text_with_structure.
  destruct (extract_tables_from_pdf pdf_path) as [tables warnings].
  intros [Hopen | (pages & Hopen & Hraise)]; rewrite Hopen.
  - cbn [snd]. apply in_or_app. right. now left.
  - destruct (full_pages default_chunker 0 pages []) as [tc raised].
    cbn [snd] in *. subst raised. apply in_or_app. right. now left.
Qed.


End SystemProperties.

Lemma accepting_store_stores_all (chunks : list enhanced_chunk) (i : nat)
    (source_file : string) :
  _store_chunks unit accepting_store tt i chunks source_file = (tt, None).
Proof.
  revert i. induction chunks as [|c chunks IH]; intros i; [reflexivity|].
  cbn [_store_chunks accepting_store]. apply IH.
Qed.



(** ** Semantic score *)

Lemma rep_match_all (p : ascii -> bool) (s : string) :
  exists rest,
    rep_match p 0 None s Some = Some rest
    /\ String.length rest <= String.length s
    /\ (p = Py.is_digit -> rest = drop_digits s).
Proof.
  induction s as [|c s IH]; cbn [rep_match].
  - exists EmptyString. auto.
  - destruct IH as (rest & Hrest & Hlen & Hdrop). cbn [Nat.pred option_map].
    destruct (p c) eqn:Hc; cbn [andb].
    + rewrite Hrest. exists rest. split; [reflexivity|]. split; [simpl; lia|].
      intros ->. cbn [drop_digits]. rewrite Hc. now apply Hdrop.
    + exists (String c s). split; [reflexivity|]. split; [lia|].
      intros ->. cbn [drop_digits]. now rewrite Hc.
Qed.

Lemma digit_runs_after_run (s : string) :
  digit_runs_from true s = digit_runs_from false (drop_digits s).
Proof.
  induction s as [|c s IH]; [reflexivity|].
  cbn [digit_runs_from drop_digits]. destruct (Py.is_digit c) eqn:Hc.
  - exact IH.
  - cbn [digit_runs_from]. now rewrite Hc.
Qed.

Lemma drop_digits_length (s : string) :
  String.length (drop_digits s) <= String.length s.
Proof.
  induction s as [|c s IH]; [simpl; lia|].
  cbn [drop_digits]. destruct (Py.is_digit c); simpl in *; lia.
Qed.

Lemma match_digits (s : string) :
  match_here digits_pattern s Some
  = match s with
    | String c s' => if Py.is_digit c then Some (drop_digits s') else None
    | EmptyString => None
    end.
Proof.
  unfold digits_pattern. cbn [match_here]. destruct s as [|c s]; [reflexivity|].
  cbn [rep_match Nat.pred option_map]. destruct (Py.is_digit c); cbn [andb]; [|reflexivity].
  destruct (rep_match_all Py.is_digit s) as (rest & -> & _ & Hrest).
  now rewrite (Hrest eq_refl).
Qed.

Lemma findall_digits_count (fuel : nat) : forall s : string,
  String.length s < fuel ->
  List.length (findall_go fuel digits_pattern s) = digit_runs_from false s.
Proof.
  induction fuel as [|fuel IH]; intros s Hfuel; [lia|].
  cbn [findall_go]. rewrite match_digits.
  destruct s as [|c s]; [reflexivity|].
  cbn [digit_runs_from]. destruct (Py.is_digit c).
  - pose proof (drop_digits_length s) as Hlen.
    destruct (String.length (String c s) - String.length (drop_digits s)) eqn:Hsub.
    { simpl in Hsub. lia. }
    cbn [List.length]. rewrite IH by (simpl in Hfuel; lia).
    now rewrite digit_runs_after_run.
  - apply IH. simpl in Hfuel. lia.
Qed.

Lemma split_go_length (s cur : string) :
  List.length (Py.split_go cur s)
  <= String.length s + List.length (Py.flush cur).
Proof.
  revert cur. induction s as [|c s IH]; intros cur; cbn [Py.split_go].
  - simpl. lia.
  - destruct (Py.is_space c).
    + rewrite length_app. specialize (IH EmptyString). simpl in *. lia.
    + specialize (IH (cur +:+ String c EmptyString)).
      assert (Hflush : List.length (Py.flush (cur +:+ String c EmptyString)) <= 1).
      { unfold Py.flush. destruct (cur +:+ String c EmptyString); simpl; lia. }
      assert (Hcur : List.length (Py.flush cur) <= 1).
      { unfold Py.flush. destruct cur; simpl; lia. }
      simpl. lia.
Qed.

Lemma word_count_le_length (text : string) :
  (Py.word_count text <= Z.of_nat (String.length text))%Z.
Proof.
  unfold Py.word_count, Py.split.
  pose proof (split_go_length text EmptyString) as H. simpl in H. lia.
Qed.

Lemma count_present_range (xs : list string) (text : string) :
  (0 <= count_present xs text <= Z.of_nat (List.length xs))%Z.
Proof.
  unfold count_present.
  pose proof (List.filter_length_le (fun x => Py.contains x text) xs). lia.
Qed.

(** *** Sign and finiteness of binary64 results *)

Section FloatFacts.
Local Open Scope Z_scope.

Lemma shr_1_nonneg mrs : 0 <= shr_m mrs -> 0 <= shr_m (shr_1 mrs).
Proof. destruct mrs as [[|[p|p|]|p] r s]; simpl; lia. Qed.

Lemma iter_pos_preserves {A : Type} (P : A -> Prop) (f : A -> A) :
  (forall x, P x -> P (f x)) -> forall n x, P x -> P (SpecFloat.iter_pos f n x).
Proof.
  intros Hf. induction n as [n IH|n IH|]; intros x Hx; simpl; auto.
Qed.

Lemma shr_m_record_of_loc m l : shr_m (shr_record_of_loc m l) = m.
Proof. destruct l as [|[]]; reflexivity. Qed.

Lemma shr_fexp_nonneg m e l :
  0 <= m -> 0 <= shr_m (fst (shr_fexp prec emax m e l)).
Proof.
  intros Hm. unfold shr_fexp, shr.
  destruct (fexp prec emax (Zdigits2 m + e) - e) as [|n|n]; simpl;
    rewrite ?shr_m_record_of_loc; auto.
  apply (iter_pos_preserves (fun mrs => 0 <= shr_m mrs)).
  - apply shr_1_nonneg.
  - now rewrite shr_m_record_of_loc.
Qed.

Lemma round_nearest_even_ge m l : m <= round_nearest_even m l <= m + 1.
Proof. destruct l as [|[]]; simpl; try lia. destruct (Z.even m); lia. Qed.

Lemma binary_round_aux_sign s m e l :
  0 <= m -> signed_non_nan s (binary_round_aux prec emax s m e l).
Proof.
  intros Hm. unfold binary_round_aux.
  pose proof (shr_fexp_nonneg m e l Hm) as H1.
  destruct (shr_fexp prec emax m e l) as [mrs' e']. simpl in H1.
  pose proof (round_nearest_even_ge (shr_m mrs') (loc_of_shr_record mrs')) as H2.
  pose proof (shr_fexp_nonneg (round_nearest_even (shr_m mrs') (loc_of_shr_record mrs'))
                e' loc_Exact ltac:(lia)) as H3.
  destruct (shr_fexp prec emax _ e' loc_Exact) as [mrs'' e'']. simpl in H3.
  destruct (shr_m mrs'') as [|p|p]; simpl; try lia; auto.
  destruct (_ <=? _); simpl; auto.
Qed.

Lemma binary_round_sign s m e : signed_non_nan s (binary_round prec emax s m e).
Proof.
  unfold binary_round. destruct (shl_align _ _ _) as [mz ez].
  apply binary_round_aux_sign. lia.
Qed.

Lemma signed_nonneg x : signed_non_nan false x -> nonneg_sf x.
Proof. destruct x; simpl; auto. Qed.

Lemma binary_normalize_nonneg z e :
  0 <= z -> nonneg_sf (binary_normalize prec emax z e false).
Proof.
  intros Hz. destruct z as [|p|p]; simpl; auto; [|lia].
  apply signed_nonneg, binary_round_sign.
Qed.

Lemma SFmul_nonneg x y :
  nonneg_sf x -> positive_finite_sf y -> nonneg_sf (SF64mul x y).
Proof.
  destruct x as [sx|sx| |sx mx ex], y as [sy|sy| |[] my ey]; simpl; try tauto.
  - intros -> _. reflexivity.
  - intros -> _. apply signed_nonneg, binary_round_aux_sign. lia.
Qed.

Lemma SFadd_nonneg x y :
  nonneg_sf x -> nonneg_sf y -> nonneg_sf (SF64add x y).
Proof.
  destruct x as [sx|sx| |sx mx ex], y as [sy|sy| |sy my ey]; simpl; try tauto;
    try (intros -> ->; simpl; auto; fail); try (intros _ ->; simpl; auto; fail);
    try (intros -> _; simpl; auto; fail).
  - intros _ _. destruct sx, sy; simpl; auto.
  - intros -> ->. unfold SF64add, SFadd. simpl cond_Zopp.
    apply binary_normalize_nonneg. lia.
Qed.

Lemma SFdiv_nonneg x y :
  nonneg_sf x -> positive_finite_sf y -> nonneg_sf (SF64div x y).
Proof.
  destruct x as [sx|sx| |sx mx ex], y as [sy|sy| |[] my ey]; simpl; try tauto.
  - intros -> _. reflexivity.
  - intros -> _. unfold SF64div, SFdiv.
    destruct (SFdiv_core_binary prec emax (Z.pos mx) ex (Z.pos my) ey) as [[mz ez] lz] eqn:Hcore.
    apply signed_nonneg, binary_round_aux_sign.
    unfold SFdiv_core_binary in Hcore.
    set (m' := match _ - _ - _ with Z0 => Z.pos mx | Z.pos _ => _ | Z.neg _ => 0 end) in Hcore.
    assert (Hm' : 0 <= m').
    { subst m'. destruct (_ - _ - _); try lia. apply Z.shiftl_nonneg. lia. }
    pose proof (Z.div_pos m' (Z.pos my) Hm' ltac:(lia)) as Hq.
    unfold Z.div in Hq. destruct (Z.div_eucl m' (Z.pos my)) as [q r].
    injection Hcore as <- _ _. exact Hq.
Qed.

Lemma digits2_pos_bounds p :
  2 ^ (Z.pos (digits2_pos p) - 1) <= Z.pos p < 2 ^ Z.pos (digits2_pos p).
Proof.
  induction p as [p IH|p IH|]; cbn [digits2_pos].
  - rewrite Pos2Z.inj_succ. replace (Z.succ (Z.pos (digits2_pos p)) - 1)
      with (Z.succ (Z.pos (digits2_pos p) - 1)) by lia.
    rewrite !Z.pow_succ_r by lia. lia.
  - rewrite Pos2Z.inj_succ. replace (Z.succ (Z.pos (digits2_pos p)) - 1)
      with (Z.succ (Z.pos (digits2_pos p) - 1)) by lia.
    rewrite !Z.pow_succ_r by lia. lia.
  - simpl. lia.
Qed.

Lemma Zdigits2_le m k :
  0 < m < 2 ^ k -> 0 <= k -> 1 <= Zdigits2 m <= k.
Proof.
  intros [Hpos Hlt] Hk. destruct m as [|p|p]; try lia. cbn [Zdigits2].
  pose proof (digits2_pos_bounds p) as [Hlow _].
  split; [lia|].
  assert (H : 2 ^ (Z.pos (digits2_pos p) - 1) < 2 ^ k) by lia.
  apply Z.pow_lt_mono_r_iff in H; lia.
Qed.

Lemma shr_1_halves k mrs :
  0 <= k -> 2 ^ (k + 1) <= shr_m mrs -> 2 ^ k <= shr_m (shr_1 mrs).
Proof.
  intros Hk. rewrite Z.pow_add_r, Z.pow_1_r by lia.
  pose proof (Z.pow_pos_nonneg 2 k ltac:(lia) Hk).
  destruct mrs as [[|[p|p|]|p] r s]; simpl; lia.
Qed.

Lemma iter_shr_1_keeps n : forall k mrs,
  0 <= k -> 2 ^ (k + Z.pos n) <= shr_m mrs -> 2 ^ k <= shr_m (SpecFloat.iter_pos shr_1 n mrs).
Proof.
  induction n as [n IH|n IH|]; intros k mrs Hk Hm; cbn [SpecFloat.iter_pos].
  - apply IH; [lia|]. apply IH; [lia|]. apply shr_1_halves; [lia|].
    replace (k + Z.pos n + Z.pos n + 1) with (k + Z.pos n~1) by lia. exact Hm.
  - apply IH; [lia|]. apply IH; [lia|].
    replace (k + Z.pos n + Z.pos n) with (k + Z.pos n~0) by lia. exact Hm.
  - now apply shr_1_halves.
Qed.

Lemma shr_1_le mrs : 0 <= shr_m mrs -> 0 <= shr_m (shr_1 mrs) <= shr_m mrs.
Proof. destruct mrs as [[|[p|p|]|p] r s]; simpl; lia. Qed.

Lemma iter_shr_1_le n mrs :
  0 <= shr_m mrs -> 0 <= shr_m (SpecFloat.iter_pos shr_1 n mrs) <= shr_m mrs.
Proof.
  intros Hm.
  apply (iter_pos_preserves (fun x => 0 <= shr_m x <= shr_m mrs)); [|lia].
  intros x Hx. pose proof (shr_1_le x ltac:(lia)). lia.
Qed.

Lemma shr_fexp_positive m e l :
  0 < m -> -1074 <= e ->
  0 < shr_m (fst (shr_fexp prec emax m e l)) <= m
  /\ e <= snd (shr_fexp prec emax m e l) <= Z.max e (Zdigits2 m + e - 53).
Proof.
  intros Hm He. unfold shr_fexp, shr, fexp, emin, prec, emax.
  destruct m as [|p|p]; try lia. cbn [Zdigits2].
  pose proof (digits2_pos_bounds p) as [Hlow _].
  destruct (Z.max (Z.pos (digits2_pos p) + e - 53) (3 - 1024 - 53) - e)
    as [|n|n] eqn:Hn; cbn [fst snd]; rewrite ?shr_m_record_of_loc; try lia.
  pose proof (iter_shr_1_le n (shr_record_of_loc (Z.pos p) l)) as Hle.
  rewrite shr_m_record_of_loc in Hle.
  pose proof (iter_shr_1_keeps n 0 (shr_record_of_loc (Z.pos p) l) ltac:(lia)) as Hkeep.
  rewrite shr_m_record_of_loc in Hkeep.
  assert (Hpow : 2 ^ (0 + Z.pos n) <= Z.pos p).
  { apply Z.le_trans with (2 ^ (Z.pos (digits2_pos p) - 1)); [|exact Hlow].
    apply Z.pow_le_mono_r; lia. }
  specialize (Hkeep Hpow). simpl in Hkeep. lia.
Qed.

Lemma binary_round_aux_finite s m e l :
  0 < m < 2 ^ 64 -> -1074 <= e <= 900 ->
  exists m' e', binary_round_aux prec emax s m e l = S754_finite s m' e'.
Proof.
  intros Hm He. unfold binary_round_aux.
  pose proof (shr_fexp_positive m e l ltac:(lia) ltac:(lia)) as [H1 H1e].
  pose proof (Zdigits2_le m 64 Hm ltac:(lia)) as Hd.
  destruct (shr_fexp prec emax m e l) as [mrs' e']. cbn [fst snd] in *.
  pose proof (round_nearest_even_ge (shr_m mrs') (loc_of_shr_record mrs')) as H2.
  set (m2 := round_nearest_even (shr_m mrs') (loc_of_shr_record mrs')) in *.
  pose proof (shr_fexp_positive m2 e' loc_Exact ltac:(lia) ltac:(lia)) as [H3 H3e].
  assert (Hm2 : 0 < m2 < 2 ^ 65).
  { change (2 ^ 65) with (2 * 2 ^ 64). lia. }
  pose proof (Zdigits2_le m2 65 Hm2 ltac:(lia)) as Hd2.
  destruct (shr_fexp prec emax m2 e' loc_Exact) as [mrs'' e'']. cbn [fst snd] in *.
  destruct (shr_m mrs'') as [|p|p]; try lia.
  destruct (Z.leb_spec e'' (emax - prec)) as [_|Hover].
  - now exists p, e''.
  - unfold emax, prec in Hover. lia.
Qed.

Lemma iter_xO_pow p d : Z.pos (Pos.iter xO p d) = Z.pos p * 2 ^ Z.pos d.
Proof.
  rewrite (Pos.iter_swap_gen _ _ Z.pos xO (Z.mul 2)) by reflexivity.
  change (Pos.iter (Z.mul 2) (Z.pos p) d) with (Z.shiftl (Z.pos p) (Z.pos d)).
  apply Z.shiftl_mul_pow2. lia.
Qed.

Lemma binary_normalize_positive_finite z :
  1 <= z < 2 ^ 63 ->
  positive_finite_sf (binary_normalize prec emax z 0 false).
Proof.
  intros Hz. destruct z as [|p|p]; try lia. cbn [binary_normalize].
  unfold binary_round.
  pose proof (digits2_pos_bounds p) as [Hlow Hup].
  pose proof (Zdigits2_le (Z.pos p) 63 ltac:(lia) ltac:(lia)) as Hd.
  cbn [Zdigits2] in Hd.
  assert (Hshl : exists mz ez,
    shl_align p 0 (fexp prec emax (Z.pos (digits2_pos p) + 0)) = (mz, ez)
    /\ 0 < Z.pos mz < 2 ^ 64 /\ -1074 <= ez <= 900).
  { unfold shl_align, fexp, emin, prec, emax.
    destruct (Z.max (Z.pos (digits2_pos p) + 0 - 53) (3 - 1024 - 53) - 0)
      as [|d|d] eqn:Hshift.
    - exists p, 0. repeat split; lia.
    - exists p, 0. repeat split; lia.
    - eexists _, _. split; [reflexivity|]. split; [|lia].
      rewrite iter_xO_pow. split; [lia|].
      assert (Hd53 : Z.pos d = 53 - Z.pos (digits2_pos p)) by lia.
      apply Z.lt_trans with (2 ^ Z.pos (digits2_pos p) * 2 ^ Z.pos d).
      + apply Z.mul_lt_mono_pos_r; [apply Z.pow_pos_nonneg; lia | exact Hup].
      + rewrite <- Z.pow_add_r by lia.
        replace (Z.pos (digits2_pos p) + Z.pos d) with 53 by lia. reflexivity. }
  destruct Hshl as (mz & ez & -> & Hmz & Hez).
  destruct (binary_round_aux_finite false (Z.pos mz) ez loc_Exact Hmz Hez)
    as (m' & e' & ->).
  exact I.
Qed.

Lemma SFltb_false_SFleb x y :
  non_nan_sf x -> non_nan_sf y -> SFltb y x = false -> SFleb x y = true.
Proof.
  unfold SFltb, SFleb, SFcompare.
  destruct x as [[]|[]| |[] mx ex], y as [[]|[]| |[] my ey]; simpl;
    try tauto; try discriminate; intros _ _.
  - rewrite (Z.compare_antisym ex ey).
    pose proof (Pos.compare_cont_antisym my mx Eq) as Hanti.
    cbn [CompOpp] in Hanti. rewrite <- Hanti.
    destruct (ex ?= ey); simpl; try discriminate; auto.
    destruct (Pos.compare_cont Eq my mx); simpl; try discriminate; auto.
  - rewrite (Z.compare_antisym ex ey).
    pose proof (Pos.compare_cont_antisym my mx Eq) as Hanti.
    cbn [CompOpp] in Hanti. rewrite <- Hanti.
    destruct (ex ?= ey); simpl; try discriminate; auto.
    destruct (Pos.compare_cont Eq my mx); simpl; try discriminate; auto.
Qed.

Lemma nonneg_non_nan x : nonneg_sf x -> non_nan_sf x.
Proof. destruct x; simpl; auto. Qed.

Lemma leb_zero_nonneg (x : float) :
  nonneg_sf (Prim2SF x) -> (0 <=? x)%float = true.
Proof.
  rewrite FloatAxioms.leb_spec. change (Prim2SF 0) with (S754_zero false).
  destruct (Prim2SF x) as [s|s| |s m e]; simpl; try tauto; intros ->; reflexivity.
Qed.

Lemma of_uint63_nonneg (i : int) : nonneg_sf (Prim2SF (of_uint63 i)).
Proof.
  rewrite of_uint63_spec. apply binary_normalize_nonneg.
  pose proof (Uint63.to_Z_bounded i). lia.
Qed.

Lemma of_uint63_positive (z : Z) :
  1 <= z < 2 ^ 63 -> positive_finite_sf (Prim2SF (of_uint63 (Uint63.of_Z z))).
Proof.
  intros Hz. rewrite of_uint63_spec, Uint63.of_Z_spec.
  rewrite Z.mod_small by (change wB with (2 ^ 63); lia).
  now apply binary_normalize_positive_finite.
Qed.

End FloatFacts.

Lemma tenth_positive_finite : positive_finite_sf (Prim2SF 0.1).
Proof. vm_compute. exact I. Qed.

Lemma float_of_int_nonneg (z : Z) : nonneg_sf (Prim2SF (float_of_int z)).
Proof. apply of_uint63_nonneg. Qed.

Lemma py_min_one_range (t : float) :
  nonneg_sf (Prim2SF t) ->
  (0 <=? py_min t 1)%float = true /\ (py_min t 1 <=? 1)%float = true.
Proof.
  intros Ht. unfold py_min. destruct (1 <? t)%float eqn:Hlt.
  - split; reflexivity.
  - split; [now apply leb_zero_nonneg|].
    rewrite FloatAxioms.leb_spec. apply SFltb_false_SFleb.
    + now apply nonneg_non_nan.
    + vm_compute. exact I.
    + now rewrite <- FloatAxioms.ltb_spec.
Qed.

(** C6, as the code has it. For every text shorter than 2^63 characters the
    score is [(term_score + legal_boost + numerical_boost) / max(word_count, 1)]
    clamped to at most 1.0 and lies in [0, 1], where [term_score] is the
    number of vocabulary terms present, [legal_boost] is the number of the
    five legal words present (each counted once, however often it occurs),
    and [numerical_boost] is the number of maximal digit runs times 0.1. *)
Theorem semantic_score_formula_and_range (terms : list string) (text : string) :
  (Z.of_nat (String.length text) < 2 ^ 63)%Z ->
  let term_score := count_present terms (Py.lower text) in
  let legal_boost := count_present legal_words (Py.lower text) in
  let numerical_boost := (float_of_int (Z.of_nat (digit_runs text)) * 0.1)%float in
  let score := _calculate_semantic_score terms text in
  score = py_min ((float_of_int (term_score + legal_boost) + numerical_boost)
                  / float_of_int (Z.max (Py.word_count text) 1))%float 1%float
  /\ (0 <= term_score <= Z.of_nat (List.length terms))%Z
  /\ (0 <= legal_boost <= 5)%Z
  /\ (0 <=? score)%float = true
  /\ (score <=? 1)%float = true.
Proof.
  intros Hlen term_score legal_boost numerical_boost score.
  assert (Hscore :
    score = py_min ((float_of_int (term_score + legal_boost) + numerical_boost)
                    / float_of_int (Z.max (Py.word_count text) 1))%float 1%float).
  { subst score numerical_boost. unfold _calculate_semantic_score, findall, digit_runs.
    now rewrite findall_digits_count by lia. }
  split; [exact Hscore|].
  split; [apply count_present_range|].
  split; [apply (count_present_range legal_words)|].
  rewrite Hscore. apply py_min_one_range.
  rewrite FloatAxioms.div_spec, FloatAxioms.add_spec. apply SFdiv_nonneg.
  - apply SFadd_nonneg; [apply float_of_int_nonneg|].
    subst numerical_boost. rewrite FloatAxioms.mul_spec.
    apply SFmul_nonneg; [apply float_of_int_nonneg | apply tenth_positive_finite].
  - apply of_uint63_positive.
    pose proof (word_count_le_length text). lia.
Qed.

(** The fixture line: one term, no legal word, seven digit runs, nine words. *)
Lemma semantic_score_formula_and_range_witness :
  _calculate_semantic_score full_insurance_terms premium_fixture
  = py_min ((float_of_int (1 + 0) + float_of_int 7 * 0.1) / float_of_int 9)%float 1%float
  /\ (0 <=? _calculate_semantic_score full_insurance_terms premium_fixture)%float = true
  /\ (_calculate_semantic_score full_insurance_terms premium_fixture <=? 1)%float = true.
Proof.
  destruct (semantic_score_formula_and_range full_insurance_terms premium_fixture)
    as (Hformula & _ & _ & Hlow & Hhigh).
  - vm_compute. reflexivity.
  - split; [exact Hformula|]. split; [exact Hlow | exact Hhigh].
Defined.

(** C6, as stated, fails: in "shall shall" the legal word occurs twice, which
    makes the specified score 1.0, and the code scores 0.5. *)
Lemma repeated_legal_word_counts_once :
  legal_word_occurrences "shall shall" = 2%Z
  /\ _calculate_semantic_score simple_insurance_terms "shall shall" = 0.5%float
  /\ semantic_score_as_specified simple_insurance_terms "shall shall" = 1%float
  /\ _calculate_semantic_score simple_insurance_terms "shall shall"
     <> semantic_score_as_specified simple_insurance_terms "shall shall".
Proof.
  split; [reflexivity|]. split; [reflexivity|]. split; [reflexivity|].
  intros H. apply (f_equal (fun x => (x <? 1)%float)) in H.
  vm_compute in H. discriminate H.
Qed.
(** * Further properties *)

(** ** Words of a joined buffer *)

Lemma split_go_space (s1 s2 cur : string) :
  Py.split_go cur (s1 +:+ String " " s2)
  = Py.split_go cur s1 ++ Py.split_go EmptyString s2.
Proof.
  revert cur. induction s1 as [|c s1 IH]; intros cur.
  - reflexivity.
  - change (String c s1 +:+ String " " s2) with (String c (s1 +:+ String " " s2)).
    cbn [Py.split_go]. destruct (Py.is_space c).
    + now rewrite IH, app_assoc.
    + apply IH.
Qed.

Lemma split_join (l : list string) :
  Py.split (Py.join " " l) = concat (map Py.split l).
Proof.
  induction l as [|x [|y l] IH].
  - reflexivity.
  - cbn [Py.join map concat]. now rewrite app_nil_r.
  - change (Py.join " " (x :: y :: l)) with (x +:+ String " " (Py.join " " (y :: l))).
    unfold Py.split in *. rewrite split_go_space, IH. reflexivity.
Qed.

Lemma split_join_snoc (l : list string) (x : string) :
  Py.split (Py.join " " (l ++ [x])) = Py.split (Py.join " " l) ++ Py.split x.
Proof.
  rewrite !split_join, map_app, concat_app. cbn [map concat].
  now rewrite app_nil_r.
Qed.

Lemma word_count_join_snoc (l : list string) (x : string) :
  Py.word_count (Py.join " " (l ++ [x]))
  = (Py.word_count (Py.join " " l) + Py.word_count x)%Z.
Proof.
  unfold Py.word_count. rewrite split_join_snoc, length_app. lia.
Qed.

Lemma word_count_nonneg (s : string) : (0 <= Py.word_count s)%Z.
Proof. unfold Py.word_count. lia. Qed.

Lemma word_count_join_app (l1 l2 : list string) :
  (Py.word_count (Py.join " " l1) <= Py.word_count (Py.join " " (l1 ++ l2)))%Z.
Proof.
  unfold Py.word_count. rewrite !split_join, map_app, concat_app, length_app. lia.
Qed.

(** ** Chunk builder: what the text chunks are made of *)

Section BuilderInvariants.

Variable _split_into_sentences : string -> list string.
Variable now_isoformat : nat -> string.
Variable self : chunker.

Local Abbreviation step := (item_step _split_into_sentences now_isoformat self).
Local Abbreviation sstep := (sentence_step now_isoformat self).
Local Abbreviation emit := (append_chunk now_isoformat).

(** Every chunk of the text part was made by [_create_chunk_metadata] from a
    section that the loop has held. *)
Lemma sentences_made (P : chunk -> Prop) (section : category) :
  (forall l ts, P (_create_chunk_metadata l section ts)) ->
  forall sentences st,
    Forall P (fst st) ->
    Forall P (fst (fold_left (sstep section) sentences st)).
Proof.
  intros Hmake. induction sentences as [|s sentences IH]; intros [chunks temp] Hst.
  - exact Hst.
  - cbn [fold_left]. apply IH. unfold sentence_step. cbn [fst] in *.
    destruct (_ >? _)%Z; cbn [fst]; [|exact Hst].
    destruct (truthy _); [|exact Hst].
    unfold append_chunk. apply Forall_app. split; [exact Hst|].
    constructor; [apply Hmake | constructor].
Qed.

Lemma items_made (P : chunk -> Prop) (Q : category -> Prop) (items : list item) :
  (forall it, In it items -> is_header it = true -> Q (section_type it)) ->
  (forall l section ts, Q section -> P (_create_chunk_metadata l section ts)) ->
  forall st,
    Forall P (fst (fst st)) -> Q (snd st) ->
    Forall P (fst (fst (fold_left step items st)))
    /\ Q (snd (fold_left step items st)).
Proof.
  intros Hheaders Hmake. induction items as [|it items IH];
    intros [[chunks current_chunk] current_section] Hchunks Hsection.
  - now split.
  - cbn [fold_left]. cbn [fst snd] in *.
    assert (Hstep : Forall P (fst (fst (step (chunks, current_chunk, current_section) it)))
                    /\ Q (snd (step (chunks, current_chunk, current_section) it))).
    { unfold item_step.
      destruct (is_header it) eqn:Hhead; cbn [andb].
      - destruct (negb (category_eqb (section_type it) current_section)).
        + assert (Hq : Q (section_type it)) by (apply Hheaders; [now left | exact Hhead]).
          assert (Hc : Forall P (if truthy current_chunk
                                 then emit chunks current_chunk current_section
                                 else chunks)).
          { destruct (truthy current_chunk); [|exact Hchunks].
            unfold append_chunk. apply Forall_app. split; [exact Hchunks|].
            constructor; [now apply Hmake | constructor]. }
          destruct (_ >? _)%Z; cbn [fst snd]; [|now split].
          pose proof (sentences_made P (section_type it)
                        (fun l ts => Hmake l _ ts Hq)
                        (_split_into_sentences (Py.join " " [text it]))
                        (_, []) Hc) as Hs.
          destruct (fold_left _ _ _) as [chunks' temp]. now split.
        + destruct (_ >? _)%Z; cbn [fst snd]; [|now split].
          pose proof (sentences_made P current_section
                        (fun l ts => Hmake l _ ts Hsection)
                        (_split_into_sentences (Py.join " " (current_chunk ++ [text it])))
                        (chunks, []) Hchunks) as Hs.
          destruct (fold_left _ _ _) as [chunks' temp]. now split.
      - destruct (_ >? _)%Z; cbn [fst snd]; [|now split].
        pose proof (sentences_made P current_section
                      (fun l ts => Hmake l _ ts Hsection)
                      (_split_into_sentences (Py.join " " (current_chunk ++ [text it])))
                      (chunks, []) Hchunks) as Hs.
        destruct (fold_left _ _ _) as [chunks' temp]. now split. }
    destruct Hstep as [Hc Hq].
    destruct (step (chunks, current_chunk, current_section) it) as [[c1 b1] s1].
    apply IH; auto. intros it' Hin. apply Hheaders. now right.
Qed.

Lemma text_chunks_made (P : chunk -> Prop) (Q : category -> Prop) (items : list item) :
  Q general ->
  (forall it, In it items -> is_header it = true -> Q (section_type it)) ->
  (forall l section ts, Q section -> P (_create_chunk_metadata l section ts)) ->
  Forall P (text_chunks _split_into_sentences now_isoformat self items).
Proof.
  intros Hgeneral Hheaders Hmake. unfold text_chunks.
  destruct (items_made P Q items Hheaders Hmake ([], [], general)) as [Hc Hq];
    [constructor | exact Hgeneral |].
  destruct (fold_left _ _ _) as [[chunks current_chunk] current_section].
  cbn [fst snd] in *. destruct (truthy current_chunk); [|exact Hc].
  unfold append_chunk. apply Forall_app. split; [exact Hc|].
  constructor; [now apply Hmake | constructor].
Qed.

Lemma text_chunks_are_text (items : list item) :
  Forall (fun c => is_text c = true)
         (text_chunks _split_into_sentences now_isoformat self items).
Proof.
  apply (text_chunks_made _ (fun _ => True)); auto.
Qed.

Lemma filter_all {A : Type} (f : A -> bool) (l : list A) :
  Forall (fun x => f x = true) l -> List.filter f l = l.
Proof.
  induction 1 as [|x l Hx _ IH]; [reflexivity|].
  cbn [List.filter]. rewrite Hx. congruence.
Qed.

Lemma filter_none {A : Type} (f : A -> bool) (l : list A) :
  Forall (fun x => f x = false) l -> List.filter f l = [].
Proof.
  induction 1 as [|x l Hx _ IH]; [reflexivity|].
  cbn [List.filter]. now rewrite Hx.
Qed.

Lemma filter_table_text_part (text_part table_part : list chunk) :
  Forall (fun c => is_text c = true) text_part ->
  Forall (fun c => is_text c = false) table_part ->
  List.filter is_table (text_part ++ table_part) = table_part
  /\ List.filter is_text (text_part ++ table_part) = text_part.
Proof.
  intros Htext Htable. rewrite !List.filter_app.
  rewrite (filter_all is_text text_part Htext).
  rewrite (filter_none is_text table_part Htable).
  rewrite (filter_none is_table text_part),
          (filter_all is_table table_part).
  - now rewrite app_nil_r.
  - eapply Forall_impl; [exact Htable|]. intros c Hc. unfold is_table. now rewrite Hc.
  - eapply Forall_impl; [exact Htext|]. intros c Hc. unfold is_table. now rewrite Hc.
Qed.

(** X1. Tables pass through both builders untouched: the table chunks of the
    result are one per table, in the order of the tables, after every text
    chunk, each with the text of its table as content. *)
Theorem tables_become_trailing_chunks
    (simple_data : extracted_data simple_table)
    (full_data : extracted_data full_table) :
  (exists text_part table_part,
      create_chunks _split_into_sentences now_isoformat self simple_data
      = text_part ++ table_part
      /\ List.filter is_text
           (create_chunks _split_into_sentences now_isoformat self simple_data)
         = text_part
      /\ List.filter is_table
           (create_chunks _split_into_sentences now_isoformat self simple_data)
         = table_part
      /\ map content table_part = map simple_table_text (tables simple_data))
  /\ (exists text_part table_part,
        create_semantic_chunks _split_into_sentences now_isoformat self full_data
        = text_part ++ table_part
        /\ List.filter is_text
             (create_semantic_chunks _split_into_sentences now_isoformat self full_data)
           = text_part
        /\ List.filter is_table
             (create_semantic_chunks _split_into_sentences now_isoformat self full_data)
           = table_part
        /\ map content table_part = map table_text (tables full_data)).
Proof.
  split.
  - unfold create_chunks. eexists _, _. split; [reflexivity|].
    destruct (filter_table_text_part
                (text_chunks _split_into_sentences now_isoformat self
                   (text_content simple_data))
                (map (fun table =>
                        {| content := simple_table_text table; type := table_type;
                           metadata := SimpleTableMetadata (simple_table_page table)
                                         (simple_table_index table) |})
                     (tables simple_data)))
      as [Htab Htext].
    + apply text_chunks_are_text.
    + induction (tables simple_data); constructor; auto.
    + split; [exact Htext|]. split; [exact Htab|].
      rewrite map_map. reflexivity.
  - unfold create_semantic_chunks. eexists _, _. split; [reflexivity|].
    destruct (filter_table_text_part
                (text_chunks _split_into_sentences now_isoformat self
                   (text_content full_data))
                (map (fun table =>
                        {| content := table_text table; type := table_type;
                           metadata := FullTableMetadata (method table)
                                         (table_index table)
                                         (default 0%Z (table_page table))
                                         (default 0%float (accuracy table)) |})
                     (tables full_data)))
      as [Htab Htext].
    + apply text_chunks_are_text.
    + induction (tables full_data); constructor; auto.
    + split; [exact Htext|]. split; [exact Htab|].
      rewrite map_map. reflexivity.
Qed.

(** X2. Every text chunk is tagged with a section, and that section is
    [general] or the section of some header line of the stream. *)
Theorem chunk_sections_come_from_headers (items : list item) :
  Forall (fun c => exists section,
                     chunk_section c = Some section
                     /\ section_of_stream items section)
         (text_chunks _split_into_sentences now_isoformat self items).
Proof.
  apply (text_chunks_made _ (section_of_stream items)).
  - now left.
  - intros it Hin Hhead. right. now exists it.
  - intros l section ts Hsection. exists section. split; [reflexivity | exact Hsection].
Qed.

End BuilderInvariants.

(** ** Chunk builder: no word is lost *)

Section BuilderWords.

Variable _split_into_sentences : string -> list string.
Variable now_isoformat : nat -> string.
Variable self : chunker.

Local Abbreviation step := (item_step _split_into_sentences now_isoformat self).
Local Abbreviation sstep := (sentence_step now_isoformat self).
Local Abbreviation emit := (append_chunk now_isoformat).

Lemma words_of_emitted (chunks : list chunk) (l : list string) (section : category) :
  words_of_chunks (emit chunks l section)
  = words_of_chunks chunks ++ Py.split (Py.join " " l).
Proof.
  unfold words_of_chunks, append_chunk.
  rewrite List.filter_app, map_app, concat_app. cbn. now rewrite app_nil_r.
Qed.

Lemma sentence_step_words (section : category) (st : list chunk * list string)
    (s : string) :
  words_of_chunks (fst (sstep section st s))
  ++ Py.split (Py.join " " (snd (sstep section st s)))
  = (words_of_chunks (fst st) ++ Py.split (Py.join " " (snd st))) ++ Py.split s.
Proof.
  destruct st as [chunks temp]. unfold sentence_step. cbn [fst snd].
  destruct (_ >? _)%Z; cbn [fst snd].
  - rewrite truthy_snoc, removelast_last, words_of_emitted. reflexivity.
  - now rewrite split_join_snoc, app_assoc.
Qed.

Lemma sentences_words (section : category) (sentences : list string) :
  forall st,
    words_of_chunks (fst (fold_left (sstep section) sentences st))
    ++ Py.split (Py.join " " (snd (fold_left (sstep section) sentences st)))
    = (words_of_chunks (fst st) ++ Py.split (Py.join " " (snd st)))
      ++ concat (map Py.split sentences).
Proof.
  induction sentences as [|s sentences IH]; intros st; cbn [fold_left map concat].
  - now rewrite app_nil_r.
  - now rewrite IH, sentence_step_words, <- app_assoc.
Qed.

Lemma overflow_split_words (chunks : list chunk) (buffer : list string)
    (section : category) :
  keeps_words _split_into_sentences ->
  forall st',
    st' = (if (Py.word_count (Py.join " " buffer) >? chunk_size self)%Z
           then let '(chunks', temp_chunk) :=
                  fold_left (sstep section)
                            (_split_into_sentences (Py.join " " buffer)) (chunks, []) in
                (chunks', temp_chunk, section)
           else (chunks, buffer, section)) ->
    words_of_chunks (fst (fst st')) ++ Py.split (Py.join " " (snd (fst st')))
    = words_of_chunks chunks ++ Py.split (Py.join " " buffer).
Proof.
  intros Hkeeps st' ->. destruct (_ >? _)%Z; [|reflexivity].
  pose proof (sentences_words section (_split_into_sentences (Py.join " " buffer))
                (chunks, [])) as H.
  destruct (fold_left _ _ _) as [chunks' temp]. cbn [fst snd] in *.
  rewrite H, Hkeeps. cbn [Py.join]. now rewrite app_nil_r.
Qed.

Lemma item_step_words (st : list chunk * list string * category) (it : item) :
  keeps_words _split_into_sentences ->
  words_of_chunks (fst (fst (step st it)))
  ++ Py.split (Py.join " " (snd (fst (step st it))))
  = (words_of_chunks (fst (fst st)) ++ Py.split (Py.join " " (snd (fst st))))
    ++ Py.split (text it).
Proof.
  intros Hkeeps. destruct st as [[chunks current_chunk] current_section].
  cbn [fst snd]. unfold item_step.
  destruct (is_header it && negb (category_eqb (section_type it) current_section)).
  - rewrite (overflow_split_words _ [text it] (section_type it) Hkeeps _ eq_refl).
    cbn [Py.join]. f_equal.
    destruct current_chunk as [|x l]; cbn [truthy].
    + cbn [Py.join]. now rewrite app_nil_r.
    + apply words_of_emitted.
  - rewrite (overflow_split_words _ (current_chunk ++ [text it]) current_section
               Hkeeps _ eq_refl).
    now rewrite split_join_snoc, app_assoc.
Qed.

Lemma items_words (items : list item) :
  keeps_words _split_into_sentences ->
  forall st,
    words_of_chunks (fst (fst (fold_left step items st)))
    ++ Py.split (Py.join " " (snd (fst (fold_left step items st))))
    = (words_of_chunks (fst (fst st)) ++ Py.split (Py.join " " (snd (fst st))))
      ++ words_of_items items.
Proof.
  intros Hkeeps. induction items as [|it items IH]; intros st;
    cbn [fold_left]; unfold words_of_items; cbn [map concat].
  - now rewrite app_nil_r.
  - fold (words_of_items items). rewrite IH, item_step_words by exact Hkeeps.
    now rewrite <- app_assoc.
Qed.

Lemma text_chunks_words (items : list item) :
  keeps_words _split_into_sentences ->
  words_of_chunks (text_chunks _split_into_sentences now_isoformat self items)
  = words_of_items items.
Proof.
  intros Hkeeps. unfold text_chunks.
  pose proof (items_words items Hkeeps ([], [], general)) as H.
  destruct (fold_left _ _ _) as [[chunks current_chunk] current_section].
  cbn [fst snd] in H. change (words_of_chunks [] ++ Py.split (Py.join " " []))
    with (@nil string) in H. cbn [app] in H. rewrite <- H.
  destruct current_chunk as [|x l]; cbn [truthy].
  - cbn [Py.join]. now rewrite app_nil_r.
  - apply words_of_emitted.
Qed.

Lemma words_of_chunks_tables (text_part table_part : list chunk) :
  Forall (fun c => is_text c = false) table_part ->
  words_of_chunks (text_part ++ table_part) = words_of_chunks text_part.
Proof.
  intros Htable. unfold words_of_chunks.
  now rewrite List.filter_app, (filter_none is_text table_part Htable), app_nil_r.
Qed.

(** X3. With a sentence tokenizer that keeps the words of every buffer, both
    builders keep the words of the stream: the words of the text chunks, read
    chunk after chunk, are the words of the lines, read line after line. No
    word is lost, doubled or moved, wherever the chunks are cut. *)
Theorem builders_keep_words
    (simple_data : extracted_data simple_table)
    (full_data : extracted_data full_table) :
  keeps_words _split_into_sentences ->
  words_of_chunks (create_chunks _split_into_sentences now_isoformat self simple_data)
  = words_of_items (text_content simple_data)
  /\ words_of_chunks
       (create_semantic_chunks _split_into_sentences now_isoformat self full_data)
     = words_of_items (text_content full_data).
Proof.
  intros Hkeeps. unfold create_chunks, create_semantic_chunks. split.
  - rewrite words_of_chunks_tables; [now apply text_chunks_words|].
    induction (tables simple_data); constructor; auto.
  - rewrite words_of_chunks_tables; [now apply text_chunks_words|].
    induction (tables full_data); constructor; auto.
Qed.

Lemma fitting_items_accumulate (rest : list item) :
  forall pre : list item,
    (forall it, In it rest -> is_header it = false \/ section_type it = general) ->
    (Py.word_count (Py.join " " (map text (pre ++ rest))) <= chunk_size self)%Z ->
    fold_left step rest ([], map text pre, general)
    = ([], map text (pre ++ rest), general).
Proof.
  induction rest as [|it rest IH]; intros pre Hplain Hfits.
  - now rewrite app_nil_r.
  - cbn [fold_left].
    assert (Hstep : step ([], map text pre, general) it
                    = ([], map text (pre ++ [it]), general)).
    { unfold item_step.
      assert (Hcond : is_header it && negb (category_eqb (section_type it) general) = false).
      { destruct (Hplain it ltac:(now left)) as [-> | ->]; [reflexivity|].
        now rewrite andb_false_r. }
      rewrite Hcond, map_app. cbn [map].
      assert (Hle : (Py.word_count (Py.join " " (map text pre ++ [text it]))
                     <= chunk_size self)%Z).
      { eapply Z.le_trans; [|exact Hfits].
        replace (pre ++ it :: rest) with ((pre ++ [it]) ++ rest)
          by now rewrite <- app_assoc.
        rewrite (map_app text (pre ++ [it]) rest), map_app. apply word_count_join_app. }
      destruct (Z.gtb_spec (Py.word_count (Py.join " " (map text pre ++ [text it])))
                           (chunk_size self)); [lia | reflexivity]. }
    rewrite Hstep. rewrite (IH (pre ++ [it])).
    + now rewrite <- app_assoc.
    + intros it' Hin. apply Hplain. now right.
    + now rewrite <- app_assoc.
Qed.

(** X4. A stream that fits is one chunk: when no line is a header of a
    section other than [general] and all the lines together have at most
    [chunk_size] words, the text part is the single chunk of all the lines
    joined by spaces, tagged [general], and the tokenizer is not consulted. *)
Theorem fitting_stream_is_one_chunk (it : item) (items : list item) :
  (forall it', In it' (it :: items) ->
               is_header it' = false \/ section_type it' = general) ->
  (Py.word_count (Py.join " " (map text (it :: items))) <= chunk_size self)%Z ->
  text_chunks _split_into_sentences now_isoformat self (it :: items)
  = [_create_chunk_metadata (map text (it :: items)) general (now_isoformat 0)].
Proof.
  intros Hplain Hfits. unfold text_chunks.
  pose proof (fitting_items_accumulate (it :: items) [] Hplain Hfits) as H.
  cbn [map app] in H. cbn [map]. rewrite H. reflexivity.
Qed.

End BuilderWords.

Lemma whole_buffer_keeps_words : keeps_words whole_buffer.
Proof. intros buffer. cbn. apply app_nil_r. Qed.

Lemma builders_keep_words_witness :
  words_of_chunks
    (create_chunks whole_buffer fixed_clock (chunker_of_size 2)
       (simple_document ["one two"; "three four five"; "six"]))
  = ["one"; "two"; "three"; "four"; "five"; "six"]
  /\ words_of_chunks
       (create_semantic_chunks whole_buffer fixed_clock (chunker_of_size 2)
          (full_document ["one two"; "three four five"; "six"]))
     = ["one"; "two"; "three"; "four"; "five"; "six"].
Proof.
  exact (builders_keep_words whole_buffer fixed_clock (chunker_of_size 2)
           (simple_document ["one two"; "three four five"; "six"])
           (full_document ["one two"; "three four five"; "six"])
           whole_buffer_keeps_words).
Defined.

Lemma fitting_stream_is_one_chunk_witness :
  text_chunks period_sentences fixed_clock (chunker_of_size 8)
    [plain_line "Renewal is due."; header_line general "Notes"; plain_line "Pay by cheque."]
  = [_create_chunk_metadata ["Renewal is due."; "Notes"; "Pay by cheque."] general
       (fixed_clock 0)].
Proof.
  apply (fitting_stream_is_one_chunk period_sentences fixed_clock (chunker_of_size 8)
           (plain_line "Renewal is due.")
           [header_line general "Notes"; plain_line "Pay by cheque."]).
  - intros it' [<- | [<- | [<- | []]]]; [left | right | left]; reflexivity.
  - vm_compute. intros H. discriminate H.
Defined.

(** ** Extraction *)

Lemma rstrip_idempotent (s : string) : rstrip (rstrip s) = rstrip s.
Proof.
  induction s as [|c s IH]; [reflexivity|]. cbn [rstrip].
  destruct (rstrip s) as [|d r] eqn:Hr.
  - destruct (Py.is_space c) eqn:Hc; [reflexivity|]. cbn [rstrip]. now rewrite Hc.
  - change (rstrip (String c (String d r)))
      with (match rstrip (String d r) with
            | EmptyString => if Py.is_space c then EmptyString else String c EmptyString
            | r' => String c r'
            end).
    now rewrite IH.
Qed.

Lemma lstrip_starts_clean (s : string) : starts_clean (lstrip s).
Proof.
  induction s as [|c s IH]; [exact I|]. cbn [lstrip].
  destruct (Py.is_space c) eqn:Hc; [exact IH | exact Hc].
Qed.

Lemma lstrip_of_clean (s : string) : starts_clean s -> lstrip s = s.
Proof. destruct s as [|c s]; [reflexivity|]. cbn. now intros ->. Qed.

Lemma rstrip_keeps_clean (s : string) : starts_clean s -> starts_clean (rstrip s).
Proof.
  destruct s as [|c s]; [trivial|]. cbn [starts_clean rstrip]. intros Hc.
  destruct (rstrip s); rewrite ?Hc; exact Hc.
Qed.

Lemma strip_idempotent (s : string) : strip (strip s) = strip s.
Proof.
  unfold strip.
  rewrite (lstrip_of_clean (rstrip (lstrip s)))
    by apply rstrip_keeps_clean, lstrip_starts_clean.
  apply rstrip_idempotent.
Qed.

Lemma str_truthy_nonempty (s : string) : str_truthy s = true -> s <> EmptyString.
Proof. destruct s; [discriminate | discriminate]. Qed.

Section ExtractionProperties.

Variable self : chunker.
Variable pdfplumber_open : string -> exn + list pdf_page.
Variable extract_tables_from_pdf : string -> list full_table * list log_record.

(** What a line of page number [page_num] records. *)
Local Abbreviation line_of_page page_num :=
  (fun it : item =>
     page it = (Z.of_nat page_num + 1)%Z
     /\ (1 <= line it)%Z
     /\ text it <> EmptyString
     /\ strip (text it) = text it
     /\ is_header it = _is_section_header self (text it)
     /\ section_type it = _classify_section (text it)).

Lemma page_items_recorded (page_num : nat) (t : string) :
  Forall (line_of_page page_num) (page_items self page_num t).
Proof.
  unfold page_items.
  generalize (combine (seq 0 (List.length (Py.split_sep "010" t)))
                      (Py.split_sep "010" t)).
  intros l. induction l as [|[line_num ln] l IH]; cbn [omap list_omap] in *;
    [constructor|].
  destruct (str_truthy (strip ln)) eqn:Hline; [|exact IH].
  constructor; [|exact IH]. cbn [page line text is_header section_type].
  split; [reflexivity|]. split; [lia|].
  split; [now apply str_truthy_nonempty|].
  split; [apply strip_idempotent|]. split; reflexivity.
Qed.

Lemma text_items_recorded (page_num : nat) (t : option string) :
  Forall (line_of_page page_num) (text_items self page_num t).
Proof.
  destruct t as [t|]; cbn [text_items]; [|constructor].
  destruct (str_truthy t); [apply page_items_recorded | constructor].
Qed.

Lemma line_of_page_well_formed (page_num : nat) (pages : Z) (it : item) :
  (Z.of_nat page_num + 1 <= pages)%Z ->
  line_of_page page_num it -> well_formed_item self pages it.
Proof.
  intros Hle (Hpage & Hline & Htext & Hstrip & Hheader & Hsection).
  unfold well_formed_item. rewrite Hpage. repeat split; try assumption; lia.
Qed.

Lemma text_items_well_formed (page_num : nat) (pages : Z) (t : option string) :
  (Z.of_nat page_num + 1 <= pages)%Z ->
  Forall (well_formed_item self pages) (text_items self page_num t).
Proof.
  intros Hle. eapply Forall_impl; [apply text_items_recorded|].
  intros it. now apply line_of_page_well_formed.
Qed.

Lemma simple_pages_well_formed (pages : list pdf_page) :
  forall (page_num : nat) (total : Z) (text_content : list item)
         (tables : list simple_table),
    (Z.of_nat (page_num + List.length pages) <= total)%Z ->
    Forall (well_formed_item self total) text_content ->
    Forall (well_formed_item self total)
           (fst (fst (simple_pages self page_num pages text_content tables))).
Proof.
  induction pages as [|p pages IH]; intros page_num total text_content tables Hle Hacc;
    cbn [simple_pages]; [exact Hacc|].
  cbn [List.length] in Hle.
  destruct (extract_text p) as [e|t]; [exact Hacc|].
  assert (Hacc' : Forall (well_formed_item self total)
                         (text_content ++ text_items self page_num t)).
  { apply Forall_app. split; [exact Hacc|]. apply text_items_well_formed. lia. }
  destruct (extract_tables p) as [e|pts]; [exact Hacc'|].
  destruct (add_page_tables page_num 0 pts tables) as [tables' [e|]]; [exact Hacc'|].
  apply IH; [lia | exact Hacc'].
Qed.

Lemma full_pages_well_formed (pages : list pdf_page) :
  forall (page_num : nat) (total : Z) (text_content : list item),
    (Z.of_nat (page_num + List.length pages) <= total)%Z ->
    Forall (well_formed_item self total) text_content ->
    Forall (well_formed_item self total)
           (fst (full_pages self page_num pages text_content)).
Proof.
  induction pages as [|p pages IH]; intros page_num total text_content Hle Hacc;
    cbn [full_pages]; [exact Hacc|].
  cbn [List.length] in Hle.
  destruct (extract_text p) as [e|t]; [exact Hacc|].
  apply IH; [lia|]. apply Forall_app. split; [exact Hacc|].
  apply text_items_well_formed. lia.
Qed.

(** X5. Every line either extractor returns is well formed: its page number
    lies between 1 and the reported number of pages, its line number is at
    least 1, its text is not empty and has no surrounding white space, and
    its header flag and section are those the header test and the classifier
    give for that text. *)
Theorem extracted_lines_are_well_formed (pdf_path : string) :
  Forall (well_formed_item self
            (total_pages (fst (extract_text_from_pdf self pdfplumber_open pdf_path))))
         (text_content (fst (extract_text_from_pdf self pdfplumber_open pdf_path)))
  /\ Forall (well_formed_item self
               (total_pages (fst (extract_text_with_structure self pdfplumber_open
                                    extract_tables_from_pdf pdf_path))))
            (text_content (fst (extract_text_with_structure self pdfplumber_open
                                  extract_tables_from_pdf pdf_path))).
Proof.
  unfold extract_text_from_pdf, extract_text_with_structure.
  destruct (extract_tables_from_pdf pdf_path) as [tables warnings].
  destruct (pdfplumber_open pdf_path) as [e|pages]; [split; constructor|].
  split.
  - pose proof (simple_pages_well_formed pages 0 (Z.of_nat (List.length pages)) [] []
                  ltac:(cbn; lia) ltac:(constructor)) as H.
    destruct (simple_pages self 0 pages [] []) as [[text_content tables'] raised].
    exact H.
  - pose proof (full_pages_well_formed pages 0 (Z.of_nat (List.length pages)) []
                  ltac:(cbn; lia) ltac:(constructor)) as H.
    destruct (full_pages self 0 pages []) as [text_content raised].
    exact H.
Qed.

End ExtractionProperties.

Section ExtractionStops.

Variable self : chunker.
Variable pdfplumber_open : string -> exn + list pdf_page.
Variable extract_tables_from_pdf : string -> list full_table * list log_record.

Lemma full_pages_readable (good : list pdf_page) :
  forall (page_num : nat) (rest : list pdf_page) (text_content : list item),
    Forall readable good ->
    full_pages self page_num (good ++ rest) text_content
    = full_pages self (page_num + List.length good) rest
        (text_content ++ pages_lines self page_num good).
Proof.
  induction good as [|p good IH]; intros page_num rest text_content Hgood;
    cbn [app List.length pages_lines].
  - now rewrite Nat.add_0_r, app_nil_r.
  - inversion Hgood as [|p' good' [t Ht] Hgood' Heq]; subst.
    cbn [full_pages]. unfold page_lines. rewrite Ht.
    rewrite IH by exact Hgood'. now rewrite <- app_assoc, Nat.add_succ_r.
Qed.

(** X6. The full extractor reads the pages in order until one raises. When
    every page can be read it returns the lines of all of them and logs
    nothing of its own. When a page raises, it returns the lines of the pages
    before it, logs the exception after the warnings of the table extraction,
    and still reports the page count of the whole document. *)
Theorem full_extraction_reads_until_a_page_raises (pdf_path : string) :
  (forall pages,
      pdfplumber_open pdf_path = inr pages ->
      Forall readable pages ->
      extract_text_with_structure self pdfplumber_open extract_tables_from_pdf pdf_path
      = ({| text_content := pages_lines self 0 pages;
            tables := fst (extract_tables_from_pdf pdf_path);
            total_pages := Z.of_nat (List.length pages) |},
         snd (extract_tables_from_pdf pdf_path)))
  /\ (forall good bad rest e,
        pdfplumber_open pdf_path = inr (good ++ bad :: rest) ->
        Forall readable good ->
        extract_text bad = inl e ->
        extract_text_with_structure self pdfplumber_open extract_tables_from_pdf pdf_path
        = ({| text_content := pages_lines self 0 good;
              tables := fst (extract_tables_from_pdf pdf_path);
              total_pages := Z.of_nat (List.length (good ++ bad :: rest)) |},
           snd (extract_tables_from_pdf pdf_path) ++ [extraction_error pdf_path e])).
Proof.
  split.
  - intros pages Hopen Hread. unfold extract_text_with_structure.
    destruct (extract_tables_from_pdf pdf_path) as [tables warnings]. rewrite Hopen.
    pose proof (full_pages_readable pages 0 [] [] Hread) as H.
    rewrite app_nil_r in H. rewrite H. cbn [full_pages app fst snd].
    now rewrite app_nil_r.
  - intros good bad rest e Hopen Hread Hbad. unfold extract_text_with_structure.
    destruct (extract_tables_from_pdf pdf_path) as [tables warnings]. rewrite Hopen.
    rewrite (full_pages_readable good 0 (bad :: rest) [] Hread).
    cbn [full_pages]. rewrite Hbad. reflexivity.
Qed.

Lemma str_cells_none (row : list (option string)) :
  existsb is_none row = true -> exists e, str_cells row = inl e.
Proof.
  induction row as [|[cell|] row IH]; cbn [existsb is_none str_cells orb];
    [discriminate | | eauto].
  intros H. destruct (IH H) as [e ->]. cbn [bind]. eauto.
Qed.

Lemma table_rows_ragged (table : list (list (option string)))
    (row : list (option string)) :
  In row table -> ragged_row row = true -> exists e, table_rows table = inl e.
Proof.
  unfold ragged_row. intros Hin Hrow. apply andb_prop in Hrow as [Htruthy Hnone].
  induction table as [|row' table IH]; [contradiction|]. cbn [table_rows].
  destruct Hin as [-> | Hin].
  - rewrite Htruthy. destruct (str_cells_none row Hnone) as [e ->]. cbn [bind]. eauto.
  - destruct (IH Hin) as [e He].
    destruct (existsb cell_truthy row'); [|eauto].
    destruct (str_cells row') as [e'|cells]; cbn [bind]; [eauto|].
    rewrite He. cbn [bind]. eauto.
Qed.

Lemma add_page_tables_bound (bound : Z) (page_num : nat)
    (page_tables : list (list (list (option string)))) :
  (Z.of_nat page_num + 1 <= bound)%Z ->
  forall (table_num : nat) (tables : list simple_table),
    Forall (fun t => (simple_table_page t <= bound)%Z) tables ->
    Forall (fun t => (simple_table_page t <= bound)%Z)
           (fst (add_page_tables page_num table_num page_tables tables)).
Proof.
  intros Hle. induction page_tables as [|table rest IH]; intros table_num tables Hacc;
    cbn [add_page_tables]; [exact Hacc|].
  destruct (truthy table && (1 <? List.length table)); [|now apply IH].
  destruct (table_rows table) as [e|rows]; [exact Hacc|].
  apply IH. apply Forall_app. split; [exact Hacc|].
  constructor; [exact Hle | constructor].
Qed.

Lemma add_page_tables_ragged (page_num : nat)
    (page_tables : list (list (list (option string))))
    (table : list (list (option string))) (row : list (option string)) :
  In table page_tables -> 1 < List.length table ->
  In row table -> ragged_row row = true ->
  forall (table_num : nat) (tables : list simple_table),
    exists e, snd (add_page_tables page_num table_num page_tables tables) = Some e.
Proof.
  intros Hin Hlen Hrow Hragged.
  induction page_tables as [|table' rest IH]; [contradiction|].
  intros table_num tables. cbn [add_page_tables].
  destruct Hin as [-> | Hin].
  - assert (Hguard : truthy table && (1 <? List.length table) = true).
    { apply andb_true_intro. split.
      - destruct table; [cbn in Hlen; lia | reflexivity].
      - now apply Nat.ltb_lt. }
    rewrite Hguard. destruct (table_rows_ragged table row Hrow Hragged) as [e ->].
    cbn [snd]. eauto.
  - destruct (truthy table' && (1 <? List.length table')); [|now apply IH].
    destruct (table_rows table') as [e|rows]; [cbn [snd]; eauto | now apply IH].
Qed.

Lemma text_items_page (page_num : nat) (t : option string) :
  Forall (fun it => page it = (Z.of_nat page_num + 1)%Z) (text_items self page_num t).
Proof.
  eapply Forall_impl; [apply (text_items_recorded self)|].
  intros it H. exact (proj1 H).
Qed.

Lemma simple_pages_ragged (before : list pdf_page) (bad : pdf_page)
    (after : list pdf_page) (pts : list (list (list (option string))))
    (table : list (list (option string))) (row : list (option string)) :
  extract_tables bad = inr pts ->
  In table pts -> 1 < List.length table ->
  In row table -> ragged_row row = true ->
  forall (page_num : nat) (text_content : list item) (tables : list simple_table),
    let bound := (Z.of_nat (page_num + List.length before) + 1)%Z in
    Forall (fun it => (page it <= bound)%Z) text_content ->
    Forall (fun t => (simple_table_page t <= bound)%Z) tables ->
    exists text_content' tables' e,
      simple_pages self page_num (before ++ bad :: after) text_content tables
      = (text_content', tables', Some e)
      /\ Forall (fun it => (page it <= bound)%Z) text_content'
      /\ Forall (fun t => (simple_table_page t <= bound)%Z) tables'.
Proof.
  intros Hpts Hin Hlen Hrow Hragged.
  induction before as [|p before IH]; intros page_num text_content tables bound Htc Htb;
    cbn [app simple_pages].
  - destruct (extract_text bad) as [e|t]; [eauto 6|].
    assert (Htc' : Forall (fun it => (page it <= bound)%Z)
                          (text_content ++ text_items self page_num t)).
    { apply Forall_app. split; [exact Htc|].
      eapply Forall_impl; [apply text_items_page|].
      intros it ->. unfold bound. cbn [List.length]. lia. }
    rewrite Hpts.
    destruct (add_page_tables_ragged page_num pts table row Hin Hlen Hrow Hragged 0 tables)
      as [e He].
    pose proof (add_page_tables_bound bound page_num pts
                  ltac:(unfold bound; cbn [List.length]; lia) 0 tables Htb) as Hb.
    destruct (add_page_tables page_num 0 pts tables) as [tables' raised].
    cbn [fst snd] in *. subst raised. eauto 6.
  - destruct (extract_text p) as [e|t]; [eauto 6|].
    assert (Htc' : Forall (fun it => (page it <= bound)%Z)
                          (text_content ++ text_items self page_num t)).
    { apply Forall_app. split; [exact Htc|].
      eapply Forall_impl; [apply text_items_page|].
      intros it ->. unfold bound. cbn [List.length]. lia. }
    destruct (extract_tables p) as [e|pts']; [eauto 6|].
    pose proof (add_page_tables_bound bound page_num pts'
                  ltac:(unfold bound; cbn [List.length]; lia) 0 tables Htb) as Hb.
    destruct (add_page_tables page_num 0 pts' tables) as [tables' [e|]];
      cbn [fst] in Hb; [eauto 6|].
    assert (Hbound : bound = (Z.of_nat (S page_num + List.length before) + 1)%Z).
    { unfold bound. cbn [List.length]. lia. }
    destruct (IH (S page_num) (text_content ++ text_items self page_num t) tables')
      as (tc & tb & e & Heq & H1 & H2).
    + rewrite <- Hbound. exact Htc'.
    + rewrite <- Hbound. exact Hb.
    + rewrite <- Hbound in H1, H2. eauto 6.
Qed.

(** X7. One ragged table row ends the simple extraction. When a table of
    more than one row has a row with a cell that holds text and a cell that
    is [None], joining that row raises; the extractor logs one error and
    returns what it had: no line and no table of any later page, although the
    page count it reports is that of the whole document. *)
Theorem ragged_row_ends_simple_extraction (pdf_path : string)
    (before : list pdf_page) (bad : pdf_page) (after : list pdf_page)
    (pts : list (list (list (option string))))
    (table : list (list (option string))) (row : list (option string)) :
  pdfplumber_open pdf_path = inr (before ++ bad :: after) ->
  extract_tables bad = inr pts ->
  In table pts -> 1 < List.length table ->
  In row table -> ragged_row row = true ->
  exists data e,
    extract_text_from_pdf self pdfplumber_open pdf_path
    = (data, [extraction_error pdf_path e])
    /\ Forall (fun it => (page it <= Z.of_nat (List.length before) + 1)%Z)
              (text_content data)
    /\ Forall (fun t => (simple_table_page t <= Z.of_nat (List.length before) + 1)%Z)
              (tables data)
    /\ total_pages data = Z.of_nat (List.length (before ++ bad :: after)).
Proof.
  intros Hopen Hpts Hin Hlen Hrow Hragged. unfold extract_text_from_pdf. rewrite Hopen.
  destruct (simple_pages_ragged before bad after pts table row Hpts Hin Hlen Hrow Hragged
              0 [] [] ltac:(constructor) ltac:(constructor))
    as (tc & tb & e & -> & Htc & Htb).
  cbn [Nat.add] in Htc, Htb. eexists _, e. split; [reflexivity|].
  cbn [text_content tables total_pages]. auto.
Qed.

End ExtractionStops.

Lemma full_extraction_reads_until_a_page_raises_witness :
  extract_text_with_structure default_chunker second_page_fails no_tables
    "Training_pdfs/partial.pdf"
  = ({| text_content :=
          pages_lines default_chunker 0
            [{| extract_text := inr (Some "Coverage applies to the insured.");
                extract_tables := inr [] |}];
        tables := [];
        total_pages := 2 |},
     [extraction_error "Training_pdfs/partial.pdf" "Unexpected EOF"]).
Proof.
  apply (proj2 (full_extraction_reads_until_a_page_raises default_chunker
                  second_page_fails no_tables "Training_pdfs/partial.pdf")
           [{| extract_text := inr (Some "Coverage applies to the insured.");
               extract_tables := inr [] |}]
           {| extract_text := inl "Unexpected EOF"; extract_tables := inr [] |}
           [] "Unexpected EOF").
  - reflexivity.
  - constructor; [|constructor]. eexists. reflexivity.
  - reflexivity.
Defined.

Lemma ragged_row_ends_simple_extraction_witness :
  exists data e,
    extract_text_from_pdf default_chunker ragged_pdf "Training_pdfs/benefits.pdf"
    = (data, [extraction_error "Training_pdfs/benefits.pdf" e])
    /\ Forall (fun it => (page it <= 2)%Z) (text_content data)
    /\ Forall (fun t => (simple_table_page t <= 2)%Z) (tables data)
    /\ total_pages data = 3%Z.
Proof.
  apply (ragged_row_ends_simple_extraction default_chunker ragged_pdf
           "Training_pdfs/benefits.pdf"
           [{| extract_text := inr (Some "Schedule of benefits");
               extract_tables := inr [] |}]
           {| extract_text := inr (Some "Limits");
              extract_tables := inr [ragged_table] |}
           [{| extract_text := inr (Some "Exclusions apply.");
               extract_tables := inr [] |}]
           [ragged_table] ragged_table [Some "Dental"; None]).
  - reflexivity.
  - reflexivity.
  - now left.
  - cbn. lia.
  - right. now left.
  - reflexivity.
Defined.

(** ** Features *)

Lemma count_go_nonneg (needle : string) (hay : string) :
  forall skip, (0 <= Py.count_go needle skip hay)%Z.
Proof.
  induction hay as [|c hay IH]; intros skip; cbn [Py.count_go]; [lia|].
  destruct skip as [|k]; [|apply IH].
  destruct (String.prefix needle (String c hay)); [|apply IH].
  specialize (IH (String.length needle - 1)). lia.
Qed.

Lemma count_go_positive_contains (needle : string) (hay : string) :
  forall skip, (0 < Py.count_go needle skip hay)%Z -> Py.contains needle hay = true.
Proof.
  induction hay as [|c hay IH]; intros skip; cbn [Py.count_go Py.contains]; [lia|].
  destruct skip as [|k].
  - destruct (String.prefix needle (String c hay)); [reflexivity|].
    intros H. cbn [orb]. exact (IH 0 H).
  - intros H. rewrite (IH k H). apply orb_true_r.
Qed.

Lemma contains_count_go_positive (needle : string) (hay : string) :
  needle <> EmptyString ->
  Py.contains needle hay = true -> (0 < Py.count_go needle 0 hay)%Z.
Proof.
  intros Hneedle. induction hay as [|c hay IH]; cbn [Py.count_go Py.contains].
  - destruct needle; [contradiction | discriminate].
  - destruct (String.prefix needle (String c hay)); cbn [orb].
    + intros _. pose proof (count_go_nonneg needle hay (String.length needle - 1)). lia.
    + exact IH.
Qed.

Lemma count_positive_iff_contains (needle hay : string) :
  needle <> EmptyString ->
  (0 <? Py.count hay needle)%Z = Py.contains needle hay.
Proof.
  intros Hneedle. unfold Py.count.
  destruct (Py.contains needle hay) eqn:Hc.
  - apply Z.ltb_lt. now apply contains_count_go_positive.
  - apply Z.ltb_ge. destruct (Z.ltb_spec 0 (Py.count_go needle 0 hay)) as [H|H]; [|lia].
    apply count_go_positive_contains in H. congruence.
Qed.

Lemma term_counts_lookup_in (g : string -> Z) (terms : list string) (term : string) :
  In term terms ->
  (list_to_map (map (fun t => (t, g t)) terms) : gmap string Z) !! term = Some (g term).
Proof.
  induction terms as [|t terms IH]; cbn [map list_to_map foldr]; [intros []|].
  cbn [fst snd]. intros Hin. destruct (decide (t = term)) as [->|Hne].
  - apply lookup_insert_eq.
  - rewrite lookup_insert_ne by exact Hne. apply IH.
    destruct Hin as [H|H]; [contradiction | exact H].
Qed.

Lemma term_counts_lookup_out (g : string -> Z) (terms : list string) (term : string) :
  ~ In term terms ->
  (list_to_map (map (fun t => (t, g t)) terms) : gmap string Z) !! term = None.
Proof.
  induction terms as [|t terms IH]; cbn [map list_to_map foldr]; intros Hout.
  - apply lookup_empty.
  - cbn [fst snd]. rewrite lookup_insert_ne.
    + apply IH. intros H. apply Hout. now right.
    + intros ->. apply Hout. now left.
Qed.

Lemma extract_features_fields (terms : list string) (full : bool) (text : string) :
  exists f,
    _extract_features terms full text = inr f
    /\ insurance_terms f
       = list_to_map (map (fun term => (term, Py.count (Py.lower text) term)) terms)
    /\ percentages f = findall percentage_pattern text
    /\ dates f = findall date_pattern text
    /\ policy_references f
       = (if full then Some (findall policy_ref_pattern text) else None)
    /\ sentence_count f = Z.of_nat (List.length (Py.split_sep "." text))
    /\ has_table_data f = any_char str_isdigit text.
Proof.
  unfold _extract_features.
  destruct (average_sentence_length (Py.split text) (Py.split_sep "." text))
    as [e|avg] eqn:Havg.
  - exfalso. unfold average_sentence_length, int_truediv in Havg.
    pose proof (split_sep_go_length "." text EmptyString) as Hlen.
    fold (Py.split_sep "." text) in Hlen.
    destruct (Py.split_sep "." text) as [|s l]; [cbn in Hlen; lia|].
    cbn [truthy] in Havg. cbn [List.length] in Havg.
    destruct (Z.eqb_spec (Z.of_nat (S (List.length l))) 0); [lia | discriminate].
  - eexists. split; [reflexivity|]. cbn. repeat split; reflexivity.
Qed.

(** X8. The term counts of the features and the presence test of the score
    agree. For a vocabulary of non-empty terms, the features map each term of
    the vocabulary, and nothing else, to the number of its occurrences in the
    lowercased text; that number is positive exactly when the term occurs in
    the lowercased text; so the term score of the semantic score is the
    number of vocabulary terms the features count at least once. *)
Theorem term_counts_agree_with_presence (terms : list string) (full : bool)
    (text : string) :
  Forall (fun term => term <> EmptyString) terms ->
  exists f,
    _extract_features terms full text = inr f
    /\ (forall term, In term terms ->
          insurance_terms f !! term = Some (Py.count (Py.lower text) term)
          /\ counted f term = Py.contains term (Py.lower text))
    /\ (forall term, ~ In term terms -> insurance_terms f !! term = None)
    /\ count_present terms (Py.lower text)
       = Z.of_nat (List.length (List.filter (counted f) terms)).
Proof.
  intros Hterms.
  destruct (extract_features_fields terms full text) as (f & Hf & Hmap & _).
  exists f. split; [exact Hf|].
  assert (Hin : forall term, In term terms ->
            insurance_terms f !! term = Some (Py.count (Py.lower text) term)
            /\ counted f term = Py.contains term (Py.lower text)).
  { intros term Hterm. unfold counted.
    rewrite Hmap, (term_counts_lookup_in _ _ _ Hterm). split; [reflexivity|].
    apply count_positive_iff_contains.
    revert Hterm. clear -Hterms. induction Hterms as [|t terms Ht _ IH]; [intros []|].
    intros [<- | H]; [exact Ht | now apply IH]. }
  split; [exact Hin|]. split.
  - intros term Hterm. rewrite Hmap. now apply term_counts_lookup_out.
  - unfold count_present. do 2 f_equal. apply filter_ext_in.
    intros term Hterm. symmetry. exact (proj2 (Hin term Hterm)).
Qed.

Lemma term_counts_agree_with_presence_witness :
  exists f,
    _extract_features simple_insurance_terms false premium_fixture = inr f
    /\ (forall term, In term simple_insurance_terms ->
          insurance_terms f !! term = Some (Py.count (Py.lower premium_fixture) term)
          /\ counted f term = Py.contains term (Py.lower premium_fixture))
    /\ (forall term, ~ In term simple_insurance_terms ->
          insurance_terms f !! term = None)
    /\ count_present simple_insurance_terms (Py.lower premium_fixture)
       = Z.of_nat (List.length (List.filter (counted f) simple_insurance_terms)).
Proof.
  apply (term_counts_agree_with_presence simple_insurance_terms false premium_fixture).
  repeat constructor; discriminate.
Defined.

Lemma split_sep_go_full_stops (s : string) :
  forall cur,
    Z.of_nat (List.length (Py.split_sep_go "." cur s))
    = (Py.count_go "." 0 s + 1)%Z.
Proof.
  induction s as [|c s IH]; intros cur; cbn [Py.split_sep_go Py.count_go]; [reflexivity|].
  cbn [String.prefix String.length Nat.sub].
  destruct (ascii_dec "." c) as [<-|Hne].
  - rewrite Ascii.eqb_refl. cbn [List.length]. rewrite Nat2Z.inj_succ, IH.
    destruct s; cbn [String.prefix]; lia.
  - assert (Heq : Ascii.eqb c "." = false) by (apply Ascii.eqb_neq; congruence).
    rewrite Heq. apply IH.
Qed.

(** X9. The sentence count of the features is the number of full stops in
    the text plus one, for both embedders: a text without a full stop counts
    as one sentence, and a full stop at the very end still opens another. *)
Theorem sentence_count_is_full_stops_plus_one (terms : list string) (full : bool)
    (text : string) :
  exists f,
    _extract_features terms full text = inr f
    /\ sentence_count f = (Py.count text "." + 1)%Z.
Proof.
  destruct (extract_features_fields terms full text)
    as (f & Hf & _ & _ & _ & _ & Hcount & _).
  exists f. split; [exact Hf|]. rewrite Hcount. apply split_sep_go_full_stops.
Qed.

Lemma digit_free_tail (c : ascii) (s : string) :
  digit_free (String c s) -> Py.is_digit c = false /\ digit_free s.
Proof. unfold digit_free. cbn [any_char]. apply orb_false_elim. Qed.

Lemma rep_digit_fails (lo : nat) (hi : option nat) (s : string)
    (k : string -> option string) :
  digit_free s -> rep_match Py.is_digit (S lo) hi s k = None.
Proof.
  destruct s as [|c s]; [reflexivity|]. intros H.
  apply digit_free_tail in H as [Hc _]. cbn [rep_match]. now rewrite Hc.
Qed.

Lemma rep_match_fails (p : ascii -> bool) (k : string -> option string) (s : string) :
  (forall s', digit_free s' -> k s' = None) ->
  digit_free s ->
  forall lo hi, rep_match p lo hi s k = None.
Proof.
  intros Hk. induction s as [|c s IH]; intros Hs lo hi; cbn [rep_match].
  - destruct lo; [now apply Hk | reflexivity].
  - pose proof (digit_free_tail c s Hs) as [_ Htail].
    rewrite (IH Htail).
    assert (Hstop : match lo with O => k (String c s) | S _ => None end = None).
    { destruct lo; [now apply Hk | reflexivity]. }
    rewrite Hstop. now destruct (p c && _).
Qed.

Lemma findall_go_digit_free (r : regex) :
  (forall s, digit_free s -> match_here r s Some = None) ->
  forall fuel s, digit_free s -> findall_go fuel r s = [].
Proof.
  intros Hr. induction fuel as [|fuel IH]; intros s Hs; cbn [findall_go]; [reflexivity|].
  rewrite (Hr s Hs). destruct s as [|c s]; [reflexivity|].
  apply IH. exact (proj2 (digit_free_tail c s Hs)).
Qed.

Lemma isdigit_free_digit_free (s : string) :
  any_char str_isdigit s = false -> digit_free s.
Proof.
  unfold digit_free. induction s as [|c s IH]; cbn [any_char]; [reflexivity|].
  intros H. apply orb_false_elim in H as [Hc Hs]. rewrite (IH Hs).
  unfold str_isdigit in Hc. cbn zeta in Hc.
  destruct (Py.is_digit c); [discriminate Hc | reflexivity].
Qed.

(** X10. Percentages, dates and policy references need digits: when the
    features say that the text has no table data (no character is a digit),
    no percentage, no date and, for the full embedder, no policy reference
    was found in it. *)
Theorem no_table_data_no_numbers (terms : list string) (full : bool) (text : string) :
  exists f,
    _extract_features terms full text = inr f
    /\ (has_table_data f = false ->
        percentages f = []
        /\ dates f = []
        /\ policy_references f = (if full then Some [] else None)).
Proof.
  destruct (extract_features_fields terms full text)
    as (f & Hf & _ & Hperc & Hdates & Hrefs & _ & Htable).
  exists f. split; [exact Hf|]. rewrite Htable, Hperc, Hdates, Hrefs.
  intros Hfree. apply isdigit_free_digit_free in Hfree. unfold findall.
  split; [|split].
  - apply findall_go_digit_free; [|exact Hfree].
    intros s Hs. apply (rep_digit_fails 0 None s _ Hs).
  - apply findall_go_digit_free; [|exact Hfree].
    intros s Hs. apply (rep_digit_fails 0 (Some 2) s _ Hs).
  - destruct full; [|reflexivity]. f_equal.
    apply findall_go_digit_free; [|exact Hfree].
    intros s Hs. cbn [policy_ref_pattern match_here].
    apply rep_match_fails; [|exact Hs].
    intros s' Hs'. apply (rep_digit_fails 5 None s' _ Hs').
Qed.

Lemma extract_features_has_table_data (terms : list string) (full : bool)
    (text : string) (f : features) :
  _extract_features terms full text = inr f ->
  has_table_data f = any_char str_isdigit text.
Proof.
  intros Hf. destruct (extract_features_fields terms full text)
    as (f' & Hf' & _ & _ & _ & _ & _ & Htable).
  congruence.
Qed.

Lemma no_table_data_no_numbers_witness :
  exists f,
    _extract_features full_insurance_terms true "Claims must be notified promptly."
    = inr f
    /\ has_table_data f = false
    /\ percentages f = []
    /\ dates f = []
    /\ policy_references f = Some [].
Proof.
  destruct (no_table_data_no_numbers full_insurance_terms true
              "Claims must be notified promptly.") as (f & Hf & H).
  exists f. split; [exact Hf|].
  assert (Htable : has_table_data f = false).
  { rewrite (extract_features_has_table_data _ _ _ _ Hf). reflexivity. }
  split; [exact Htable|]. exact (H Htable).
Defined.

Lemma any_in_false_count_present (xs : list string) (text : string) :
  Py.any_in xs text = false -> count_present xs text = 0%Z.
Proof.
  unfold Py.any_in, count_present. induction xs as [|x xs IH]; cbn [existsb List.filter];
    [reflexivity|].
  intros H. apply orb_false_elim in H as [Hx Hxs]. rewrite Hx. now apply IH.
Qed.

Lemma zero_div_positive (x : float) :
  positive_finite_sf (Prim2SF x) -> (0 / x)%float = 0%float.
Proof.
  intros Hx. apply Prim2SF_inj. rewrite FloatAxioms.div_spec.
  change (Prim2SF 0) with (S754_zero false).
  destruct (Prim2SF x) as [s|s| |[] m e]; try contradiction. reflexivity.
Qed.

(** X11. A text with nothing to score scores exactly zero: when no
    vocabulary term and none of the five legal words occurs in the lowercased
    text and the text has no digit, the semantic score is 0.0, however long
    the text is. *)
Theorem plain_text_scores_zero (terms : list string) (text : string) :
  (Z.of_nat (String.length text) < 2 ^ 63)%Z ->
  Py.any_in terms (Py.lower text) = false ->
  Py.any_in legal_words (Py.lower text) = false ->
  digit_free text ->
  _calculate_semantic_score terms text = 0%float.
Proof.
  intros Hlen Hterms Hlegal Hfree. unfold _calculate_semantic_score.
  rewrite (any_in_false_count_present _ _ Hterms).
  rewrite (any_in_false_count_present _ _ Hlegal).
  unfold findall. rewrite findall_go_digit_free; [| |exact Hfree].
  - change (float_of_int (0 + 0) + float_of_int (Z.of_nat (List.length [])) * 0.1)%float
      with 0%float.
    rewrite zero_div_positive; [reflexivity|].
    apply of_uint63_positive. pose proof (word_count_le_length text). lia.
  - intros s Hs. apply (rep_digit_fails 0 None s _ Hs).
Qed.

Lemma plain_text_scores_zero_witness :
  _calculate_semantic_score simple_insurance_terms "Please keep this letter." = 0%float.
Proof.
  apply plain_text_scores_zero.
  - vm_compute. reflexivity.
  - reflexivity.
  - reflexivity.
  - reflexivity.
Defined.

(** ** Storing *)

Section Storing.

Variable collection : Type.
Variable collection_add : collection -> add_request -> collection * option exn.

Lemma recording_store_chunks (file_name : string) (chunks : list enhanced_chunk) :
  forall (i : nat) (coll : list add_request),
    _store_chunks (list add_request) recording_add coll i chunks file_name
    = (coll ++ imap (fun k chunk => request_of file_name (i + k) chunk) chunks, None).
Proof.
  induction chunks as [|chunk chunks IH]; intros i coll; cbn [_store_chunks imap].
  - now rewrite app_nil_r.
  - unfold recording_add at 1. rewrite IH, <- app_assoc. cbn [app].
    rewrite Nat.add_0_r. do 3 f_equal. apply imap_ext. intros k c _. cbn.
    now rewrite Nat.add_succ_r.
Qed.

Lemma requests_sent_imap (file_name : string) (chunks : list enhanced_chunk) :
  requests_sent chunks file_name
  = imap (fun k chunk => request_of file_name k chunk) chunks.
Proof. unfold requests_sent. now rewrite recording_store_chunks. Qed.

Lemma store_chunks_send_all (file_name : string) (chunks : list enhanced_chunk) :
  forall (i : nat) (coll : collection),
    _store_chunks collection collection_add coll i chunks file_name
    = send_all collection collection_add coll
        (imap (fun k chunk => request_of file_name (i + k) chunk) chunks).
Proof.
  induction chunks as [|chunk chunks IH]; intros i coll; cbn [_store_chunks imap send_all];
    [reflexivity|].
  rewrite Nat.add_0_r.
  destruct (collection_add coll _) as [coll' [e|]]; [reflexivity|].
  rewrite IH. f_equal. apply imap_ext. intros k c _. cbn.
  now rewrite Nat.add_succ_r.
Qed.

Lemma store_chunks_requests_sent (coll : collection) (chunks : list enhanced_chunk)
    (file_name : string) :
  _store_chunks collection collection_add coll 0 chunks file_name
  = send_all collection collection_add coll (requests_sent chunks file_name).
Proof. rewrite requests_sent_imap. apply store_chunks_send_all. Qed.

(** X12. What [_store_chunks] sends does not depend on the store: for every
    store it sends the requests a store that accepts everything receives, one
    after another, and stops at the first that raises. There is one request
    per chunk, in the order of the chunks: the document is the content of
    the chunk, the embedding and the features are those of the chunk, and the
    chunk index is the position of the chunk, counted from 0. *)
Theorem store_chunks_sends_one_request_per_chunk (coll : collection)
    (chunks : list enhanced_chunk) (file_name : string) :
  _store_chunks collection collection_add coll 0 chunks file_name
  = send_all collection collection_add coll (requests_sent chunks file_name)
  /\ List.length (requests_sent chunks file_name) = List.length chunks
  /\ forall i request,
       requests_sent chunks file_name !! i = Some request ->
       exists chunk,
         chunks !! i = Some chunk
         /\ add_document request = content (base_chunk chunk)
         /\ add_embedding request = chunk_embedding chunk
         /\ stored_features (add_metadata request) = chunk_features chunk
         /\ stored_chunk_type (add_metadata request) = type (base_chunk chunk)
         /\ source_file (add_metadata request) = file_name
         /\ chunk_index (add_metadata request) = Z.of_nat i.
Proof.
  split; [apply store_chunks_requests_sent|].
  rewrite requests_sent_imap. split; [apply length_imap|].
  intros i request Hi. rewrite list_lookup_imap in Hi.
  destruct (chunks !! i) as [chunk|]; [|discriminate Hi].
  cbn in Hi. injection Hi as <-. exists chunk. repeat split.
Qed.

End Storing.

Lemma store_chunks_sends_one_request_per_chunk_witness :
  exists request chunk,
    requests_sent sample_enhanced "policy.pdf" !! 1 = Some request
    /\ sample_enhanced !! 1 = Some chunk
    /\ add_document request = content (base_chunk chunk)
    /\ add_id request = "policy.pdf_1"
    /\ chunk_index (add_metadata request) = 1%Z.
Proof.
  assert (Hrequest : exists request,
             requests_sent sample_enhanced "policy.pdf" !! 1 = Some request
             /\ add_id request = "policy.pdf_1").
  { vm_compute. eexists. split; reflexivity. }
  destruct Hrequest as (request & Hrequest & Hid).
  destruct (store_chunks_sends_one_request_per_chunk unit accepting_store tt
              sample_enhanced "policy.pdf") as (_ & _ & H).
  destruct (H 1 request Hrequest) as (chunk & Hchunk & Hdoc & _ & _ & _ & _ & Hindex).
  exists request, chunk. auto.
Defined.

Lemma underscore_free_pretty_go (x : N) :
  forall s, Py.contains "_" s = false -> Py.contains "_" (pretty_N_go x s) = false.
Proof.
  induction x as [x IH] using (well_founded_ind N.lt_wf_0). intros s Hs.
  destruct (decide (x = 0%N)) as [->|Hx]; [now rewrite pretty_N_go_0|].
  rewrite pretty_N_go_step by lia. apply IH.
  - apply N.div_lt; lia.
  - cbn [Py.contains String.prefix]. rewrite Hs.
    assert (Hlt : (x `mod` 10 < 10)%N) by (apply N.mod_lt; lia).
    destruct (x `mod` 10)%N as [|[[[|[]|]|[[]|[]|]|]|[[|[]|]|[[]|[]|]|]|]]; try lia;
      reflexivity.
Qed.

Lemma underscore_free_pretty (i : nat) : Py.contains "_" (pretty i) = false.
Proof.
  unfold pretty, pretty_nat, pretty, pretty_N.
  destruct (decide (N.of_nat i = 0%N)); [reflexivity|].
  now apply underscore_free_pretty_go.
Qed.

Lemma contains_underscore_app (s d : string) :
  Py.contains "_" (s +:+ String "_" d) = true.
Proof.
  induction s as [|c s IH].
  - cbn [String.app Py.contains String.prefix].
    destruct (ascii_dec "_" "_"); [|contradiction]. now destruct d.
  - change (String c s +:+ String "_" d) with (String c (s +:+ String "_" d)).
    cbn [Py.contains]. rewrite IH. apply orb_true_r.
Qed.

Lemma id_parts (s1 s2 d1 d2 : string) :
  Py.contains "_" d1 = false ->
  Py.contains "_" d2 = false ->
  s1 +:+ String "_" d1 = s2 +:+ String "_" d2 ->
  s1 = s2 /\ d1 = d2.
Proof.
  intros Hd1 Hd2. revert s2. induction s1 as [|c s1 IH]; intros [|c2 s2] Heq.
  - cbn in Heq. injection Heq as ->. now split.
  - cbn in Heq. injection Heq as <- ->.
    now rewrite contains_underscore_app in Hd1.
  - cbn in Heq. injection Heq as -> <-.
    now rewrite contains_underscore_app in Hd2.
  - cbn in Heq. injection Heq as -> Heq. destruct (IH s2 Heq) as [-> ->]. now split.
Qed.

(** X13. An id names one chunk of one file. Two requests [_store_chunks]
    sends, for the same file or for two files, have the same id only if they
    are for the same file name and the same position: the ids of one file are
    pairwise distinct, and no id of one file is an id of a file with another
    name. *)
Theorem request_ids_name_file_and_position
    (chunks1 chunks2 : list enhanced_chunk) (file1 file2 : string)
    (i j : nat) (request1 request2 : add_request) :
  requests_sent chunks1 file1 !! i = Some request1 ->
  requests_sent chunks2 file2 !! j = Some request2 ->
  add_id request1 = add_id request2 ->
  file1 = file2 /\ i = j.
Proof.
  rewrite !requests_sent_imap, !list_lookup_imap. intros H1 H2.
  destruct (chunks1 !! i) as [c1|]; [|discriminate H1].
  destruct (chunks2 !! j) as [c2|]; [|discriminate H2].
  cbn in H1, H2. injection H1 as <-. injection H2 as <-. cbn [add_id].
  intros Heq.
  destruct (id_parts file1 file2 (pretty i) (pretty j)
              (underscore_free_pretty i) (underscore_free_pretty j) Heq) as [-> Hp].
  split; [reflexivity|]. now apply (inj pretty).
Qed.

Lemma request_ids_name_file_and_position_witness :
  "policy.pdf" = "policy.pdf" /\ 1 = 1.
Proof.
  eapply (request_ids_name_file_and_position sample_enhanced sample_enhanced
            "policy.pdf" "policy.pdf" 1 1).
  - vm_compute. reflexivity.
  - vm_compute. reflexivity.
  - reflexivity.
Defined.

(** ** Embedding and registering *)

Section PipelineMore.

Variable T : Type.
Variable extract : string -> extracted_data T * list log_record.
Variable build_chunks : extracted_data T -> list chunk.
Variable self_insurance_terms : list string.
Variable full : bool.
Variable encode : string -> exn + list float.
Variable collection : Type.
Variable collection_add : collection -> add_request -> collection * option exn.
Variable processed_at_now : string -> string.

Local Abbreviation embed := (create_embeddings self_insurance_terms full encode).
Local Abbreviation run_one :=
  (process_pdf T extract build_chunks self_insurance_terms full encode
               collection collection_add processed_at_now).
Local Abbreviation run_all :=
  (process_pdfs T extract build_chunks self_insurance_terms full encode
                collection collection_add processed_at_now).
Local Abbreviation chunks_of f := (build_chunks (fst (extract (file_path_str f)))).
Local Abbreviation pages_of f := (total_pages (fst (extract (file_path_str f)))).

Lemma create_embeddings_appends (chunks : list chunk) :
  forall acc enhanced,
    embed chunks acc = inr enhanced ->
    exists more,
      enhanced = acc ++ more
      /\ map base_chunk more = chunks
      /\ Forall (describes self_insurance_terms full encode) more.
Proof.
  induction chunks as [|c chunks IH]; intros acc enhanced; cbn [create_embeddings].
  - intros [= <-]. exists []. now rewrite app_nil_r.
  - destruct (_extract_features self_insurance_terms full (content c)) as [e|f] eqn:Hf;
      cbn [bind]; [discriminate|].
    destruct (encode (content c)) as [e|v] eqn:Hv; cbn [bind]; [discriminate|].
    intros H. destruct (IH _ _ H) as (more & -> & Hbase & Hdesc).
    eexists (_ :: more). rewrite <- app_assoc. split; [reflexivity|].
    cbn [map base_chunk]. split; [now rewrite Hbase|].
    constructor; [|exact Hdesc]. unfold describes. cbn. auto.
Qed.

Lemma create_embeddings_describes_chunks (chunks : list chunk)
    (enhanced : list enhanced_chunk) :
  embed chunks [] = inr enhanced ->
  map base_chunk enhanced = chunks
  /\ Forall (describes self_insurance_terms full encode) enhanced.
Proof.
  intros H. destruct (create_embeddings_appends chunks [] enhanced H)
    as (more & -> & Hbase & Hdesc).
  now split.
Qed.

(** X14. When [create_embeddings] returns, it returns one enhanced chunk
    per chunk, in the order of the chunks and with the chunk unchanged; the
    embedding is what the model gives for the content of that chunk, the
    features are those of that content and the score is the semantic score
    of that content. *)
Theorem create_embeddings_describes_each_chunk (chunks : list chunk)
    (enhanced : list enhanced_chunk) :
  embed chunks [] = inr enhanced ->
  map base_chunk enhanced = chunks
  /\ Forall (describes self_insurance_terms full encode) enhanced.
Proof.
  intros H. destruct (create_embeddings_appends chunks [] enhanced H)
    as (more & -> & Hbase & Hdesc).
  now split.
Qed.

Lemma create_embeddings_first_failure (before : list chunk) (c : chunk)
    (after : list chunk) (e : exn) :
  Forall (fun c' => exists v, encode (content c') = inr v) before ->
  encode (content c) = inl e ->
  forall acc, embed (before ++ c :: after) acc = inl e.
Proof.
  intros Hbefore Hc. induction Hbefore as [|c' before [v Hv] _ IH]; intros acc;
    cbn [app create_embeddings].
  - destruct (extract_features_total self_insurance_terms full (content c)) as (f & ->).
    cbn [bind]. now rewrite Hc.
  - destruct (extract_features_total self_insurance_terms full (content c')) as (f & ->).
    cbn [bind]. rewrite Hv. cbn [bind]. apply IH.
Qed.

Lemma create_embeddings_failure_inv (chunks : list chunk) (e : exn) :
  forall acc,
    embed chunks acc = inl e ->
    exists before c after,
      chunks = before ++ c :: after
      /\ Forall (fun c' => exists v, encode (content c') = inr v) before
      /\ encode (content c) = inl e.
Proof.
  induction chunks as [|c chunks IH]; intros acc; cbn [create_embeddings];
    [discriminate|].
  destruct (extract_features_total self_insurance_terms full (content c)) as (f & ->).
  cbn [bind]. destruct (encode (content c)) as [e'|v] eqn:Hv; cbn [bind].
  - intros [= ->]. exists [], c, chunks. repeat split; [constructor | exact Hv].
  - intros H. destruct (IH _ H) as (before & c' & after & -> & Hbefore & Hc').
    exists (c :: before), c', after. split; [reflexivity|]. split; [|exact Hc'].
    constructor; [eauto | exact Hbefore].
Qed.

(** X15. [create_embeddings] raises exactly what the model raises on the
    first chunk it cannot encode: it raises [e] if and only if the model
    raises [e] on the content of some chunk and encodes the content of every
    chunk before it. Feature extraction and scoring never raise. *)
Theorem create_embeddings_raises_first_encoding_failure (chunks : list chunk)
    (e : exn) :
  embed chunks [] = inl e
  <-> exists before c after,
        chunks = before ++ c :: after
        /\ Forall (fun c' => exists v, encode (content c') = inr v) before
        /\ encode (content c) = inl e.
Proof.
  split.
  - apply create_embeddings_failure_inv.
  - intros (before & c & after & -> & Hbefore & Hc).
    now apply create_embeddings_first_failure.
Qed.

Lemma process_pdf_registry (st : rag_system collection) (f : pdf_file) :
  processed_docs (run_one st f) = processed_docs st
  \/ exists enhanced size,
       embed (chunks_of f) [] = inr enhanced
       /\ st_size f = inr size
       /\ processed_docs (run_one st f)
          = <[ name f := registered_doc f enhanced (pages_of f) size
                           (processed_at_now (name f)) ]> (processed_docs st).
Proof.
  unfold process_pdf. destruct (extract (file_path_str f)) as [data extraction_log].
  cbn [fst]. destruct (embed (build_chunks data) []) as [e|enhanced]; [now left|].
  destruct (_store_chunks collection collection_add (self_collection st) 0 enhanced
              (name f)) as [coll [e|]]; [now left|].
  destruct (st_size f) as [e|size]; [now left|].
  right. exists enhanced, size. repeat split.
Qed.

Lemma process_pdfs_keeps (files : list pdf_file) :
  forall (st : rag_system collection) (k : string),
    is_Some (processed_docs st !! k) ->
    is_Some (processed_docs (run_all st files) !! k).
Proof.
  induction files as [|f files IH]; intros st k Hk; [exact Hk|].
  unfold process_pdfs. cbn [fold_left]. apply IH.
  destruct (process_pdf_registry st f) as [-> | (enhanced & size & _ & _ & ->)];
    [exact Hk|].
  destruct (decide (name f = k)) as [->|Hne].
  - rewrite lookup_insert_eq. eauto.
  - now rewrite lookup_insert_ne.
Qed.

Lemma process_pdfs_entries (files : list pdf_file) :
  forall (st : rag_system collection) (k : string) (d : processed_doc),
    processed_docs (run_all st files) !! k = Some d ->
    processed_docs st !! k = Some d
    \/ exists f enhanced size,
         In f files /\ k = name f
         /\ embed (chunks_of f) [] = inr enhanced
         /\ st_size f = inr size
         /\ d = registered_doc f enhanced (pages_of f) size (processed_at_now (name f)).
Proof.
  induction files as [|f files IH]; intros st k d Hd; [now left|].
  unfold process_pdfs in Hd. cbn [fold_left] in Hd.
  destruct (IH _ _ _ Hd) as [Hone | (f' & enhanced & size & Hin & Hrest)].
  - destruct (process_pdf_registry st f) as [Heq | (enhanced & size & Hemb & Hsize & Heq)];
      rewrite Heq in Hone; [now left|].
    destruct (decide (name f = k)) as [<-|Hne].
    + rewrite lookup_insert_eq in Hone. injection Hone as <-.
      right. exists f, enhanced, size. repeat split; auto. now left.
    + rewrite lookup_insert_ne in Hone by exact Hne. now left.
  - right. exists f', enhanced, size. split; [now right | exact Hrest].
Qed.

(** X16. The registry only grows, and only by listed files. Whatever
    happens during a batch, every file name registered before it is still
    registered after it; and every entry found after it either was there
    before, unchanged, or is the entry of a listed file whose chunks were all
    embedded and whose size could be read: it holds these enhanced chunks,
    their number, the path, the size and the page count the extractor
    reported. *)
Theorem registry_only_grows (st : rag_system collection) (files : list pdf_file) :
  (forall k, is_Some (processed_docs st !! k) ->
             is_Some (processed_docs (run_all st files) !! k))
  /\ (forall k d,
        processed_docs (run_all st files) !! k = Some d ->
        processed_docs st !! k = Some d
        \/ exists f enhanced size,
             In f files /\ k = name f
             /\ embed (chunks_of f) [] = inr enhanced
             /\ st_size f = inr size
             /\ d = registered_doc f enhanced (pages_of f) size
                      (processed_at_now (name f))).
Proof.
  split; [intros k; apply process_pdfs_keeps | apply process_pdfs_entries].
Qed.

Lemma send_all_app (sent rest : list add_request) :
  forall (coll coll' : collection),
    send_all collection collection_add coll sent = (coll', None) ->
    send_all collection collection_add coll (sent ++ rest)
    = send_all collection collection_add coll' rest.
Proof.
  induction sent as [|r sent IH]; intros coll coll'; cbn [send_all app].
  - now intros [= ->].
  - destruct (collection_add coll r) as [coll1 [e|]]; [discriminate|]. apply IH.
Qed.

(** X17. A failure of the store is not rolled back. When the store accepts
    the first requests for a file and raises on a later one, the file is not
    registered and the error is logged, but the system keeps the store as
    the failing request left it: the chunks accepted before it stay stored. *)
Theorem store_failure_is_not_rolled_back (st : rag_system collection) (f : pdf_file)
    (enhanced : list enhanced_chunk) (sent : list add_request) (request : add_request)
    (rest : list add_request) (coll1 coll2 : collection) (e : exn) :
  embed (chunks_of f) [] = inr enhanced ->
  requests_sent enhanced (name f) = sent ++ request :: rest ->
  send_all collection collection_add (self_collection st) sent = (coll1, None) ->
  collection_add coll1 request = (coll2, Some e) ->
  self_collection (run_one st f) = coll2
  /\ processed_docs (run_one st f) = processed_docs st
  /\ log (run_one st f)
     = (log st ++ [announcement f]) ++ snd (extract (file_path_str f))
       ++ [processing_error f e].
Proof.
  intros Hemb Hreq Hsent Hfail. unfold process_pdf.
  destruct (extract (file_path_str f)) as [data extraction_log]. cbn [fst snd] in *.
  rewrite Hemb.
  rewrite (store_chunks_requests_sent collection collection_add).
  rewrite Hreq, (send_all_app sent (request :: rest) _ _ Hsent).
  cbn [send_all]. rewrite Hfail. cbn [self_collection processed_docs log].
  repeat split. unfold announcement. now rewrite <- app_assoc.
Qed.

End PipelineMore.

Lemma create_embeddings_describes_each_chunk_witness :
  exists enhanced,
    create_embeddings simple_insurance_terms false sample_encode sample_chunks []
    = inr enhanced
    /\ map base_chunk enhanced = sample_chunks
    /\ Forall (describes simple_insurance_terms false sample_encode) enhanced.
Proof.
  destruct (create_embeddings_returns simple_insurance_terms false sample_encode
              sample_chunks ltac:(intros c _; eexists; reflexivity) [])
    as (enhanced & Hemb & _).
  exists enhanced. split; [exact Hemb|].
  exact (create_embeddings_describes_each_chunk simple_insurance_terms false
           sample_encode sample_chunks enhanced Hemb).
Defined.

Lemma create_embeddings_raises_first_encoding_failure_witness :
  create_embeddings simple_insurance_terms false short_encode sample_chunks []
  = inl "Input too long".
Proof.
  apply (proj2 (create_embeddings_raises_first_encoding_failure
                  simple_insurance_terms false short_encode sample_chunks
                  "Input too long")).
  eexists [_], _, []. split; [reflexivity|]. split.
  - constructor; [|constructor]. eexists. vm_compute. reflexivity.
  - vm_compute. reflexivity.
Defined.

Lemma registry_only_grows_witness :
  is_Some (processed_docs
             (simple_process_pdfs period_sentences fixed_clock one_page failing_encode
                unit accepting_store fixed_time old_system [policy_pdf])
           !! "old.pdf").
Proof.
  apply (proj1 (registry_only_grows simple_table
                  (extract_text_from_pdf default_chunker one_page)
                  (create_chunks period_sentences fixed_clock default_chunker)
                  simple_insurance_terms false failing_encode unit accepting_store
                  fixed_time old_system [policy_pdf])).
  eexists. vm_compute. reflexivity.
Defined.

Lemma store_failure_is_not_rolled_back_witness :
  self_collection
    (simple_process_pdfs period_sentences fixed_clock one_page_with_table sample_encode
       nat limited_add fixed_time one_slot_system [benefits_pdf]) = 0
  /\ processed_docs
       (simple_process_pdfs period_sentences fixed_clock one_page_with_table
          sample_encode nat limited_add fixed_time one_slot_system [benefits_pdf])
     = processed_docs one_slot_system.
Proof.
  destruct (create_embeddings_returns simple_insurance_terms false sample_encode
              (create_chunks period_sentences fixed_clock default_chunker
                 (fst (extract_text_from_pdf default_chunker one_page_with_table
                         (file_path_str benefits_pdf))))
              ltac:(intros c _; eexists; reflexivity) [])
    as (enhanced & Hemb & Hlen).
  destruct enhanced as [|first [|second [|third enhanced]]];
    try (vm_compute in Hlen; discriminate Hlen).
  destruct (store_failure_is_not_rolled_back simple_table
              (extract_text_from_pdf default_chunker one_page_with_table)
              (create_chunks period_sentences fixed_clock default_chunker)
              simple_insurance_terms false sample_encode nat limited_add fixed_time
              one_slot_system benefits_pdf [first; second]
              [request_of "benefits.pdf" 0 first] (request_of "benefits.pdf" 1 second) []
              0 0 "Quota exceeded" Hemb)
    as (Hcoll & Hdocs & _).
  - reflexivity.
  - reflexivity.
  - reflexivity.
  - split; [exact Hcoll | exact Hdocs].
Defined.

(** ** Retrieval: errors and empty answers *)

Section RetrievalErrors.

Variable stored_metadata : Type.
Variable embedding : Type.
Variable collection : Type.
Variable encode : string -> exn + embedding.
Variable collection_query :
  collection -> list embedding -> Z -> option (gmap string string)
  -> exn + query_result stored_metadata.

Local Abbreviation ask :=
  (query stored_metadata embedding collection encode collection_query).
Local Abbreviation format_one := (format_result stored_metadata).
Local Abbreviation format_all := (format_results stored_metadata).

Lemma index_error_only {A : Type} (l : list A) (i : nat) (e : exn) :
  index l i = inl e -> e = index_error.
Proof. unfold index. destruct (nth_error l i); [discriminate | now intros [= <-]]. Qed.

Lemma format_result_error (results : query_result stored_metadata) (i : nat) (e : exn) :
  format_one results i = inl e -> e = index_error.
Proof.
  unfold format_result.
  destruct (index (documents results) 0) as [e1|docs] eqn:H1; cbn [bind];
    [intros [= <-]; exact (index_error_only _ _ _ H1)|].
  destruct (index docs i) as [e2|c] eqn:H2; cbn [bind];
    [intros [= <-]; exact (index_error_only _ _ _ H2)|].
  destruct (index (metadatas results) 0) as [e3|metas] eqn:H3; cbn [bind];
    [intros [= <-]; exact (index_error_only _ _ _ H3)|].
  destruct (index metas i) as [e4|m] eqn:H4; cbn [bind];
    [intros [= <-]; exact (index_error_only _ _ _ H4)|].
  destruct (index (distances results) 0) as [e5|dists] eqn:H5; cbn [bind];
    [intros [= <-]; exact (index_error_only _ _ _ H5)|].
  destruct (index dists i) as [e6|d] eqn:H6; cbn [bind];
    [intros [= <-]; exact (index_error_only _ _ _ H6)|].
  discriminate.
Qed.

Lemma format_result_missing (results : query_result stored_metadata) (i : nat) :
  returned_metadata results i = None \/ returned_distance results i = None ->
  format_one results i = inl index_error.
Proof.
  intros Hmissing. destruct (format_one results i) as [e|r] eqn:Hr.
  - f_equal. now apply (format_result_error results i).
  - exfalso. destruct (format_result_inv stored_metadata results i r Hr)
      as (_ & Hm & d & Hd & _).
    destruct Hmissing; congruence.
Qed.

Lemma format_results_missing (results : query_result stored_metadata) (range : list nat)
    (i : nat) :
  In i range ->
  format_one results i = inl index_error ->
  forall acc, format_all results acc range = inl index_error.
Proof.
  intros Hin Hi. induction range as [|j range IH]; intros acc; [destruct Hin|].
  cbn [format_results].
  destruct (format_one results j) as [e|r] eqn:Hj; cbn [bind].
  - f_equal. now apply (format_result_error results j).
  - destruct Hin as [-> | Hin]; [congruence|]. now apply IH.
Qed.

(** X18. How [query] fails, and what it returns for an empty answer. An
    exception of the embedding model or of the store is raised unchanged. An
    answer without any document list raises IndexError. An answer whose
    document list is empty gives no result, whatever else the answer holds.
    An answer that lacks the metadata or the distance of one of its
    documents raises IndexError, and no result is returned for the others.
    An empty filter is passed to the store as no filter. *)
Theorem query_errors_and_empty_answers (coll : collection) (question : string)
    (top_k : Z) (filter_metadata : option (gmap string string)) :
  (forall e, encode question = inl e ->
             ask coll question top_k filter_metadata = inl e)
  /\ (forall v e,
        encode question = inr v ->
        collection_query coll [v] top_k (where_clause_of filter_metadata) = inl e ->
        ask coll question top_k filter_metadata = inl e)
  /\ (forall v results,
        encode question = inr v ->
        collection_query coll [v] top_k (where_clause_of filter_metadata) = inr results ->
        (documents results = [] ->
         ask coll question top_k filter_metadata = inl index_error)
        /\ (forall rest, documents results = [] :: rest ->
                         ask coll question top_k filter_metadata = inr [])
        /\ (forall i document,
              returned_document results i = Some document ->
              returned_metadata results i = None \/ returned_distance results i = None ->
              ask coll question top_k filter_metadata = inl index_error))
  /\ ask coll question top_k (Some ∅) = ask coll question top_k None.
Proof.
  split; [|split; [|split]].
  - intros e He. unfold query. now rewrite He.
  - intros v e Hv He. unfold query. rewrite Hv. cbn [bind]. now rewrite He.
  - intros v results Hv Hresults. unfold query. rewrite Hv. cbn [bind].
    rewrite Hresults. cbn [bind]. split; [|split].
    + now intros ->.
    + now intros rest ->.
    + intros i document Hdoc Hmissing. unfold returned_document in Hdoc.
      destruct (documents results) as [|docs rest] eqn:Hdocs; [discriminate|].
      cbn [index nth_error bind].
      apply (format_results_missing results _ i).
      * apply in_seq. apply lookup_lt_Some in Hdoc. lia.
      * now apply format_result_missing.
  - reflexivity.
Qed.

End RetrievalErrors.

Lemma query_errors_and_empty_answers_witness :
  query string (list float) unit sample_encode short_collection_query
        tt "What is the deductible?" 5 None
  = inl index_error.
Proof.
  destruct (query_errors_and_empty_answers string (list float) unit sample_encode
              short_collection_query tt "What is the deductible?" 5 None)
    as (_ & _ & H & _).
  destruct (H [0.5%float] short_answer eq_refl eq_refl) as (_ & _ & Hmissing).
  apply (Hmissing 1 "Premium is due monthly." eq_refl). right. reflexivity.
Defined.

(** ** Query evaluation *)

Lemma positive_not_zero (x : float) :
  (0 <? x)%float = true -> (x =? 0)%float = false.
Proof.
  rewrite FloatAxioms.ltb_spec, FloatAxioms.eqb_spec.
  change (Prim2SF 0) with (S754_zero false).
  destruct (Prim2SF x) as [s|s| |s m e]; try destruct s; cbn; congruence.
Qed.

Lemma relevant_count_range {A : Type} (relevant : A -> bool) (results : list A) :
  forall count : Z,
    (count <= fold_left (fun relevant_count result =>
                           if relevant result then relevant_count + 1 else relevant_count)
                        results count
     <= count + Z.of_nat (List.length results))%Z.
Proof.
  induction results as [|r results IH]; intros count; cbn [fold_left List.length]; [lia|].
  destruct (relevant r).
  - specialize (IH (count + 1)%Z). lia.
  - specialize (IH count). lia.
Qed.

Lemma relevant_count_none {A : Type} (relevant : A -> bool) (results : list A) :
  Forall (fun result => relevant result = false) results ->
  forall count : Z,
    fold_left (fun relevant_count result =>
                 if relevant result then (relevant_count + 1)%Z else relevant_count)
              results count
    = count.
Proof.
  induction 1 as [|r results Hr _ IH]; intros count; cbn [fold_left]; [reflexivity|].
  rewrite Hr. apply IH.
Qed.

Lemma calculate_metrics_total (results : list (retrieval_result stored_metadata))
    (sections keywords : list string) :
  exists p r f1, _calculate_metrics results sections keywords = inr (p, r, f1).
Proof.
  unfold _calculate_metrics. destruct results as [|result results]; [cbn; eauto|].
  cbn [truthy negb]. unfold int_truediv.
  destruct (Z.eqb_spec (Z.of_nat (List.length (result :: results))) 0) as [H|_];
    [cbn [List.length] in H; lia|].
  cbn [bind].
  destruct (Z.eqb_spec (Z.max (Z.of_nat (List.length sections)
                               + Z.of_nat (List.length keywords)) 1) 0) as [H|_]; [lia|].
  cbn [bind].
  destruct (0 <? _ + _)%float eqn:Hpos; cbn [bind]; [|eauto].
  unfold float_truediv. rewrite (positive_not_zero _ Hpos). cbn [bind]. eauto.
Qed.

(** X19. [_calculate_metrics] never raises: for every list of results and
    every pair of expectations it returns a precision, a recall and an F1
    score. None of its three divisions can divide by zero. *)
Theorem calculate_metrics_never_raises
    (results : list (retrieval_result stored_metadata))
    (sections keywords : list string) :
  exists p r f1, _calculate_metrics results sections keywords = inr (p, r, f1).
Proof. apply calculate_metrics_total. Qed.

Lemma no_expectation_no_relevance (result : retrieval_result stored_metadata) :
  is_relevant [] [] result = false.
Proof. reflexivity. Qed.

Lemma calculate_metrics_zero (results : list (retrieval_result stored_metadata))
    (sections keywords : list string) :
  (Z.of_nat (List.length results) < 2 ^ 63)%Z ->
  (Z.of_nat (List.length sections) + Z.of_nat (List.length keywords) < 2 ^ 63)%Z ->
  Forall (fun result => is_relevant sections keywords result = false) results ->
  _calculate_metrics results sections keywords = inr (0%float, 0%float, 0%float).
Proof.
  intros Hresults Hexpected Hnone. unfold _calculate_metrics.
  destruct results as [|result results]; [reflexivity|].
  cbn [truthy negb]. rewrite (relevant_count_none _ _ Hnone). unfold int_truediv.
  destruct (Z.eqb_spec (Z.of_nat (List.length (result :: results))) 0) as [H|_];
    [cbn [List.length] in H; lia|].
  cbn [bind].
  destruct (Z.eqb_spec (Z.max (Z.of_nat (List.length sections)
                               + Z.of_nat (List.length keywords)) 1) 0) as [H|_]; [lia|].
  cbn [bind]. change (float_of_int 0) with 0%float.
  rewrite !zero_div_positive.
  - reflexivity.
  - apply of_uint63_positive. lia.
  - apply of_uint63_positive. cbn [List.length] in *. lia.
Qed.

(** X20. Results that match no expectation score zero. When no returned
    result is in an expected section or contains an expected keyword, the
    precision, the recall and the F1 score are all exactly 0.0; in
    particular a test case without expected sections and without expected
    keywords scores zero whatever the query returns. *)
Theorem unmatched_results_score_zero
    (results : list (retrieval_result stored_metadata))
    (sections keywords : list string) :
  (Z.of_nat (List.length results) < 2 ^ 63)%Z ->
  (Z.of_nat (List.length sections) + Z.of_nat (List.length keywords) < 2 ^ 63)%Z ->
  (Forall (fun result => is_relevant sections keywords result = false) results ->
   _calculate_metrics results sections keywords = inr (0%float, 0%float, 0%float))
  /\ _calculate_metrics results [] [] = inr (0%float, 0%float, 0%float).
Proof.
  intros Hresults Hexpected. split.
  - now apply calculate_metrics_zero.
  - apply calculate_metrics_zero; [exact Hresults | cbn; lia |].
    clear. induction results; constructor; auto.
Qed.

Lemma add_float_is_float (total : number) (x : float) :
  exists y, add_float total x = Float y.
Proof. destruct total; cbn; eauto. Qed.

Section EvaluatorProperties.

Variable embedding : Type.
Variable collection : Type.
Variable encode : string -> exn + embedding.
Variable collection_query :
  collection -> list embedding -> Z -> option (gmap string string)
  -> exn + query_result stored_metadata.
Variable rag_collection : collection.

Local Abbreviation ask question :=
  (query stored_metadata embedding collection encode collection_query
         rag_collection question 5 None).
Local Abbreviation loop :=
  (evaluate_loop embedding collection encode collection_query rag_collection).
Local Abbreviation evaluate :=
  (evaluate_queries embedding collection encode collection_query rag_collection).

(** Why the loop can end early: a test case without a query, or a query that
    raises. *)
Local Abbreviation loop_failure test_queries e :=
  (exists test_case,
      In test_case test_queries
      /\ (case_query test_case = None
          \/ exists question,
               case_query test_case = Some question /\ ask question = inl e)).

Lemma evaluate_loop_appends (total_queries : nat) (test_queries : list test_case) :
  forall (i : nat) (st st' : evaluator_state) (raised : option exn),
    loop total_queries i test_queries st = (st', raised) ->
    exists new,
      evaluation_results st' = evaluation_results st ++ new
      /\ List.length new <= List.length test_queries
      /\ (raised = None ->
          List.length new = List.length test_queries
          /\ map (fun e => Some (evaluated_query e)) new = map case_query test_queries
          /\ (test_queries <> [] ->
              exists x y z, total_precision st' = Float x
                            /\ total_recall st' = Float y /\ total_f1 st' = Float z))
      /\ (forall e, raised = Some e -> loop_failure test_queries e).
Proof.
  induction test_queries as [|tc rest IH]; intros i st st' raised; cbn [evaluate_loop].
  - intros [= <- <-]. exists []. rewrite app_nil_r.
    split; [reflexivity|]. split; [reflexivity|]. split; [|discriminate].
    intros _. split; [reflexivity|]. split; [reflexivity|]. now intros [].
  - destruct (case_query tc) as [question|] eqn:Hq.
    2:{ intros [= <- <-]. exists []. rewrite app_nil_r. cbn [List.length].
        split; [reflexivity|]. split; [lia|]. split; [discriminate|].
        intros e _. exists tc. split; [now left | now left]. }
    destruct (ask question) as [e|results] eqn:Hask.
    { intros [= <- <-]. exists []. cbn [evaluation_results List.length].
      rewrite app_nil_r. split; [reflexivity|]. split; [lia|]. split; [discriminate|].
      intros e' [= <-]. exists tc. split; [now left|]. right. eauto. }
    destruct (calculate_metrics_total results (default [] (expected_sections tc))
                (default [] (expected_keywords tc))) as (p & r & f1 & ->).
    intros Hloop. destruct (IH _ _ _ _ Hloop) as (new & Hnew & Hlen & Hnone & Hsome).
    cbn [evaluation_results] in Hnew. rewrite <- app_assoc in Hnew.
    eexists (_ :: new). split; [exact Hnew|]. cbn [List.length map evaluated_query].
    split; [lia|]. split.
    + intros Hraised. destruct (Hnone Hraised) as (Hlen' & Hmap & Htotals).
      split; [lia|]. split; [now rewrite Hmap, Hq|]. intros _.
      destruct rest as [|tc' rest].
      * cbn [evaluate_loop] in Hloop. injection Hloop as <- _.
        cbn [total_precision total_recall total_f1].
        destruct (add_float_is_float (total_precision st) p) as [x ->].
        destruct (add_float_is_float (total_recall st) r) as [y ->].
        destruct (add_float_is_float (total_f1 st) f1) as [z ->].
        now exists x, y, z.
      * apply Htotals. discriminate.
    + intros e He. destruct (Hsome e He) as (tc' & Hin & Hwhy).
      exists tc'. split; [now right | exact Hwhy].
Qed.

(** X21. What [evaluate_queries] records and when it fails. It only
    appends to the recorded evaluations, at most one per test case. When it
    returns a report, it has appended exactly one evaluation per test case,
    in order; the report counts the test cases of this call, but its detailed
    results are all recorded evaluations, those of earlier calls included. It
    raises only for an empty list of test cases (a division by zero), for a
    test case without a query, or when a query raises. *)
Theorem evaluate_queries_appends_to_earlier_results
    (earlier : list evaluation) (test_queries : list test_case)
    (outcome : exn + evaluation_report) (recorded : list evaluation)
    (lines : list string) :
  evaluate earlier test_queries = (outcome, recorded, lines) ->
  exists new,
    recorded = earlier ++ new
    /\ List.length new <= List.length test_queries
    /\ (forall report,
          outcome = inr report ->
          total_queries report = Z.of_nat (List.length test_queries)
          /\ detailed_results report = earlier ++ new
          /\ List.length new = List.length test_queries
          /\ map (fun e => Some (evaluated_query e)) new = map case_query test_queries)
    /\ (forall e,
          outcome = inl e ->
          (test_queries = [] /\ e = "ZeroDivisionError: division by zero")
          \/ loop_failure test_queries e).
Proof.
  unfold evaluate_queries.
  destruct (loop (List.length test_queries) 1 test_queries _) as [st raised] eqn:Hloop.
  intros [= <- <- <-].
  destruct (evaluate_loop_appends _ _ _ _ _ _ Hloop) as (new & Hnew & Hlen & Hnone & Hsome).
  cbn [evaluation_results] in Hnew. exists new. split; [exact Hnew|]. split; [exact Hlen|].
  destruct raised as [e|].
  - split; [discriminate|]. intros e' [= <-]. right. now apply Hsome.
  - destruct (Hnone eq_refl) as (Hlen' & Hmap & Htotals). split.
    + intros report Hreport.
      destruct (number_truediv (total_precision st) _) as [e1|ap]; [discriminate|].
      destruct (number_truediv (total_recall st) _) as [e2|ar]; [discriminate|].
      destruct (number_truediv (total_f1 st) _) as [e3|af]; [discriminate|].
      cbn [bind] in Hreport. injection Hreport as <-.
      cbn [total_queries detailed_results]. now rewrite Hnew.
    + intros e He. destruct test_queries as [|tc rest].
      * left. split; [reflexivity|]. cbn [evaluate_loop] in Hloop.
        injection Hloop as <-. cbn in He. now injection He as <-.
      * exfalso. destruct (Htotals ltac:(discriminate)) as (x & y & z & Hx & Hy & Hz).
        rewrite Hx, Hy, Hz in He. unfold number_truediv in He.
        destruct (Z.eqb_spec (Z.of_nat (List.length (tc :: rest))) 0) as [H|_];
          [cbn [List.length] in H; lia|].
        discriminate He.
Qed.

End EvaluatorProperties.

Lemma unmatched_results_score_zero_witness :
  _calculate_metrics stored_results ["exclusion"] ["deductible"]
  = inr (0%float, 0%float, 0%float).
Proof.
  assert (Hresults : (Z.of_nat (List.length stored_results) < 2 ^ 63)%Z)
    by (vm_compute; reflexivity).
  assert (Hexpected : (Z.of_nat (List.length ["exclusion"])
                       + Z.of_nat (List.length ["deductible"]) < 2 ^ 63)%Z)
    by (vm_compute; reflexivity).
  apply (proj1 (unmatched_results_score_zero stored_results ["exclusion"] ["deductible"]
                  Hresults Hexpected)).
  vm_compute. repeat constructor.
Defined.

Lemma evaluate_queries_appends_to_earlier_results_witness :
  exists report recorded lines,
    evaluate_queries (list float) unit sample_encode stored_collection_query tt
      [earlier_evaluation] [premium_case]
    = (inr report, recorded, lines)
    /\ total_queries report = 1%Z
    /\ List.length (detailed_results report) = 2.
Proof.
  assert (H : exists report recorded lines,
             evaluate_queries (list float) unit sample_encode stored_collection_query tt
               [earlier_evaluation] [premium_case]
             = (inr report, recorded, lines)).
  { vm_compute. do 3 eexists. reflexivity. }
  destruct H as (report & recorded & lines & H).
  exists report, recorded, lines. split; [exact H|].
  destruct (evaluate_queries_appends_to_earlier_results (list float) unit sample_encode
              stored_collection_query tt [earlier_evaluation] [premium_case]
              (inr report) recorded lines H)
    as (new & _ & _ & Hreport & _).
  destruct (Hreport report eq_refl) as (Htotal & Hdetailed & Hlen & _).
  split; [exact Htotal|]. rewrite Hdetailed, length_app, Hlen. reflexivity.
Defined.

(** ** Submission endpoint *)

Section ApiProperties.

Variable system : Type.
Variable system_query : system -> string -> Z -> exn + list api_result.
Variable post : string -> exn + http_reply.

Local Abbreviation answer_all := (answer_questions system system_query post).
Local Abbreviation submit := (run_submission system system_query post).
Local Abbreviation is_answered := (answered system system_query post).

Lemma answer_questions_answers (rag_system : system) (api_key : option string)
    (questions : list string) :
  forall (i : nat) (answers : list string) (log : list log_record)
         (all_answers : list string) (log' : list log_record),
    answer_all rag_system api_key i questions answers log = (inr all_answers, log') ->
    exists new,
      all_answers = answers ++ new
      /\ Forall2 (is_answered rag_system api_key) questions new.
Proof.
  induction questions as [|question rest IH]; intros i answers log all_answers log';
    cbn [answer_questions].
  - intros [= <- <-]. exists []. rewrite app_nil_r. split; [reflexivity | constructor].
  - destruct (system_query rag_system question 3) as [e|results] eqn:Hq; [discriminate|].
    destruct results as [|result results]; cbn [truthy negb].
    + intros H. destruct (IH _ _ _ _ _ H) as (new & -> & Hnew).
      exists (no_information :: new). rewrite <- app_assoc. split; [reflexivity|].
      constructor; [|exact Hnew]. exists []. split; [exact Hq|]. left. now split.
    + destruct (collect_context (result :: results) []) as [e|parts] eqn:Hparts;
        [discriminate|].
      destruct (generate_answer post api_key question (Py.join newline parts))
        as [answer client_log] eqn:Hanswer.
      intros H. destruct (IH _ _ _ _ _ H) as (new & -> & Hnew).
      exists (answer :: new). rewrite <- app_assoc. split; [reflexivity|].
      constructor; [|exact Hnew]. exists (result :: results). split; [exact Hq|].
      right. split; [discriminate|]. exists parts. split; [exact Hparts|].
      now rewrite Hanswer.
Qed.

(** X22. A submission that returns answers every question, in order. When
    [run_submission] returns, there is exactly one answer per question, at
    the position of the question: the fixed sentence "No relevant information
    found in the policy documents." when the query gives no result for that
    question, and otherwise what the language model client answers to the
    question and the context built from the results, three results at most
    being asked for. *)
Theorem submission_answers_every_question (rag_system : option system)
    (GROQ_API_KEY : option string) (questions answers : list string)
    (log : list log_record) :
  submit rag_system GROQ_API_KEY questions = (Returned answers, log) ->
  exists rag, rag_system = Some rag
              /\ Forall2 (is_answered rag GROQ_API_KEY) questions answers.
Proof.
  unfold run_submission. destruct rag_system as [rag|]; [|discriminate].
  destruct (negb (key_truthy GROQ_API_KEY)); [discriminate|].
  destruct (answer_all rag GROQ_API_KEY 0 questions [] _) as [[e|all_answers] log']
    eqn:Hloop; [discriminate|].
  intros [= <- <-]. exists rag. split; [reflexivity|].
  destruct (answer_questions_answers _ _ _ _ _ _ _ _ Hloop) as (new & -> & Hnew).
  exact Hnew.
Qed.

Lemma collect_context_lacks_key (results : list api_result) (result : api_result) :
  In result results -> lacks_key result ->
  forall context_parts, exists e, collect_context results context_parts = inl e.
Proof.
  intros Hin Hlacks. induction results as [|r results IH]; [destruct Hin|].
  intros context_parts. cbn [collect_context]. unfold dict_get.
  destruct (api_metadata r !! "source_file") as [source|] eqn:Hsource; cbn [bind];
    [|eauto].
  destruct (api_metadata r !! "section_type") as [section|] eqn:Hsection; cbn [bind];
    [|eauto].
  destruct Hin as [-> | Hin]; [|now apply IH].
  destruct Hlacks; congruence.
Qed.

Lemma answer_questions_fails (rag_system : system) (api_key : option string)
    (questions : list string) (question : string) :
  In question questions ->
  (exists e, system_query rag_system question 3 = inl e)
  \/ (exists results result,
        system_query rag_system question 3 = inr results
        /\ In result results /\ lacks_key result) ->
  forall (i : nat) (answers : list string) (log : list log_record),
    exists e log', answer_all rag_system api_key i questions answers log = (inl e, log').
Proof.
  intros Hin Hbad. induction questions as [|q rest IH]; [destruct Hin|].
  intros i answers log. cbn [answer_questions].
  destruct (system_query rag_system q 3) as [e|results] eqn:Hq; [eauto|].
  destruct results as [|result results]; cbn [truthy negb].
  - destruct Hin as [-> | Hin]; [|now apply IH].
    destruct Hbad as [[e He] | (results & result & Hr & Hres & _)]; [congruence|].
    rewrite Hq in Hr. injection Hr as <-. destruct Hres.
  - destruct (collect_context (result :: results) []) as [e|parts] eqn:Hparts; [eauto|].
    destruct (generate_answer post api_key q (Py.join newline parts))
      as [answer client_log].
    destruct Hin as [-> | Hin]; [|now apply IH].
    destruct Hbad as [[e He] | (results' & result' & Hr & Hres & Hlacks)]; [congruence|].
    rewrite Hq in Hr. injection Hr as <-.
    destruct (collect_context_lacks_key _ _ Hres Hlacks []) as [e He]. congruence.
Qed.

(** X23. How a submission fails. Without a RAG system it is refused with
    status 503, and so it is without an API key or with an empty one, in this
    order and before any question is looked at. With both, one question whose
    query raises, or whose results lack the source file or the section type
    in their metadata, fails the whole submission with status 500: no answer
    is returned, not even those of the questions answered before it. *)
Theorem submission_failures (rag : system) (GROQ_API_KEY : option string)
    (questions : list string) :
  submit None GROQ_API_KEY questions
  = (HTTPException 503 "RAG system not initialized", [])
  /\ (key_truthy GROQ_API_KEY = false ->
      submit (Some rag) GROQ_API_KEY questions
      = (HTTPException 503 "Groq API key not configured", []))
  /\ (key_truthy GROQ_API_KEY = true ->
      forall question,
        In question questions ->
        (exists e, system_query rag question 3 = inl e)
        \/ (exists results result,
              system_query rag question 3 = inr results
              /\ In result results /\ lacks_key result) ->
        exists e log,
          submit (Some rag) GROQ_API_KEY questions
          = (HTTPException 500 ("Error processing submission: " +:+ e), log)).
Proof.
  split; [reflexivity|]. split.
  - intros Hkey. unfold run_submission. now rewrite Hkey.
  - intros Hkey question Hin Hbad. unfold run_submission. rewrite Hkey. cbn [negb].
    destruct (answer_questions_fails rag GROQ_API_KEY questions question Hin Hbad 0 []
                [(INFO, "Processing " +:+ pretty (List.length questions) +:+ " questions")])
      as (e & log' & ->).
    eauto.
Qed.

End ApiProperties.

Lemma submission_answers_every_question_witness :
  exists rag,
    Some tt = Some rag
    /\ Forall2 (answered unit sample_system_query sample_post rag (Some "gsk-key"))
               ["When is the premium due?"; "Is flood damage covered?"]
               ["The premium is due monthly."; no_information].
Proof.
  apply (submission_answers_every_question unit sample_system_query sample_post
           (Some tt) (Some "gsk-key")
           ["When is the premium due?"; "Is flood damage covered?"]
           ["The premium is due monthly."; no_information]
           (snd (run_submission unit sample_system_query sample_post (Some tt)
                   (Some "gsk-key")
                   ["When is the premium due?"; "Is flood damage covered?"]))).
  vm_compute. reflexivity.
Defined.

Lemma submission_failures_witness :
  exists e log,
    run_submission unit sample_system_query sample_post (Some tt) (Some "gsk-key")
      ["When is the premium due?"; "What is the deductible?"]
    = (HTTPException 500 ("Error processing submission: " +:+ e), log).
Proof.
  destruct (submission_failures unit sample_system_query sample_post tt (Some "gsk-key")
              ["When is the premium due?"; "What is the deductible?"])
    as (_ & _ & H).
  apply (H eq_refl "What is the deductible?").
  - right. now left.
  - left. eexists. vm_compute. reflexivity.
Defined.

(** ** Found values, chunk metadata and the log *)

Lemma prefix_empty (s : string) : String.prefix EmptyString s = true.
Proof. now destruct s. Qed.

Lemma prefix_substring (n : nat) : forall s, String.prefix (String.substring 0 n s) s = true.
Proof.
  induction n as [|n IH]; intros [|c s]; cbn [String.substring String.prefix];
    try reflexivity.
  destruct (ascii_dec c c); [apply IH | contradiction].
Qed.

Lemma contains_prefix (m s : string) : String.prefix m s = true -> Py.contains m s = true.
Proof. intros H. destruct s; cbn [Py.contains]; now rewrite H. Qed.

Lemma contains_app (m pre s : string) :
  Py.contains m s = true -> Py.contains m (pre +:+ s) = true.
Proof.
  intros H. induction pre as [|c pre IH]; [exact H|].
  change (String c pre +:+ s) with (String c (pre +:+ s)).
  cbn [Py.contains]. rewrite IH. apply orb_true_r.
Qed.

Lemma string_app_assoc (a b c : string) : (a +:+ b) +:+ c = a +:+ (b +:+ c).
Proof.
  induction a as [|x a IH]; [reflexivity|].
  change (String x (a +:+ b) +:+ c = String x (a +:+ (b +:+ c))).
  change (String x ((a +:+ b) +:+ c) = String x (a +:+ (b +:+ c))). now rewrite IH.
Qed.

Lemma rep_match_suffix (p : ascii -> bool) (k : string -> option string) (s : string) :
  forall lo hi rest,
    rep_match p lo hi s k = Some rest ->
    exists pre s', s = pre +:+ s' /\ k s' = Some rest.
Proof.
  induction s as [|c s IH]; intros lo hi rest; cbn [rep_match].
  - destruct lo; [|discriminate]. intros H. now exists EmptyString, EmptyString.
  - assert (Hstop : match lo with O => k (String c s) | S _ => None end = Some rest ->
                    exists pre s', String c s = pre +:+ s' /\ k s' = Some rest).
    { destruct lo; [|discriminate]. intros H. now exists EmptyString, (String c s). }
    destruct (p c && _); [|exact Hstop].
    destruct (rep_match p (Nat.pred lo) (option_map Nat.pred hi) s k) as [rest'|] eqn:Hrec;
      [|exact Hstop].
    intros [= <-]. destruct (IH _ _ _ Hrec) as (pre & s' & -> & Hk).
    now exists (String c pre), s'.
Qed.

Lemma match_here_suffix (r : regex) :
  forall (s : string) (k : string -> option string) (rest : string),
    match_here r s k = Some rest ->
    exists pre s', s = pre +:+ s' /\ k s' = Some rest.
Proof.
  induction r as [c|p|p lo hi|r IH|r1 IH1 r2 IH2]; intros s k rest; cbn [match_here].
  - destruct s as [|c' s]; [discriminate|]. destruct (Ascii.eqb c' c); [|discriminate].
    intros H. now exists (String c' EmptyString), s.
  - destruct s as [|c' s]; [discriminate|]. destruct (p c'); [|discriminate].
    intros H. now exists (String c' EmptyString), s.
  - apply rep_match_suffix.
  - destruct (match_here r s k) as [rest'|] eqn:Hr.
    + intros [= <-]. now apply IH.
    + intros H. now exists EmptyString, s.
  - intros H. destruct (IH1 _ _ _ H) as (pre1 & s1 & -> & H1).
    destruct (IH2 _ _ _ H1) as (pre2 & s2 & -> & H2).
    exists (pre1 +:+ pre2), s2. split; [|exact H2]. symmetry. apply string_app_assoc.
Qed.

Lemma findall_go_occur (r : regex) (fuel : nat) :
  forall (s m : string), In m (findall_go fuel r s) -> Py.contains m s = true.
Proof.
  induction fuel as [|fuel IH]; intros s m; cbn [findall_go]; [intros []|].
  assert (Hadvance : In m match s with
                          | EmptyString => []
                          | String _ s' => findall_go fuel r s'
                          end -> Py.contains m s = true).
  { destruct s as [|c s]; [intros []|]. intros H.
    apply (contains_app m (String c EmptyString) s). now apply IH. }
  destruct (match_here r s Some) as [rest|] eqn:Hmatch; [|exact Hadvance].
  destruct (String.length s - String.length rest) as [|n] eqn:Hn.
  - intros [<- | H]; [|now apply Hadvance].
    apply contains_prefix, prefix_empty.
  - intros [<- | H]; [apply contains_prefix, prefix_substring|].
    destruct (match_here_suffix r s Some rest Hmatch) as (pre & s' & -> & [= ->]).
    apply contains_app. now apply IH.
Qed.

(** X24. The features report only what the text holds: every amount, every
    percentage, every date and, for the full embedder, every policy reference
    found occurs in the text, character for character. *)
Theorem found_values_occur_in_text (terms : list string) (full : bool) (text : string) :
  exists f,
    _extract_features terms full text = inr f
    /\ Forall (fun m => Py.contains m text = true) (amounts f)
    /\ Forall (fun m => Py.contains m text = true) (percentages f)
    /\ Forall (fun m => Py.contains m text = true) (dates f)
    /\ Forall (fun m => Py.contains m text = true) (default [] (policy_references f)).
Proof.
  assert (Hall : forall r, Forall (fun m => Py.contains m text = true) (findall r text)).
  { intros r. unfold findall.
    pose proof (findall_go_occur r (S (String.length text)) text) as H.
    induction (findall_go (S (String.length text)) r text) as [|m l IHl];
      constructor; [apply H; now left | apply IHl; intros m' Hm'; apply H; now right]. }
  unfold _extract_features.
  destruct (average_sentence_length (Py.split text) (Py.split_sep "." text))
    as [e|avg] eqn:Havg.
  - exfalso. destruct (extract_features_total terms full text) as [f Hf].
    unfold _extract_features in Hf. rewrite Havg in Hf. discriminate Hf.
  - eexists. split; [reflexivity|]. cbn [amounts percentages dates policy_references].
    repeat split; try apply Hall. destruct full; cbn [default]; [apply Hall | constructor].
Qed.

Section ChunkMetadata.

Variable _split_into_sentences : string -> list string.
Variable now_isoformat : nat -> string.
Variable self : chunker.

(** X25. Every text chunk carries the counts of its own content: in the
    text part of both builders, the word count of the metadata is the number
    of words of the content of the chunk and the character count is its
    length, also for chunks cut by the overflow split. *)
Theorem text_chunks_count_their_content (items : list item) :
  Forall counts_own_content
         (text_chunks _split_into_sentences now_isoformat self items).
Proof.
  apply (text_chunks_made _split_into_sentences now_isoformat self
           counts_own_content (fun _ => True)).
  - exact I.
  - intros it _ _. exact I.
  - intros l section ts _. unfold counts_own_content, _create_chunk_metadata.
    cbn [metadata content]. now split.
Qed.

End ChunkMetadata.

Section LogAndRegistry.

Variable T : Type.
Variable extract : string -> extracted_data T * list log_record.
Variable build_chunks : extracted_data T -> list chunk.
Variable self_insurance_terms : list string.
Variable full : bool.
Variable encode : string -> exn + list float.
Variable collection : Type.
Variable collection_add : collection -> add_request -> collection * option exn.
Variable processed_at_now : string -> string.

Local Abbreviation run_one :=
  (process_pdf T extract build_chunks self_insurance_terms full encode
               collection collection_add processed_at_now).

(** X26. The log tells whether a file was registered. Processing one file
    appends to the log its announcement, what the extractor logged, and one
    closing record. The closing record is either the success line with the
    number of chunks, and then the file is registered with that many chunks;
    or an error line, and then the registry is as it was. *)
Theorem closing_record_tells_registration (st : rag_system collection) (f : pdf_file) :
  exists closing,
    log (run_one st f)
    = (log st ++ [announcement f]) ++ snd (extract (file_path_str f)) ++ [closing]
    /\ ((exists doc,
           closing = success_record f (List.length (doc_chunks doc))
           /\ processed_docs (run_one st f) = <[ name f := doc ]> (processed_docs st)
           /\ doc_total_chunks doc = Z.of_nat (List.length (doc_chunks doc)))
        \/ (exists e,
              closing = processing_error f e
              /\ processed_docs (run_one st f) = processed_docs st)).
Proof.
  unfold process_pdf. destruct (extract (file_path_str f)) as [data extraction_log].
  cbn [snd].
  destruct (create_embeddings self_insurance_terms full encode (build_chunks data) [])
    as [e|enhanced].
  { eexists. cbn [log processed_docs]. split; [now rewrite <- app_assoc|]. right. eauto. }
  destruct (_store_chunks collection collection_add (self_collection st) 0 enhanced
              (name f)) as [coll [e|]].
  { eexists. cbn [log processed_docs]. split; [now rewrite <- app_assoc|]. right. eauto. }
  destruct (st_size f) as [e|size].
  { eexists. cbn [log processed_docs]. split; [now rewrite <- app_assoc|]. right. eauto. }
  eexists. cbn [log processed_docs]. split; [now rewrite <- app_assoc|]. left.
  eexists. split; [|split]; [|reflexivity|]; reflexivity.
Qed.

End LogAndRegistry.

(** ** The stored word count *)

Lemma extract_features_word_count (terms : list string) (full : bool) (text : string)
    (f : features) :
  _extract_features terms full text = inr f -> word_count f = Py.word_count text.
Proof.
  unfold _extract_features.
  destruct (average_sentence_length (Py.split text) (Py.split_sep "." text));
    [discriminate|].
  now intros [= <-].
Qed.

Section StoredWordCount.

Variable self_insurance_terms : list string.
Variable full : bool.
Variable encode : string -> exn + list float.

(** X27. The word count stored with a chunk is that of the stored
    document. For chunks enhanced by [create_embeddings], the ['word_count']
    of every metadata mapping [_store_chunks] sends is the number of words of
    the document sent with it, because the entry of the features replaces the
    one taken from the metadata of the chunk: a table chunk, whose metadata
    have no word count, is stored with the word count of its text and not
    with 0. *)
Theorem stored_word_count_is_that_of_the_document (chunks : list chunk)
    (enhanced : list enhanced_chunk) (file_name : string) :
  create_embeddings self_insurance_terms full encode chunks [] = inr enhanced ->
  Forall (fun request =>
            stored_word_count (add_metadata request)
            = Py.word_count (add_document request))
         (requests_sent enhanced file_name).
Proof.
  intros Hemb.
  destruct (create_embeddings_appends self_insurance_terms full encode chunks []
              enhanced Hemb) as (more & -> & _ & Hdesc).
  cbn [app]. rewrite requests_sent_imap.
  assert (Hfrom : forall position : nat -> nat,
            Forall (fun request =>
                      stored_word_count (add_metadata request)
                      = Py.word_count (add_document request))
                   (imap (fun k chunk => request_of file_name (position k) chunk) more)).
  { clear Hemb.
    induction Hdesc as [|ec more (_ & Hfeatures & _) _ IH]; intros position; cbn [imap];
      constructor.
    - unfold stored_word_count, request_of.
      cbn [add_metadata add_document stored_features].
      exact (extract_features_word_count _ _ _ _ Hfeatures).
    - exact (IH (fun k => position (S k))). }
  exact (Hfrom (fun k => k)).
Qed.

End StoredWordCount.

Lemma stored_word_count_is_that_of_the_document_witness :
  exists enhanced,
    create_embeddings simple_insurance_terms false sample_encode table_chunks []
    = inr enhanced
    /\ Forall (fun request =>
                 stored_word_count (add_metadata request)
                 = Py.word_count (add_document request))
              (requests_sent enhanced "benefits.pdf")
    /\ map (fun request => stored_word_count (add_metadata request))
           (requests_sent enhanced "benefits.pdf") = [4%Z]
    /\ map (fun c => metadata_word_count (metadata c)) table_chunks = [0%Z].
Proof.
  destruct (create_embeddings_returns simple_insurance_terms false sample_encode
              table_chunks ltac:(intros c _; eexists; reflexivity) [])
    as (enhanced & Hemb & _).
  exists enhanced. split; [exact Hemb|].
  pose proof (stored_word_count_is_that_of_the_document simple_insurance_terms false
                sample_encode table_chunks enhanced "benefits.pdf" Hemb) as Hall.
  split; [exact Hall|]. split; [|reflexivity].
  destruct (create_embeddings_describes_chunks simple_insurance_terms false
              sample_encode table_chunks enhanced Hemb) as [Hbase Hdesc].
  destruct enhanced as [|ec [|ec' enhanced]]; try discriminate Hbase.
  injection Hbase as Hbase.
  inversion Hdesc as [|ec0 rest (_ & Hfeatures & _) _ Heq].
  rewrite requests_sent_imap. cbn [imap map]. unfold stored_word_count, request_of.
  cbn [add_metadata stored_features].
  rewrite (extract_features_word_count _ _ _ _ Hfeatures), Hbase. reflexivity.
Defined.
